(** * The recording pipeline of server.js

    A shallow embedding of the mediasoup audio ingest server: the
    recording pipeline ([startRecordingForProducer],
    [stopRecordingForProducer], [convertOggToMp3], the two ffmpeg exit
    listeners and the helpers they use), the configuration read from the
    environment, and the handlers of the HTTP API.  The server runs on one
    event loop, so every handler is an atomic function on the state of the
    server between two suspension points; an [async] function is cut at
    its [await]s into resumable segments.  What the outside world decides
    (whether a mediasoup request is rejected, what ffmpeg exits with, which
    port is free) is supplied with each event.

    The state records what server.js itself does to the objects it holds.
    Not modelled: what mediasoup does on its own when a producer or a
    transport closes; a failure to launch ffmpeg that Node reports through
    an ['error'] event of the child, for which server.js installs no
    listener (a [spawn] that throws is modelled); the normalisation done
    by [path.join]; a consumer without codec or encoding; the start of the
    mediasoup worker and of the HTTP listener. *)

From Stdlib Require Import ZArith String List Lia Bool Ascii.
From stdpp Require Import base gmap strings list pretty.
Open Scope string_scope.
Open Scope list_scope.

(** ** Configuration constants (server.js:19-26), as parsed at start-up *)

Record Config := {
  RECORD_DIR : string;
  POST_CONVERT_MP3 : bool;
  RECORD_BITRATE : string;
  KEEP_OGG : bool
}.

(** ** Helpers (server.js:66-99) *)

(** The getters of a JS [Date] that [ts] reads; [getMonth] is 0-based. *)
Record Date := {
  getFullYear : nat; getMonth : nat; getDate : nat;
  getHours : nat; getMinutes : nat; getSeconds : nat
}.

(** [String(n).padStart(2, '0')] *)
Definition pad (n : nat) : string :=
  let s := pretty n in
  match String.length s with
  | 0 => "00"
  | 1 => "0" +:+ s
  | _ => s
  end.

Definition ts (d : Date) : string :=
  pretty (getFullYear d) +:+ pad (getMonth d + 1) +:+ pad (getDate d) +:+ "_"
  +:+ pad (getHours d) +:+ pad (getMinutes d) +:+ pad (getSeconds d).

Definition newline : string := String (ascii_of_nat 10) EmptyString.

Definition buildOpusSdp (ip : string) (port payloadType ssrc : nat) : string :=
  String.concat newline [
    "v=0";
    "o=- 0 0 IN IP4 127.0.0.1";
    "s=mediasoup-audio";
    "c=IN IP4 " +:+ ip;
    "t=0 0";
    "m=audio " +:+ pretty port +:+ " RTP/AVP " +:+ pretty payloadType;
    "a=rtpmap:" +:+ pretty payloadType +:+ " opus/48000/2";
    "a=fmtp:" +:+ pretty payloadType
      +:+ " sprop-stereo=1;stereo=1;minptime=10;useinbandfec=1";
    "a=rtcp-mux";
    "a=recvonly";
    "a=ssrc:" +:+ pretty ssrc +:+ " cname:mediasoup-audio";
    EmptyString
  ].

(** [path.join(dir, name)] for a plain file name; normalisation of dot
    segments is not modelled, paths are only used as keys of the file
    store. *)
Definition path_join (dir name : string) : string := dir +:+ "/" +:+ name.

Definition lower (c : ascii) : ascii :=
  let n := nat_of_ascii c in
  if Nat.leb 65 n && Nat.leb n 90 then ascii_of_nat (n + 32) else c.

(** The whole of [s] is [.ogg], in any letter case. *)
Definition is_dot_ogg (s : string) : bool :=
  match s with
  | String a (String b (String c (String d EmptyString))) =>
      Ascii.eqb a "."%char && Ascii.eqb (lower b) "o"%char
      && Ascii.eqb (lower c) "g"%char && Ascii.eqb (lower d) "g"%char
  | _ => false
  end.

(** [oggFile.replace(/\.ogg$/i, '.mp3')] : the pattern is anchored at the
    end of the input, so it matches at most at the last four characters. *)
Fixpoint replace_ogg_ext (s : string) : string :=
  if is_dot_ogg s then ".mp3"
  else match s with
       | EmptyString => EmptyString
       | String c s' => String c (replace_ogg_ext s')
       end.

(** Command lines of the two ffmpeg invocations (server.js:167-173, 104-113) *)
Definition recorder_args (sdpFile outFile : string) : list string :=
  [ "-hide_banner"; "-loglevel"; "warning";
    "-protocol_whitelist"; "file,udp,rtp";
    "-i"; sdpFile;
    "-c"; "copy";
    outFile ].

Definition mp3_args (oggFile bitrate mp3File : string) : list string :=
  [ "-hide_banner"; "-loglevel"; "warning";
    "-i"; oggFile;
    "-vn";
    "-c:a"; "libmp3lame";
    "-b:a"; bitrate;
    "-ar"; "44100";
    "-ac"; "2";
    mp3File ].

(** ** Data model *)

(** A mediasoup producer, as far as the pipeline reads it:
    [producer.id] and [producer.appData?.peerId]. *)
Record Producer := { producerId : string; peerId : option string }.

(** A value of the [recordings] map (server.js:38, 204-210); the handles
    are indices into the stores of the world below. *)
Record Rec := {
  ffmpeg : nat; consumer : nat; transport : nat;
  file : string; sdpFile : string
}.

(** A plain transport created on the router. *)
Record Transport := { remotePort : option nat; transportClosed : bool }.

(** A consumer created on a plain transport. *)
Record Consumer := {
  onTransport : nat; ofProducer : string;
  consumerPaused : bool; consumerClosed : bool
}.

(** The ['exit'] listener installed on a child process: the closure of
    server.js:175-198 on the recorder, and the closure of server.js:115-121
    on the transcoder together with what the awaiting recorder listener
    still has to do once the promise resolves (remove [sdp]). *)
Inductive ExitListener :=
| OnRecorderExit (outFile sdp : string)
| OnTranscoderExit (oggFile mp3File sdp : string).

(** A spawned ffmpeg.  [killed] is Node's [child.killed]: a signal was
    delivered, which says nothing about the child having exited;
    [exited] holds the code and signal of the ['exit'] event. *)
Record Child := {
  argv : list string;
  onExit : ExitListener;
  killed : bool;
  exited : option (option Z * option string)
}.

Inductive FileContent := Text (s : string) | Blob (size : Z).

(** [fs.statSync(f).size] *)
Definition file_size (f : FileContent) : Z :=
  match f with
  | Text s => Z.of_nat (String.length s)
  | Blob n => n
  end.

Inductive CloseSignal := transportclose | producerclose.

(** The two kinds of listeners the server puts on a producer:
    [() => producers.delete(producer.id)] (server.js:300-301) and
    [cleanup] (server.js:215-217). *)
Inductive Listener := DeleteProducer | Cleanup.

#[global] Instance CloseSignal_eq_dec : EqDecision CloseSignal.
Proof. solve_decision. Defined.

(** What the environment answers when a handler runs. *)
Record Env := {
  rejects : bool;              (* the awaited promise rejects *)
  freePort : nat;              (* result of getFreeUdpPort *)
  canConsume : bool;           (* router.canConsume(...) *)
  payloadType : nat;           (* consumer.rtpParameters.codecs[0].payloadType *)
  ssrc : nat;                  (* consumer.rtpParameters.encodings[0].ssrc *)
  date : Date;                 (* new Date() *)
  writeThrows : bool;          (* fs.writeFileSync throws *)
  spawnThrows : bool;          (* spawn throws *)
  consumerCloseThrows : bool;  (* consumer.close() throws *)
  transportCloseThrows : bool; (* transport.close() throws *)
  killThrows : bool            (* child.kill() throws *)
}.

(** Side effects, as they are recorded in the trace of the server. *)
Inductive Action :=
| ProbePort
| CreatePlainTransport (t : nat)
| ConnectTransport (t port : nat)
| CloseTransport (t : nat)
| Consume (t c : nat) (pid : string)
| CloseConsumer (c : nat)
| ResumeConsumer (c : nat)
| WriteFile (path : string)
| Unlink (path : string)
| Spawn (proc : nat) (args : list string)
| Kill (proc : nat) (sig : string)
| SetTimeout (ms : nat)
| RegistrySet (pid : string)
| RegistryDelete (pid : string)
| AddListener (pid : string) (s : CloseSignal) (l : Listener)
| LogError.

(** Who acted: the [tid]-th invocation of [startRecordingForProducer],
    or one of the event handlers. *)
Inductive Actor := Task (tid : nat) | Handler.

Record Entry := { at_ms : nat; by_whom : Actor; act : Action }.

(** An invocation of [startRecordingForProducer], suspended at one of
    its [await]s (server.js:129, 132, 137, 143, 148, 201, 202). *)
Inductive StartTask :=
| AwaitPort (p : Producer)
| AwaitCreateTransport (p : Producer) (rtpPort : nat)
| AwaitConnect (p : Producer) (rtpPort plainTransport : nat)
| AwaitCloseTransport
| AwaitConsume (p : Producer) (rtpPort plainTransport : nat)
| AwaitTimer (p : Producer) (due : nat) (r : Rec)
| AwaitResume (p : Producer) (r : Rec)
| Returned.

(** ** The state of the server *)

Record World := {
  now : nat;                                   (* clock, in ms *)
  producers : gmap string Producer;            (* server.js:37 *)
  recordings : gmap string Rec;                (* server.js:38 *)
  plainTransports : list Transport;
  consumers : list Consumer;
  children : list Child;
  files : gmap string FileContent;
  listeners : list (string * CloseSignal * Listener);
  pending : list StartTask;
  trace : list Entry
}.

Definition boot : World :=
  {| now := 0; producers := ∅; recordings := ∅; plainTransports := [];
     consumers := []; children := []; files := ∅; listeners := [];
     pending := []; trace := [] |}.

Definition with_now (v : nat) (w : World) : World :=
  {| now := v; producers := producers w; recordings := recordings w;
     plainTransports := plainTransports w; consumers := consumers w;
     children := children w; files := files w; listeners := listeners w;
     pending := pending w; trace := trace w |}.

Definition with_producers (v : gmap string Producer) (w : World) : World :=
  {| now := now w; producers := v; recordings := recordings w;
     plainTransports := plainTransports w; consumers := consumers w;
     children := children w; files := files w; listeners := listeners w;
     pending := pending w; trace := trace w |}.

Definition with_recordings (v : gmap string Rec) (w : World) : World :=
  {| now := now w; producers := producers w; recordings := v;
     plainTransports := plainTransports w; consumers := consumers w;
     children := children w; files := files w; listeners := listeners w;
     pending := pending w; trace := trace w |}.

Definition with_plainTransports (v : list Transport) (w : World) : World :=
  {| now := now w; producers := producers w; recordings := recordings w;
     plainTransports := v; consumers := consumers w;
     children := children w; files := files w; listeners := listeners w;
     pending := pending w; trace := trace w |}.

Definition with_consumers (v : list Consumer) (w : World) : World :=
  {| now := now w; producers := producers w; recordings := recordings w;
     plainTransports := plainTransports w; consumers := v;
     children := children w; files := files w; listeners := listeners w;
     pending := pending w; trace := trace w |}.

Definition with_children (v : list Child) (w : World) : World :=
  {| now := now w; producers := producers w; recordings := recordings w;
     plainTransports := plainTransports w; consumers := consumers w;
     children := v; files := files w; listeners := listeners w;
     pending := pending w; trace := trace w |}.

Definition with_files (v : gmap string FileContent) (w : World) : World :=
  {| now := now w; producers := producers w; recordings := recordings w;
     plainTransports := plainTransports w; consumers := consumers w;
     children := children w; files := v; listeners := listeners w;
     pending := pending w; trace := trace w |}.

Definition with_listeners (v : list (string * CloseSignal * Listener))
    (w : World) : World :=
  {| now := now w; producers := producers w; recordings := recordings w;
     plainTransports := plainTransports w; consumers := consumers w;
     children := children w; files := files w; listeners := v;
     pending := pending w; trace := trace w |}.

Definition with_pending (v : list StartTask) (w : World) : World :=
  {| now := now w; producers := producers w; recordings := recordings w;
     plainTransports := plainTransports w; consumers := consumers w;
     children := children w; files := files w; listeners := listeners w;
     pending := v; trace := trace w |}.

Definition with_trace (v : list Entry) (w : World) : World :=
  {| now := now w; producers := producers w; recordings := recordings w;
     plainTransports := plainTransports w; consumers := consumers w;
     children := children w; files := files w; listeners := listeners w;
     pending := pending w; trace := v |}.

(** Record an action at the current time. *)
Definition emit (who : Actor) (a : Action) (w : World) : World :=
  with_trace (trace w ++ [{| at_ms := now w; by_whom := who; act := a |}]) w.

(** ** Statements that may throw

    A handler body is a sequence of statements on the world; a statement
    completes normally or throws, keeping the effects made so far. *)

Inductive Completion := Normal | Thrown.

Definition Stmt := World → Completion * World.

Definition perform (f : World → World) : Stmt := fun w => (Normal, f w).

Definition throw : Stmt := fun w => (Thrown, w).

Definition and_then (a b : Stmt) : Stmt := fun w =>
  match a w with
  | (Normal, w') => b w'
  | (Thrown, w') => (Thrown, w')
  end.

Infix ">>>" := and_then (at level 62, right associativity).

(** [try { body } catch {}] *)
Definition try_catch (body : Stmt) : Stmt := fun w => (Normal, snd (body w)).

(** ** Primitive operations on mediasoup objects, children and files *)

Definition closeT (t : Transport) : Transport :=
  {| remotePort := remotePort t; transportClosed := true |}.

Definition connectT (port : nat) (t : Transport) : Transport :=
  {| remotePort := Some port; transportClosed := transportClosed t |}.

Definition closeC (c : Consumer) : Consumer :=
  {| onTransport := onTransport c; ofProducer := ofProducer c;
     consumerPaused := consumerPaused c; consumerClosed := true |}.

Definition resumeC (c : Consumer) : Consumer :=
  {| onTransport := onTransport c; ofProducer := ofProducer c;
     consumerPaused := false; consumerClosed := consumerClosed c |}.

(** [child.kill(sig)] on a child that is still running delivers the
    signal and sets [killed]; on a child that has exited it does nothing. *)
Definition deliver (ch : Child) : Child :=
  match exited ch with
  | None => {| argv := argv ch; onExit := onExit ch; killed := true;
               exited := None |}
  | Some _ => ch
  end.

Definition exit_with (code : option Z) (signal : option string) (ch : Child)
    : Child :=
  {| argv := argv ch; onExit := onExit ch; killed := killed ch;
     exited := Some (code, signal) |}.

Definition consumer_close (who : Actor) (e : Env) (c : nat) : Stmt :=
  if consumerCloseThrows e then throw
  else perform (fun w =>
         emit who (CloseConsumer c)
           (with_consumers (alter closeC c (consumers w)) w)).

Definition transport_close (who : Actor) (e : Env) (t : nat) : Stmt :=
  if transportCloseThrows e then throw
  else perform (fun w =>
         emit who (CloseTransport t)
           (with_plainTransports (alter closeT t (plainTransports w)) w)).

Definition child_kill (who : Actor) (e : Env) (proc : nat) (sig : string)
    : Stmt :=
  if killThrows e then throw
  else perform (fun w =>
         emit who (Kill proc sig)
           (with_children (alter deliver proc (children w)) w)).

(** [rec.ffmpeg.killed] *)
Definition child_killed (w : World) (proc : nat) : bool :=
  from_option killed false (children w !! proc).

(** [spawn('ffmpeg', args, ...)] followed by [.on('exit', listener)];
    the handle of the new child is its index. *)
Definition spawn (who : Actor) (args : list string) (l : ExitListener)
    (w : World) : World :=
  emit who (Spawn (length (children w)) args)
    (with_children
       (children w ++
          [{| argv := args; onExit := l; killed := false; exited := None |}])
       w).

(** [fs.unlinkSync(path)]: throws when there is no such file. *)
Definition unlinkSync (who : Actor) (path : string) : Stmt := fun w =>
  match files w !! path with
  | Some _ =>
      (Normal, emit who (Unlink path) (with_files (delete path (files w)) w))
  | None => (Thrown, w)
  end.

(** ** stopRecordingForProducer (server.js:224-236) *)

Definition stopRecordingForProducer (who : Actor) (e : Env) (pid : string)
    : Stmt := fun w =>
  match recordings w !! pid with
  | None => (Normal, w)
  | Some rec =>
      ( try_catch (consumer_close who e (consumer rec)) >>>
        try_catch (transport_close who e (transport rec)) >>>
        try_catch (fun w =>
          if negb (child_killed w (ffmpeg rec))
          then child_kill who e (ffmpeg rec) "SIGINT" w
          else (Normal, w)) >>>
        perform (fun w =>
          emit who (RegistryDelete pid)
            (with_recordings (delete pid (recordings w)) w)) ) w
  end.

(** ** The exit listeners and convertOggToMp3 *)

(** [code === 0 || code === 255 || signal === 'SIGINT' || hasData]
    (server.js:186) *)
Definition recorder_ok (code : option Z) (signal : option string)
    (hasData : bool) : bool :=
  bool_decide (code = Some 0%Z) || bool_decide (code = Some 255%Z)
  || bool_decide (signal = Some "SIGINT") || hasData.

(** server.js:179-183: [hasData] stays [false] when [statSync] throws. *)
Definition has_data (w : World) (outFile : string) : bool :=
  match files w !! outFile with
  | Some f => (8192 <? file_size f)%Z
  | None => false
  end.

Section Pipeline.

Variable cfg : Config.

(** server.js:101-114, up to the registration of the exit listener.
    [sdp] is not an argument of the source function: it is the descriptor
    the caller removes after the [await], kept with the listener. *)
Definition convertOggToMp3 (who : Actor) (e : Env) (oggFile bitrate : string)
    (sdp : string) : Stmt :=
  let mp3File := replace_ogg_ext oggFile in
  if spawnThrows e then throw
  else perform
         (spawn who (mp3_args oggFile bitrate mp3File)
            (OnTranscoderExit oggFile mp3File sdp)).

(** The recorder's exit listener, server.js:175-198, up to its [await]
    when the transcoder is started, to its end otherwise. *)
Definition recorder_exited (who : Actor) (e : Env) (outFile sdp : string)
    (code : option Z) (signal : option string) (w : World) : World :=
  let hasData := has_data w outFile in
  let ok := recorder_ok code signal hasData in
  if POST_CONVERT_MP3 cfg && ok then
    match convertOggToMp3 who e outFile (RECORD_BITRATE cfg) sdp w with
    | (Normal, w') => w'
    | (Thrown, w') =>
        snd (try_catch (unlinkSync who sdp) (emit who LogError w'))
    end
  else snd (try_catch (unlinkSync who sdp) w).

(** The transcoder's exit listener, server.js:115-121, and then the rest
    of the recorder's listener, server.js:196-197, which [resolve()]
    lets run. *)
Definition transcoder_exited (who : Actor) (oggFile mp3File sdp : string)
    (code : option Z) (w : World) : World :=
  let w :=
    if bool_decide (code = Some 0%Z) && negb (KEEP_OGG cfg)
    then snd (try_catch (unlinkSync who oggFile) w)
    else w in
  snd (try_catch (unlinkSync who sdp) w).

(** ** startRecordingForProducer (server.js:126-222) *)

(** The settling delay of server.js:201. *)
Definition SETTLE_MS : nat := 150.

Definition localIp : string := "127.0.0.1".

(** [producer.appData?.peerId || 'unknown'] *)
Definition peer_label (p : Producer) : string :=
  match peerId p with
  | Some EmptyString | None => "unknown"
  | Some s => s
  end.

(** [base], [sdpFile] and [outFile] of server.js:161-163; [d] is the
    date [ts()] reads. *)
Definition base_name (d : Date) (p : Producer) : string :=
  ts d +:+ "_peer-" +:+ peer_label p +:+ "_prod-" +:+ producerId p.

Definition sdp_path (d : Date) (p : Producer) : string :=
  path_join (RECORD_DIR cfg) (base_name d p +:+ ".sdp").

Definition ogg_path (d : Date) (p : Producer) : string :=
  path_join (RECORD_DIR cfg) (base_name d p +:+ ".ogg").

(** [catch (e) { console.error(...) }] (server.js:219-221) *)
Definition caught (tid : nat) (w : World) : StartTask * World :=
  (Returned, emit (Task tid) LogError w).

(** The call itself: runs to the first [await] (server.js:127-129). *)
Definition startRecordingForProducer (tid : nat) (p : Producer) (w : World)
    : StartTask * World :=
  (AwaitPort p, emit (Task tid) ProbePort w).

(** The awaited promise settles and the function runs to its next
    [await] or to its end. *)
Definition resume_start (tid : nat) (e : Env) (k : StartTask) (w : World)
    : StartTask * World :=
  let me := Task tid in
  match k with
  | AwaitPort p =>
      (* server.js:129-132 *)
      if rejects e then caught tid w
      else (AwaitCreateTransport p (freePort e), w)
  | AwaitCreateTransport p rtpPort =>
      (* server.js:132-137 *)
      if rejects e then caught tid w
      else
        let t := length (plainTransports w) in
        let w :=
          emit me (CreatePlainTransport t)
            (with_plainTransports
               (plainTransports w ++
                  [{| remotePort := None; transportClosed := false |}]) w) in
        (AwaitConnect p rtpPort t, w)
  | AwaitConnect p rtpPort t =>
      (* server.js:137-152 *)
      if rejects e then caught tid w
      else
        let w :=
          emit me (ConnectTransport t rtpPort)
            (with_plainTransports
               (alter (connectT rtpPort) t (plainTransports w)) w) in
        if negb (canConsume e) then
          match transport_close me e t w with
          | (Normal, w') => (AwaitCloseTransport, w')
          | (Thrown, w') => caught tid w'
          end
        else (AwaitConsume p rtpPort t, w)
  | AwaitCloseTransport =>
      (* server.js:143-144 *)
      (Returned, w)
  | AwaitConsume p rtpPort t =>
      (* server.js:148-201 *)
      if rejects e then caught tid w
      else
        let c := length (consumers w) in
        let w :=
          emit me (Consume t c (producerId p))
            (with_consumers
               (consumers w ++
                  [{| onTransport := t; ofProducer := producerId p;
                      consumerPaused := true; consumerClosed := false |}])
               w) in
        let sdpText := buildOpusSdp localIp rtpPort (payloadType e) (ssrc e) in
        let sdpFile := sdp_path (date e) p in
        let outFile := ogg_path (date e) p in
        if writeThrows e then caught tid w
        else
          let w :=
            emit me (WriteFile sdpFile)
              (with_files (<[sdpFile := Text sdpText]> (files w)) w) in
          if spawnThrows e then caught tid w
          else
            let ff := length (children w) in
            let w :=
              spawn me (recorder_args sdpFile outFile)
                (OnRecorderExit outFile sdpFile) w in
            let w := emit me (SetTimeout SETTLE_MS) w in
            (AwaitTimer p (now w + SETTLE_MS)
               {| ffmpeg := ff; consumer := c; transport := t;
                  file := outFile; sdpFile := sdpFile |}, w)
  | AwaitTimer p due r =>
      (* server.js:201-202; the timer fires no earlier than it is due *)
      if Nat.ltb (now w) due then (k, w)
      else (AwaitResume p r, emit me (ResumeConsumer (consumer r)) w)
  | AwaitResume p r =>
      (* server.js:202-217 *)
      if rejects e then caught tid w
      else
        let pid := producerId p in
        let w := with_consumers (alter resumeC (consumer r) (consumers w)) w in
        let w :=
          emit me (RegistrySet pid)
            (with_recordings (<[pid := r]> (recordings w)) w) in
        let w :=
          emit me (AddListener pid transportclose Cleanup)
            (with_listeners (listeners w ++ [(pid, transportclose, Cleanup)])
               w) in
        let w :=
          emit me (AddListener pid producerclose Cleanup)
            (with_listeners (listeners w ++ [(pid, producerclose, Cleanup)])
               w) in
        (Returned, w)
  | Returned => (Returned, w)
  end.

(** ** The event loop *)

(** What can happen next on the event loop:
    - [Produce p]: POST /produce has created producer [p]
      (server.js:295-301);
    - [Start p]: a call of startRecordingForProducer(p);
    - [Settle tid e]: the promise that invocation [tid] awaits settles;
    - [StopRequest pid e]: POST /stop-recording (server.js:322-327);
    - [ProducerSignal pid s e]: the producer emits ['transportclose'] or
      ['producerclose'];
    - [ChildExit proc code signal e]: a child process emits ['exit'];
    - [ExternalWrite path size]: a child process writes its output file;
    - [Tick ms]: time passes. *)
Inductive Event :=
| Produce (p : Producer)
| Start (p : Producer)
| Settle (tid : nat) (e : Env)
| StopRequest (pid : string) (e : Env)
| ProducerSignal (pid : string) (s : CloseSignal) (e : Env)
| ChildExit (proc : nat) (code : option Z) (signal : option string) (e : Env)
| ExternalWrite (path : string) (size : Z)
| Tick (ms : nat).

Definition run_listener (e : Env) (pid : string) (l : Listener) (w : World)
    : World :=
  match l with
  | DeleteProducer => with_producers (delete pid (producers w)) w
  | Cleanup => snd (stopRecordingForProducer Handler e pid w)
  end.

(** [producer.emit(s)]: the listeners registered for [s] run in order. *)
Definition dispatch (e : Env) (pid : string) (s : CloseSignal)
    (regs : list (string * CloseSignal * Listener)) (w : World) : World :=
  foldl
    (fun w (reg : string * CloseSignal * Listener) =>
       let '(pid', s', l) := reg in
       if bool_decide (pid' = pid) && bool_decide (s' = s)
       then run_listener e pid l w else w)
    w regs.

Definition emit_signal (e : Env) (pid : string) (s : CloseSignal) (w : World)
    : World :=
  dispatch e pid s (listeners w) w.

Definition spawn_task (p : Producer) (w : World) : World :=
  let tid := length (pending w) in
  let '(k, w') := startRecordingForProducer tid p w in
  with_pending (pending w' ++ [k]) w'.

Definition step (ev : Event) (w : World) : World :=
  match ev with
  | Produce p =>
      let pid := producerId p in
      let w := with_producers (<[pid := p]> (producers w)) w in
      let w := spawn_task p w in
      with_listeners
        (listeners w ++ [(pid, transportclose, DeleteProducer);
                         (pid, producerclose, DeleteProducer)]) w
  | Start p => spawn_task p w
  | Settle tid e =>
      match pending w !! tid with
      | Some k =>
          let '(k', w') := resume_start tid e k w in
          with_pending (<[tid := k']> (pending w')) w'
      | None => w
      end
  | StopRequest pid e =>
      match pid with
      | EmptyString => w
      | _ => snd (stopRecordingForProducer Handler e pid w)
      end
  | ProducerSignal pid s e => emit_signal e pid s w
  | ChildExit proc code signal e =>
      match children w !! proc with
      | Some ch =>
          match exited ch with
          | Some _ => w
          | None =>
              let w :=
                with_children
                  (alter (exit_with code signal) proc (children w)) w in
              match onExit ch with
              | OnRecorderExit outFile sdp =>
                  recorder_exited Handler e outFile sdp code signal w
              | OnTranscoderExit oggFile mp3File sdp =>
                  transcoder_exited Handler oggFile mp3File sdp code w
              end
          end
      | None => w
      end
  | ExternalWrite path size =>
      with_files (<[path := Blob size]> (files w)) w
  | Tick ms => with_now (now w + ms) w
  end.

Fixpoint run (evs : list Event) (w : World) : World :=
  match evs with
  | [] => w
  | ev :: evs' => run evs' (step ev w)
  end.

(** ** GET /producers (server.js:311-320) *)

(** [recordings.get(p.id)?.file || null] *)
Definition recordingFile (w : World) (pid : string) : option string :=
  match recordings w !! pid with
  | Some r => match file r with EmptyString => None | f => Some f end
  | None => None
  end.

Definition list_producers (w : World)
    : list (string * option string * option string) :=
  (fun kv : string * Producer =>
     (producerId kv.2, peerId kv.2, recordingFile w (producerId kv.2)))
  <$> map_to_list (producers w).

End Pipeline.

(** ** Notions used in the statements *)

(** Two worlds that differ at most in the [producers] map. *)
Definition same_but_producers (w1 w2 : World) : Prop :=
  with_producers ∅ w1 = with_producers ∅ w2.

(** The trace entry [who] leaves for [a] at the time of [w]. *)
Definition logged (who : Actor) (w : World) (a : Action) : Entry :=
  {| at_ms := now w; by_whom := who; act := a |}.

(** The world after [transport.connect] resolved (server.js:137). *)
Definition connected (tid port t : nat) (w : World) : World :=
  emit (Task tid) (ConnectTransport t port)
    (with_plainTransports (alter (connectT port) t (plainTransports w)) w).


(** [n] settlements in a row of the promise invocation [tid] awaits,
    each answered by [e]. *)
Definition settles (n tid : nat) (e : Env) : list Event :=
  replicate n (Settle tid e).

(** The schedule on which invocation [tid] of startRecordingForProducer
    runs from its first [await] to its end: port, transport, connect and
    consume settle, the settling delay passes, the timer and the resume
    settle. *)
Definition settle_all (tid : nat) (e : Env) : list Event :=
  settles 4 tid e ++ [Tick SETTLE_MS] ++ settles 2 tid e.

(** What of a child the server never changes after the spawn, and its
    exit status. *)
Definition child_status (ch : Child)
    : list string * ExitListener * option (option Z * option string) :=
  (argv ch, onExit ch, exited ch).

(** [ev] is not the exit of child [proc]. *)
Definition not_exit_of (proc : nat) (ev : Event) : Prop :=
  match ev with
  | ChildExit proc' _ _ _ => proc' ≠ proc
  | _ => True
  end.

(** The recorder's exit listener reaches [convertOggToMp3] and the spawn
    there succeeds. *)
Definition converts (cfg : Config) (e : Env) (code : option Z)
    (signal : option string) (out : string) (w : World) : bool :=
  POST_CONVERT_MP3 cfg && recorder_ok code signal (has_data w out)
  && negb (spawnThrows e).

(** The transcoder as [convertOggToMp3] spawns it for the capture [out]
    of a session with descriptor [sdp]. *)
Definition transcoder (cfg : Config) (out sdp : string) : Child :=
  {| argv := mp3_args out (RECORD_BITRATE cfg) (replace_ogg_ext out);
     onExit := OnTranscoderExit out (replace_ogg_ext out) sdp;
     killed := false; exited := None |}.

(** ** Ordering of the start-up steps, read off the trace *)

Definition is_resume (en : Entry) : bool :=
  match act en with
  | ResumeConsumer _ => true
  | _ => false
  end.

(** No entry of [l] is a [consumer.resume()]. *)
Definition no_resume (l : list Entry) : bool := forallb (negb ∘ is_resume) l.

Definition is_task_spawn (en : Entry) : bool :=
  match act en with
  | Spawn _ _ => match by_whom en with Task _ => true | Handler => false end
  | _ => false
  end.

(** No entry of [l] is a spawn by startRecordingForProducer. *)
Definition no_task_spawn (l : list Entry) : bool :=
  forallb (negb ∘ is_task_spawn) l.

(** Every process that startRecordingForProducer spawns is the recorder,
    started on a descriptor the same invocation wrote before. *)
Definition written_before_spawn (tr : list Entry) : Prop :=
  ∀ k tid t proc args,
    tr !! k = Some {| at_ms := t; by_whom := Task tid;
                      act := Spawn proc args |} →
    ∃ j t0 sdp out,
      (j < k)%nat
      ∧ tr !! j = Some {| at_ms := t0; by_whom := Task tid;
                          act := WriteFile sdp |}
      ∧ args = recorder_args sdp out.

(** Invocation [tid] wrote a descriptor, then spawned the recorder on it
    at some time [t1] with [t1 + SETTLE_MS ≤ t], both before position [i]
    of the trace. *)
Definition spawned_and_settled (tr : list Entry) (tid i t : nat) : Prop :=
  ∃ j k t0 t1 sdp out proc,
    (j < k ∧ k < i)%nat
    ∧ tr !! j = Some {| at_ms := t0; by_whom := Task tid;
                        act := WriteFile sdp |}
    ∧ tr !! k = Some {| at_ms := t1; by_whom := Task tid;
                        act := Spawn proc (recorder_args sdp out) |}
    ∧ (t1 + SETTLE_MS ≤ t)%nat.

(** Every [consumer.resume()] in the trace comes after the descriptor
    write and the spawn of the same invocation, at least [SETTLE_MS]
    after the spawn. *)
Definition settled_before_resume (tr : list Entry) : Prop :=
  ∀ i tid t c,
    tr !! i = Some {| at_ms := t; by_whom := Task tid;
                      act := ResumeConsumer c |} →
    spawned_and_settled tr tid i t.

(** What the trace holds for an invocation that waits for its timer. *)
Definition task_inv (tr : list Entry) (tid : nat) (k : StartTask) : Prop :=
  match k with
  | AwaitTimer _ due _ => spawned_and_settled tr tid (length tr) due
  | _ => True
  end.

Definition ordered (w : World) : Prop :=
  written_before_spawn (trace w)
  ∧ settled_before_resume (trace w)
  ∧ ∀ tid k, pending w !! tid = Some k → task_inv (trace w) tid k.

(** [w'] has the invocations of [w] and its trace, extended by entries
    that are neither a [consumer.resume()] nor a spawn by
    startRecordingForProducer. *)
Definition quiet (w w' : World) : Prop :=
  pending w' = pending w
  ∧ ∃ l, trace w' = trace w ++ l
         ∧ no_resume l = true ∧ no_task_spawn l = true.

(** ** The window between the spawn and the registration *)

(** Requests that can arrive for producer [pid] while its session
    starts, and the passing of time. *)
Definition window_event (pid : string) (ev : Event) : Prop :=
  match ev with
  | StopRequest pid' _ => pid' = pid
  | ProducerSignal pid' _ _ => pid' = pid
  | Tick _ => True
  | _ => False
  end.

(** [w'] differs from [w] at most in the clock and the [producers] map. *)
Definition same_sessions (w w' : World) : Prop :=
  recordings w' = recordings w ∧ plainTransports w' = plainTransports w
  ∧ consumers w' = consumers w ∧ children w' = children w
  ∧ files w' = files w ∧ listeners w' = listeners w
  ∧ pending w' = pending w ∧ trace w' = trace w
  ∧ (now w ≤ now w')%nat.

(** The session [r] that is starting for [p] is not registered, is not
    listed, has no Cleanup listener of its own (the listeners are those of
    [w0], the world before the start), and the server has released none of
    its resources: the transport and the consumer are not closed, the
    recorder has been sent no signal and has not exited. *)
Definition in_flight (p : Producer) (r : Rec) (w0 w : World) : Prop :=
  recordings w !! producerId p = None
  ∧ recordingFile w (producerId p) = None
  ∧ listeners w = listeners w0
  ∧ transportClosed <$> plainTransports w !! transport r = Some false
  ∧ consumerClosed <$> consumers w !! consumer r = Some false
  ∧ child_status <$> children w !! ffmpeg r
    = Some (recorder_args (sdpFile r) (file r),
            OnRecorderExit (file r) (sdpFile r), None)
  ∧ killed <$> children w !! ffmpeg r = Some false.

(** What a segment of startRecordingForProducer, run from [w] by
    invocation [tid] with result [r], has to keep. *)
Definition keeps_order (tid : nat) (w : World) (r : StartTask * World)
    : Prop :=
  written_before_spawn (trace (snd r))
  ∧ settled_before_resume (trace (snd r))
  ∧ task_inv (trace (snd r)) tid (fst r)
  ∧ pending (snd r) = pending w
  ∧ ∃ l, trace (snd r) = trace w ++ l.

(** ** What holds in every state the server can reach *)

(** [sdp] and [out] are the descriptor and the raw file that
    startRecordingForProducer names for some producer at some date
    (server.js:161-163). *)
Definition session_paths (cfg : Config) (sdp out : string) : Prop :=
  ∃ d p, sdp = sdp_path cfg d p ∧ out = ogg_path cfg d p.

(** The child was spawned as the recorder from [sdp] to [out]
    (server.js:167-175). *)
Definition is_recorder (ch : Child) (sdp out : string) : Prop :=
  argv ch = recorder_args sdp out ∧ onExit ch = OnRecorderExit out sdp.

(** The child was spawned by convertOggToMp3 on [out]
    (server.js:103-115). *)
Definition is_transcoder (cfg : Config) (ch : Child) (sdp out : string)
    : Prop :=
  argv ch = mp3_args out (RECORD_BITRATE cfg) (replace_ogg_ext out)
  ∧ onExit ch = OnTranscoderExit out (replace_ogg_ext out) sdp.

Definition child_ok (cfg : Config) (ch : Child) : Prop :=
  ∃ sdp out, session_paths cfg sdp out
    ∧ (is_recorder ch sdp out
       ∨ (POST_CONVERT_MP3 cfg = true ∧ is_transcoder cfg ch sdp out)).

(** What an action of the trace may be: the server writes descriptors
    only, removes descriptors and, when the conversion is on and the raw
    file is not to be kept, raw files; it spawns recorders and
    transcoders of sessions; the only signal it sends is SIGINT. *)
Definition action_ok (cfg : Config) (a : Action) : Prop :=
  match a with
  | WriteFile path => ∃ sdp out, session_paths cfg sdp out ∧ path = sdp
  | Unlink path =>
      ∃ sdp out, session_paths cfg sdp out
        ∧ (path = sdp
           ∨ (path = out ∧ POST_CONVERT_MP3 cfg = true
              ∧ KEEP_OGG cfg = false))
  | Spawn _ args =>
      ∃ sdp out, session_paths cfg sdp out
        ∧ (args = recorder_args sdp out
           ∨ (POST_CONVERT_MP3 cfg = true
              ∧ args = mp3_args out (RECORD_BITRATE cfg)
                         (replace_ogg_ext out)))
  | Kill _ sig => sig = "SIGINT"
  | _ => True
  end.

(** The derived file of a session. *)
Definition mp3_path (cfg : Config) (d : Date) (p : Producer) : string :=
  path_join (RECORD_DIR cfg) (base_name d p +:+ ".mp3").

(** *** Sessions and the handles they hold *)

(** The session [r], registered or starting for producer [pid], refers to
    objects that exist and belong together: its consumer consumes [pid] on
    its transport, its process is the recorder from its descriptor to its
    raw file, and the two files are named after a producer with that
    identifier. *)
Definition session_ok (cfg : Config) (w : World) (pid : string) (r : Rec)
    : Prop :=
  (∃ d p, producerId p = pid
     ∧ sdpFile r = sdp_path cfg d p ∧ file r = ogg_path cfg d p)
  ∧ (transport r < length (plainTransports w))%nat
  ∧ (∃ c, consumers w !! consumer r = Some c
       ∧ onTransport c = transport r ∧ ofProducer c = pid)
  ∧ (∃ ch, children w !! ffmpeg r = Some ch
       ∧ is_recorder ch (sdpFile r) (file r)).

(** The plain transport and the session an invocation of
    startRecordingForProducer holds in its local variables. *)
Definition task_transport (k : StartTask) : option nat :=
  match k with
  | AwaitConnect _ _ t | AwaitConsume _ _ t => Some t
  | AwaitTimer _ _ r | AwaitResume _ r => Some (transport r)
  | _ => None
  end.

Definition task_session (k : StartTask) : option (string * Rec) :=
  match k with
  | AwaitTimer p _ r | AwaitResume p r => Some (producerId p, r)
  | _ => None
  end.

(** Who can reach a handle: the registry entry of a producer, or a
    running invocation of startRecordingForProducer. *)
Inductive Owner := Registered (pid : string) | Starting (tid : nat).

#[global] Instance Owner_eq_dec : EqDecision Owner.
Proof. solve_decision. Defined.

Definition held_transport (w : World) (o : Owner) : option nat :=
  match o with
  | Registered pid => transport <$> recordings w !! pid
  | Starting tid => pending w !! tid ≫= task_transport
  end.

(** The session an owner holds, with the producer it is for. *)
Definition claimed_session (w : World) (o : Owner) : option (string * Rec) :=
  match o with
  | Registered pid => pair pid <$> recordings w !! pid
  | Starting tid => pending w !! tid ≫= task_session
  end.

Definition held_session (w : World) (o : Owner) : option Rec :=
  snd <$> claimed_session w o.

Definition held_consumer (w : World) (o : Owner) : option nat :=
  consumer <$> held_session w o.

Definition held_child (w : World) (o : Owner) : option nat :=
  ffmpeg <$> held_session w o.

(** No handle is held by two owners. *)
Definition exclusive (held : Owner → option nat) : Prop :=
  ∀ o1 o2 h, o1 ≠ o2 → held o1 = Some h → held o2 = Some h → False.

(** The number of signals the trace records for child [proc]. *)
Definition is_kill_of (proc : nat) (en : Entry) : bool :=
  match act en with
  | Kill proc' _ => Nat.eqb proc' proc
  | _ => false
  end.

Definition kills (proc : nat) (tr : list Entry) : nat :=
  length (List.filter (is_kill_of proc) tr).

(** Every producer of the [producers] map is stored under its own
    identifier and has the two listeners of server.js:300-301; every
    registered session has the two listeners of server.js:216-217. *)
Definition listening (w : World) : Prop :=
  (∀ pid p, producers w !! pid = Some p →
     producerId p = pid
     ∧ ∀ s, (pid, s, DeleteProducer) ∈ listeners w)
  ∧ (∀ pid r, recordings w !! pid = Some r →
       ∀ s, (pid, s, Cleanup) ∈ listeners w).

(** The state of the server is consistent. *)
Record consistent (cfg : Config) (w : World) : Prop := {
  children_ok : Forall (child_ok cfg) (children w);
  trace_ok : Forall (λ en, action_ok cfg (act en)) (trace w);
  transports_exist :
    ∀ o t, held_transport w o = Some t →
           (t < length (plainTransports w))%nat;
  sessions_ok :
    ∀ o pid r, claimed_session w o = Some (pid, r) → session_ok cfg w pid r;
  transports_exclusive : exclusive (held_transport w);
  consumers_exclusive : exclusive (held_consumer w);
  children_exclusive : exclusive (held_child w);
  held_not_signalled :
    ∀ o proc, held_child w o = Some proc → kills proc (trace w) = 0%nat;
  signalled_once : ∀ proc, (kills proc (trace w) ≤ 1)%nat;
  signalled_exists :
    ∀ proc, (length (children w) ≤ proc)%nat → kills proc (trace w) = 0%nat;
  signalled_recorder :
    Forall (λ en, match act en with
                  | Kill proc _ =>
                      ∃ ch sdp out, children w !! proc = Some ch
                                    ∧ is_recorder ch sdp out
                  | _ => True
                  end) (trace w);
  listeners_ok : listening w
}.

(** [w'] has the objects of [w], each still attached to what it was
    created for. *)
Definition grows (w w' : World) : Prop :=
  (length (plainTransports w) ≤ length (plainTransports w'))%nat
  ∧ (∀ i c, consumers w !! i = Some c →
       ∃ c', consumers w' !! i = Some c'
             ∧ onTransport c' = onTransport c ∧ ofProducer c' = ofProducer c)
  ∧ (∀ i ch, children w !! i = Some ch →
       ∃ ch', children w' !! i = Some ch'
              ∧ argv ch' = argv ch ∧ onExit ch' = onExit ch).

(** The server has not touched the objects of session [r] between [w]
    and [w']. *)
Definition untouched (r : Rec) (w w' : World) : Prop :=
  plainTransports w' !! transport r = plainTransports w !! transport r
  ∧ consumers w' !! consumer r = consumers w !! consumer r
  ∧ children w' !! ffmpeg r = children w !! ffmpeg r.

(** POST /stop-recording for [pid], or a close signal of producer
    [pid]. *)
Definition stops (pid : string) (ev : Event) : Prop :=
  match ev with
  | StopRequest pid' _ | ProducerSignal pid' _ _ => pid' = pid
  | _ => False
  end.

(** The handles of [w'] come from those of [w]: every owner keeps or
    drops what it holds, except that one owner may take objects created
    since [w], or what another owner gives up. *)
Definition handover (cfg : Config) (w w' : World) : Prop :=
  ∃ o1 o2,
    (∀ o pid r, claimed_session w' o = Some (pid, r) →
       claimed_session w o = Some (pid, r)
       ∨ (o = o2 ∧ (length (consumers w) ≤ consumer r)%nat
          ∧ (length (children w) ≤ ffmpeg r)%nat
          ∧ session_ok cfg w' pid r)
       ∨ (o = o2 ∧ claimed_session w o1 = Some (pid, r)
          ∧ claimed_session w' o1 = None))
    ∧ (∀ o t, held_transport w' o = Some t →
         held_transport w o = Some t
         ∨ (o = o2 ∧ (length (plainTransports w) ≤ t)%nat
            ∧ (t < length (plainTransports w'))%nat)
         ∨ (o = o2 ∧ held_transport w o1 = Some t
            ∧ held_transport w' o1 = None)).

(** The invocation waits for a request to mediasoup or to the system
    that can be rejected (server.js:129, 132, 137, 148, 202); the other
    awaits are the timer and the close of the transport. *)
Definition awaits_request (k : StartTask) : bool :=
  match k with
  | AwaitPort _ | AwaitCreateTransport _ _ | AwaitConnect _ _ _
  | AwaitConsume _ _ _ | AwaitResume _ _ => true
  | AwaitCloseTransport | AwaitTimer _ _ _ | Returned => false
  end.

(** ** Dates and file names *)

(** The ranges of the getters of a JS [Date]. *)
Definition is_date (d : Date) : Prop :=
  (getMonth d < 12)%nat ∧ (1 ≤ getDate d ≤ 31)%nat ∧ (getHours d < 24)%nat
  ∧ (getMinutes d < 60)%nat ∧ (getSeconds d < 60)%nat.

(** The decimal digit [k] as a character, and a number below 100 in two
    digits. *)
Definition digit (k : nat) : ascii := ascii_of_nat (48 + k).

Definition two_digits (n : nat) : string :=
  String (digit (n / 10)) (String (digit (n mod 10)) EmptyString).

(** [s.toLowerCase()] on the letters A to Z. *)
Fixpoint toLowerCase (s : string) : string :=
  match s with
  | EmptyString => EmptyString
  | String c s' => String (lower c) (toLowerCase s')
  end.

(** ** Configuration from the environment (server.js:19-26) *)

(** [process.env.X || dflt]: the default also replaces an empty value. *)
Definition or_default (v : option string) (dflt : string) : string :=
  match v with
  | Some (String c s) => String c s
  | _ => dflt
  end.

(** [/^(1|true)$/i.test(s)] *)
Definition is_1_or_true (s : string) : bool :=
  match s with
  | String a EmptyString => Ascii.eqb a "1"%char
  | String a (String b (String c (String d EmptyString))) =>
      Ascii.eqb (lower a) "t"%char && Ascii.eqb (lower b) "r"%char
      && Ascii.eqb (lower c) "u"%char && Ascii.eqb (lower d) "e"%char
  | _ => false
  end.

(** The constants of server.js:19-26 for the environment [env]
    ([process.env]).  [toLowerCase] is applied to a value that is only
    compared with ['mp3']. *)
Definition load_config (env : gmap string string) : Config :=
  let RECORD_FORMAT :=
    toLowerCase (or_default (env !! "RECORD_FORMAT") "ogg") in
  {| RECORD_DIR := or_default (env !! "RECORD_DIR") "/recordings";
     POST_CONVERT_MP3 :=
       is_1_or_true (or_default (env !! "POST_CONVERT_MP3") EmptyString)
       || String.eqb RECORD_FORMAT "mp3";
     RECORD_BITRATE := or_default (env !! "RECORD_BITRATE") "160k";
     KEEP_OGG := is_1_or_true (or_default (env !! "KEEP_OGG") "true") |}.

(** ** Runs as the HTTP API produces them *)

(** The producers that POST /produce has created, in order. *)
Fixpoint produced (evs : list Event) : list Producer :=
  match evs with
  | [] => []
  | Produce p :: evs' => p :: produced evs'
  | _ :: evs' => produced evs'
  end.

(** startRecordingForProducer is called from POST /produce only
    (server.js:298), once for the producer just created; mediasoup gives
    every producer an identifier of its own. *)
Definition api_run (evs : list Event) : Prop :=
  Forall (λ ev, match ev with Start _ => False | _ => True end) evs
  ∧ NoDup (producerId <$> produced evs).

(** The entries of the trace that record the creation of a consumer for
    producer [pid], and the registration of a session for [pid]. *)
Definition is_consume_for (pid : string) (en : Entry) : bool :=
  match act en with
  | Consume _ _ pid' => String.eqb pid' pid
  | _ => false
  end.

Definition is_registration_of (pid : string) (en : Entry) : bool :=
  match act en with
  | RegistrySet pid' => String.eqb pid' pid
  | _ => false
  end.

(** The producer an invocation works for, while it runs. *)
Definition task_producer (k : StartTask) : option Producer :=
  match k with
  | AwaitPort p | AwaitCreateTransport p _ | AwaitConnect p _ _
  | AwaitConsume p _ _ | AwaitTimer p _ _ | AwaitResume p _ => Some p
  | AwaitCloseTransport | Returned => None
  end.

(** The invocation is past the creation of its consumer. *)
Definition past_consume (k : StartTask) : bool :=
  match k with
  | AwaitTimer _ _ _ | AwaitResume _ _ | Returned => true
  | _ => false
  end.

(** Every invocation works for the producer POST /produce called it
    for; the consumers and registrations of the trace are those of
    invocations that are past that step. *)
Definition started_for (prods : list Producer) (w : World) : Prop :=
  length (pending w) = length prods
  ∧ (∀ tid k p, pending w !! tid = Some k → task_producer k = Some p →
       prods !! tid = Some p)
  ∧ Forall
      (λ en, match act en with
             | Consume _ _ pid =>
                 ∃ tid p k, by_whom en = Task tid ∧ prods !! tid = Some p
                   ∧ producerId p = pid ∧ pending w !! tid = Some k
                   ∧ past_consume k = true
             | RegistrySet pid =>
                 ∃ tid p, by_whom en = Task tid ∧ prods !! tid = Some p
                   ∧ producerId p = pid ∧ pending w !! tid = Some Returned
             | _ => True
             end) (trace w)
  ∧ ∀ pid, (length (List.filter (is_consume_for pid) (trace w)) ≤ 1)%nat
           ∧ (length (List.filter (is_registration_of pid) (trace w)) ≤ 1)%nat.

(** ** The HTTP API (server.js:239-327)

    A handler is a function of the state of the server and of what the
    outside world decides: the fields of the request body, how the
    awaited mediasoup request settles, the identifiers mediasoup and
    [uuidv4] generate.  The state is the world of the recording pipeline
    together with the [transports] map (server.js:36).  Of
    [req.body || {}] the handlers read fields that are absent or hold a
    string; fields of other JSON types are not modelled. *)

Record ReqBody := {
  req_transportId : option string;
  req_kind : option string;
  req_peerId : option string;
  req_producerId : option string
}.

(** A WebRTC transport of [transports], with its [appData.peerId]. *)
Record WebRtcTransport := { appPeerId : string }.

Record Server := {
  world : World;
  transports : gmap string WebRtcTransport
}.

Inductive Body :=
| ErrorBody (error : string)
| TransportBody (id : string)
| ConnectedBody
| ProducerBody (id : string)
| ProducersBody (list : list (string * option string * option string))
| OkBody
| CapabilitiesBody.

(** [res.status(status).json(body)]; [res.json] answers with 200. *)
Record Response := { status : nat; body : Body }.

(** How an awaited promise settles. *)
Inductive Settled (A : Type) :=
| Resolved (a : A)
| Rejected (message : string).
Arguments Resolved {A} a.
Arguments Rejected {A} message.

Inductive DtlsState :=
| dtls_new | dtls_connecting | dtls_connected | dtls_failed | dtls_closed.

(** [transports.get(transportId)] *)
Definition find_transport (req : ReqBody) (s : Server)
    : option WebRtcTransport :=
  req_transportId req ≫= λ id, transports s !! id.

(** POST /create-transport (server.js:241-272); [uuid] is what [uuidv4()]
    returns, [outcome] the identifier of the transport that
    [router.createWebRtcTransport] resolves with. *)
Definition create_transport (req : ReqBody) (uuid : string)
    (outcome : Settled string) (s : Server) : Server * Response :=
  let peerId := or_default (req_peerId req) uuid in
  match outcome with
  | Resolved id =>
      ({| world := world s;
          transports := <[id := {| appPeerId := peerId |}]> (transports s) |},
       {| status := 200; body := TransportBody id |})
  | Rejected message => (s, {| status := 500; body := ErrorBody message |})
  end.

(** The ['dtlsstatechange'] listener of the transport [id]
    (server.js:255-260). *)
Definition dtls_state_change (id : string) (state : DtlsState) (s : Server)
    : Server :=
  match state with
  | dtls_closed | dtls_failed =>
      {| world := world s; transports := delete id (transports s) |}
  | _ => s
  end.

(** POST /connect-transport (server.js:274-280): the answer, if the
    handler gives one; a rejection of [transport.connect] is not caught. *)
Definition connect_transport (req : ReqBody) (outcome : Settled unit)
    (s : Server) : option Response :=
  match find_transport req s with
  | None => Some {| status := 404; body := ErrorBody "transport not found" |}
  | Some _ =>
      match outcome with
      | Resolved _ => Some {| status := 200; body := ConnectedBody |}
      | Rejected _ => None
      end
  end.

(** POST /produce (server.js:282-309): the checks made when the request
    arrives, with the answer when one of them fails. *)
Definition produce_checks (req : ReqBody) (s : Server) : option Response :=
  match find_transport req s with
  | None => Some {| status := 404; body := ErrorBody "transport not found" |}
  | Some _ =>
      if decide (req_kind req = Some "audio") then None
      else Some {| status := 400; body := ErrorBody "only audio supported" |}
  end.

Section Api.

Variable cfg : Config.

(** POST /produce once [transport.produce] has settled; [outcome] is the
    identifier of the new producer. *)
Definition produce_settled (req : ReqBody) (outcome : Settled string)
    (s : Server) : Server * Response :=
  match outcome with
  | Resolved id =>
      let producer := {| producerId := id; peerId := req_peerId req |} in
      ({| world := step cfg (Produce producer) (world s);
          transports := transports s |},
       {| status := 200; body := ProducerBody id |})
  | Rejected message => (s, {| status := 500; body := ErrorBody message |})
  end.

(** POST /stop-recording (server.js:322-327) *)
Definition stop_recording (req : ReqBody) (e : Env) (s : Server)
    : Server * Response :=
  match req_producerId req with
  | Some (String c pid) =>
      ({| world := step cfg (StopRequest (String c pid) e) (world s);
          transports := transports s |},
       {| status := 200; body := OkBody |})
  | _ => (s, {| status := 400; body := ErrorBody "producerId required" |})
  end.

(** GET /producers (server.js:311-320) *)
Definition get_producers (s : Server) : Response :=
  {| status := 200; body := ProducersBody (list_producers (world s)) |}.

(** A request with what the outside world decides for it. *)
Inductive Request :=
| GetRtpCapabilities
| PostCreateTransport (req : ReqBody) (uuid : string)
    (outcome : Settled string)
| PostConnectTransport (req : ReqBody) (outcome : Settled unit)
| PostProduce (req : ReqBody) (outcome : Settled string)
| GetProducers
| PostStopRecording (req : ReqBody) (e : Env).

(** The handler of a request, from its arrival to its answer.  For POST
    /produce the checks are made on arrival and the rest runs when
    [transport.produce] has settled; the handler does not read the state
    again in between. *)
Definition handle (r : Request) (s : Server) : Server * option Response :=
  match r with
  | GetRtpCapabilities =>
      (s, Some {| status := 200; body := CapabilitiesBody |})
  | PostCreateTransport req uuid outcome =>
      let '(s', res) := create_transport req uuid outcome s in (s', Some res)
  | PostConnectTransport req outcome => (s, connect_transport req outcome s)
  | PostProduce req outcome =>
      match produce_checks req s with
      | Some res => (s, Some res)
      | None =>
          let '(s', res) := produce_settled req outcome s in (s', Some res)
      end
  | GetProducers => (s, Some (get_producers s))
  | PostStopRecording req e =>
      let '(s', res) := stop_recording req e s in (s', Some res)
  end.

End Api.

(** What happens next to the server: a request is handled, a WebRTC
    transport changes its DTLS state, or the recording pipeline takes a
    step. *)
Inductive ApiEvent :=
| Http (r : Request)
| Dtls (id : string) (state : DtlsState)
| Pipeline (ev : Event).

Definition api_step (cfg : Config) (a : ApiEvent) (s : Server) : Server :=
  match a with
  | Http r => fst (handle cfg r s)
  | Dtls id state => dtls_state_change id state s
  | Pipeline ev => {| world := step cfg ev (world s);
                      transports := transports s |}
  end.

Definition api_steps (cfg : Config) (evs : list ApiEvent) (s : Server)
    : Server :=
  foldl (λ s a, api_step cfg a s) s evs.

(** The transport [id] is reported closed or failed. *)
Definition ends_transport (id : string) (a : ApiEvent) : Prop :=
  match a with
  | Dtls id' (dtls_closed | dtls_failed) => id' = id
  | _ => False
  end.

(** POST /create-transport creates a transport with identifier [id]. *)
Definition creates_transport (id : string) (a : ApiEvent) : Prop :=
  match a with
  | Http (PostCreateTransport _ _ (Resolved id')) => id' = id
  | _ => False
  end.

(** ** Concrete scenarios *)

Module Scenario.

(** Post-conversion on, 160k, raw file not kept. *)
Definition cfg : Config :=
  {| RECORD_DIR := "/recordings"; POST_CONVERT_MP3 := true;
     RECORD_BITRATE := "160k"; KEEP_OGG := false |}.

Definition day : Date :=
  {| getFullYear := 2024; getMonth := 0; getDate := 5;
     getHours := 13; getMinutes := 7; getSeconds := 9 |}.

(** Every request succeeds. *)
Definition fine : Env :=
  {| rejects := false; freePort := 4002; canConsume := true;
     payloadType := 100; ssrc := 1234; date := day;
     writeThrows := false; spawnThrows := false;
     consumerCloseThrows := false; transportCloseThrows := false;
     killThrows := false |}.

(** The router cannot consume the producer. *)
Definition refused : Env :=
  {| rejects := false; freePort := 4002; canConsume := false;
     payloadType := 100; ssrc := 1234; date := day;
     writeThrows := false; spawnThrows := false;
     consumerCloseThrows := false; transportCloseThrows := false;
     killThrows := false |}.

(** The awaited request is rejected. *)
Definition rejecting : Env :=
  {| rejects := true; freePort := 4002; canConsume := true;
     payloadType := 100; ssrc := 1234; date := day;
     writeThrows := false; spawnThrows := false;
     consumerCloseThrows := false; transportCloseThrows := false;
     killThrows := false |}.

Definition P1 : Producer := {| producerId := "P1"; peerId := Some "alice" |}.
Definition P2 : Producer := {| producerId := "P2"; peerId := Some "bob" |}.
Definition P3 : Producer := {| producerId := "P3"; peerId := None |}.
Definition P4 : Producer := {| producerId := "P4"; peerId := Some "dave" |}.

(** A session is recording for [p]: the server took the producer and the
    start ran to its end. *)
Definition recording (c : Config) (p : Producer) : World :=
  run c (Produce p :: settle_all 0 fine) boot.

(** The recorder of the session of [p], as it was spawned. *)
Definition recorder_of (c : Config) (p : Producer) : Child :=
  {| argv := recorder_args (sdp_path c day p) (ogg_path c day p);
     onExit := OnRecorderExit (ogg_path c day p) (sdp_path c day p);
     killed := false; exited := None |}.

(** The session of [p] in the registry. *)
Definition session_of (c : Config) (p : Producer) : Rec :=
  {| ffmpeg := 0; consumer := 0; transport := 0;
     file := ogg_path c day p; sdpFile := sdp_path c day p |}.

(** The session of [p] is recording and its raw file has [size] bytes. *)
Definition captured (c : Config) (p : Producer) (size : Z) : World :=
  step c (ExternalWrite (ogg_path c day p) size) (recording c p).

(** Two calls of startRecordingForProducer for P4 whose steps
    alternate. *)
Definition two_starts : list Event :=
  [ Start P4; Start P4;
    Settle 0 fine; Settle 1 fine; Settle 0 fine; Settle 1 fine;
    Settle 0 fine; Settle 1 fine; Settle 0 fine; Settle 1 fine;
    Tick SETTLE_MS;
    Settle 0 fine; Settle 1 fine; Settle 0 fine; Settle 1 fine ].

End Scenario.

(** ** Further scenarios *)

Module Examples.

Import Scenario.

(** Sessions are recording for P1 and for P2. *)
Definition two_sessions : list Event :=
  Produce P1 :: settle_all 0 fine ++ Produce P2 :: settle_all 1 fine.

Definition first_session : Rec := session_of cfg P1.

Definition second_session : Rec :=
  {| ffmpeg := 1; consumer := 1; transport := 1;
     file := ogg_path cfg day P2; sdpFile := sdp_path cfg day P2 |}.

(** The start for P1 has reached [consumer.resume()]. *)
Definition resuming : list Event :=
  Produce P1 :: settles 4 0 fine ++ [Tick SETTLE_MS; Settle 0 fine].

(** A session is registered for P4, and a second start for P4 has
    reached [consumer.resume()]. *)
Definition second_resuming : list Event :=
  Start P4 :: settle_all 0 fine
  ++ Start P4 :: settles 4 1 fine ++ [Tick SETTLE_MS; Settle 1 fine].

Definition second_session_P4 : Rec :=
  {| ffmpeg := 1; consumer := 1; transport := 1;
     file := ogg_path cfg day P4; sdpFile := sdp_path cfg day P4 |}.



(** The server before any request. *)
Definition idle : Server := {| world := boot; transports := ∅ |}.

(** POST /create-transport has created transport T1 for alice. *)
Definition alice_connects : ReqBody :=
  {| req_transportId := None; req_kind := None;
     req_peerId := Some "alice"; req_producerId := None |}.

Definition with_T1 : Server :=
  fst (create_transport alice_connects "uuid-1" (Resolved "T1") idle).

(** The body of POST /produce for an audio track on T1; it names no
    peer. *)
Definition audio_on_T1 : ReqBody :=
  {| req_transportId := Some "T1"; req_kind := Some "audio";
     req_peerId := None; req_producerId := None |}.

(** The environment the Dockerfile sets (Dockerfile:24-28). *)
Definition docker_env : gmap string string :=
  <["PORT" := "3000"]>
    (<["RTP_PORT" := "40000"]> (<["RECORD_DIR" := "/recordings"]> ∅)).

End Examples.

(** * Properties *)

(** ** Stopping *)

Lemma same_but_producers_trans (w1 w2 w3 : World) :
  same_but_producers w1 w2 → same_but_producers w2 w3 →
  same_but_producers w1 w3.
Proof. unfold same_but_producers. congruence. Qed.

Lemma same_but_producers_set (v : gmap string Producer) (w : World) :
  same_but_producers (with_producers v w) w.
Proof. done. Qed.

Lemma same_but_producers_inv (w1 w2 : World) :
  same_but_producers w1 w2 → w1 = with_producers (producers w1) w2.
Proof.
  unfold same_but_producers. destruct w1, w2. cbn. intros [=]. by subst.
Qed.

Lemma same_but_producers_recordings (w1 w2 : World) :
  same_but_producers w1 w2 → recordings w1 = recordings w2.
Proof. intros H. by rewrite (same_but_producers_inv _ _ H). Qed.

Lemma stop_absent who e pid w :
  recordings w !! pid = None →
  stopRecordingForProducer who e pid w = (Normal, w).
Proof. unfold stopRecordingForProducer. by intros ->. Qed.


(** What a stop leaves alone, and what it does to the registry. *)
Lemma stop_frame who e pid w :
  let w' := snd (stopRecordingForProducer who e pid w) in
  recordings w' = delete pid (recordings w) ∧ now w' = now w
  ∧ producers w' = producers w ∧ files w' = files w
  ∧ listeners w' = listeners w ∧ pending w' = pending w.
Proof.
  unfold stopRecordingForProducer.
  destruct (recordings w !! pid) as [rec|] eqn:Hrec; cbn.
  - unfold and_then, try_catch, perform, consumer_close, transport_close,
      child_kill, throw.
    destruct (consumerCloseThrows e), (transportCloseThrows e); cbn;
      match goal with |- context [child_killed ?w' ?p] =>
        destruct (child_killed w' p) end; cbn;
      destruct (killThrows e); cbn; done.
  - by rewrite delete_id.
Qed.

Lemma stop_recordings who e pid w :
  recordings (snd (stopRecordingForProducer who e pid w)) !! pid = None.
Proof.
  destruct (stop_frame who e pid w) as [-> _]. apply lookup_delete_eq.
Qed.

(** A stop neither reads nor writes the [producers] map. *)
Lemma stop_with_producers who e pid v w :
  snd (stopRecordingForProducer who e pid (with_producers v w))
  = with_producers v (snd (stopRecordingForProducer who e pid w)).
Proof.
  unfold stopRecordingForProducer. cbn.
  destruct (recordings w !! pid) as [rec|]; cbn; [|done].
  unfold and_then, try_catch, perform, consumer_close, transport_close,
    child_kill, throw.
  destruct (consumerCloseThrows e), (transportCloseThrows e); cbn;
    unfold child_killed; cbn;
    destruct (from_option killed false (children w !! ffmpeg rec)); cbn;
    destruct (killThrows e); cbn; done.
Qed.

Lemma stop_same_but_producers who e pid w1 w2 :
  same_but_producers w1 w2 →
  same_but_producers (snd (stopRecordingForProducer who e pid w1))
                     (snd (stopRecordingForProducer who e pid w2)).
Proof.
  intros H. rewrite (same_but_producers_inv _ _ H), stop_with_producers.
  apply same_but_producers_set.
Qed.

(** ** Close signals *)

Lemma run_listener_stopped e pid l w :
  recordings w !! pid = None →
  same_but_producers (run_listener e pid l w) w.
Proof.
  intros H. destruct l; cbn.
  - apply same_but_producers_set.
  - by rewrite stop_absent.
Qed.

(** Once the session is gone, the listeners change nothing but
    [producers]. *)
Lemma dispatch_stopped e pid s regs w :
  recordings w !! pid = None →
  same_but_producers (dispatch e pid s regs w) w.
Proof.
  revert w. induction regs as [|[[pid' s'] l] regs IH]; intros w Hw; [done|].
  cbn. destruct (bool_decide (pid' = pid) && bool_decide (s' = s)).
  - pose proof (run_listener_stopped e pid l w Hw) as Hl.
    eapply same_but_producers_trans; [|exact Hl].
    apply IH. by rewrite (same_but_producers_recordings _ _ Hl).
  - by apply IH.
Qed.

(** With a [Cleanup] listener registered for the signal, the dispatch
    amounts to one stop. *)
Lemma dispatch_cleanup e pid s regs w w0 :
  (pid, s, Cleanup) ∈ regs →
  same_but_producers w w0 →
  same_but_producers (dispatch e pid s regs w)
                     (snd (stopRecordingForProducer Handler e pid w0)).
Proof.
  revert w. induction regs as [|[[pid' s'] l] regs IH]; intros w Hin Hw.
  { by apply elem_of_nil in Hin. }
  cbn. destruct (bool_decide (pid' = pid) && bool_decide (s' = s)) eqn:Hm.
  - destruct l; cbn.
    + (* producers.delete: the Cleanup listener comes later *)
      apply elem_of_cons in Hin as [[=]|Hin].
      apply IH; [done|].
      eapply same_but_producers_trans; [apply same_but_producers_set|done].
    + (* the first Cleanup stops; the others find no session *)
      eapply same_but_producers_trans.
      * apply dispatch_stopped, stop_recordings.
      * by apply stop_same_but_producers.
  - apply elem_of_cons in Hin as [[= <- <-]|Hin]; [|by apply IH].
    by rewrite !bool_decide_eq_true_2 in Hm.
Qed.


(** ** Classification of the recorder's exit *)

Lemma recorder_ok_spec code signal hasData :
  recorder_ok code signal hasData = true ↔
  code = Some 0%Z ∨ code = Some 255%Z ∨ signal = Some "SIGINT"
  ∨ hasData = true.
Proof.
  unfold recorder_ok.
  rewrite !orb_true_iff, !bool_decide_eq_true. tauto.
Qed.

Lemma has_data_spec w outFile :
  has_data w outFile = true ↔
  ∃ f, files w !! outFile = Some f ∧ (8192 < file_size f)%Z.
Proof.
  unfold has_data. destruct (files w !! outFile) as [f|].
  - rewrite Z.ltb_lt. split; [eauto|]. by intros (f' & [= <-] & H).
  - split; [done|]. by intros (f' & [=] & _).
Qed.

(** C4. The recorder's exit is classified usable ([ok] of server.js:186)
    when the exit code is 0, or the process was ended by SIGINT, the signal
    [stopRecordingForProducer] sends, or the output file is larger than
    8192 bytes; with such an exit and post-conversion enabled the exit
    listener goes on to [convertOggToMp3]. *)
Theorem C4_usable_exit cfg who e w outFile sdp code signal :
  code = Some 0%Z ∨ signal = Some "SIGINT"
  ∨ (∃ f, files w !! outFile = Some f ∧ (8192 < file_size f)%Z) →
  recorder_ok code signal (has_data w outFile) = true
  ∧ (POST_CONVERT_MP3 cfg = true →
     recorder_exited cfg who e outFile sdp code signal w
     = match convertOggToMp3 who e outFile (RECORD_BITRATE cfg) sdp w with
       | (Normal, w') => w'
       | (Thrown, w') =>
           snd (try_catch (unlinkSync who sdp) (emit who LogError w'))
       end).
Proof.
  intros H.
  assert (Hok : recorder_ok code signal (has_data w outFile) = true).
  { apply recorder_ok_spec. rewrite has_data_spec. tauto. }
  split; [done|]. intros Hpost.
  unfold recorder_exited. by rewrite Hpost, Hok.
Qed.

(** ** Stop is idempotent *)


(** ** Running an invocation of startRecordingForProducer *)

Lemma resume_start_pending cfg tid e k w :
  pending (snd (resume_start cfg tid e k w)) = pending w.
Proof.
  destruct k; cbn; unfold caught, transport_close, throw, perform;
    repeat (match goal with
            | |- context [if ?b then _ else _] => destruct b; cbn
            end); done.
Qed.

Lemma step_start cfg p w :
  step cfg (Start p) w
  = with_pending (pending w ++ [AwaitPort p])
      (emit (Task (length (pending w))) ProbePort w).
Proof. done. Qed.

(** Settling the promise of the youngest invocation. *)
Lemma step_settle cfg e k (l : list StartTask) w :
  pending w = l ++ [k] →
  step cfg (Settle (length l) e) w
  = with_pending (l ++ [fst (resume_start cfg (length l) e k w)])
      (snd (resume_start cfg (length l) e k w)).
Proof.
  intros Hp. cbn. rewrite Hp, list_lookup_middle by done.
  pose proof (resume_start_pending cfg (length l) e k w) as Hq.
  destruct (resume_start cfg (length l) e k w) as [k' w']. cbn in *.
  rewrite Hq, Hp.
  replace (length l) with (length l + 0) at 1 by lia.
  by rewrite insert_app_r.
Qed.

Lemma run_cons cfg ev evs w :
  run cfg (ev :: evs) w = run cfg evs (step cfg ev w).
Proof. done. Qed.

Lemma alter_last {A} (f : A → A) (l : list A) (x : A) :
  alter f (length l) (l ++ [x]) = l ++ [f x].
Proof.
  replace (length l) with (length l + 0) by lia. by rewrite alter_app_r.
Qed.

(** Read a field of a world built with the setters. *)
Ltac read_world :=
  cbn [now producers recordings plainTransports consumers children files
       listeners pending trace with_now with_producers with_recordings
       with_plainTransports with_consumers with_children with_files
       with_listeners with_pending with_trace emit spawn fst snd
       length app].

(** The segments of startRecordingForProducer when nothing fails. *)

Lemma resume_port_ok cfg tid e p w :
  rejects e = false →
  resume_start cfg tid e (AwaitPort p) w
  = (AwaitCreateTransport p (freePort e), w).
Proof. intros H. cbn. by rewrite H. Qed.

Lemma resume_create_ok cfg tid e p port w :
  rejects e = false →
  resume_start cfg tid e (AwaitCreateTransport p port) w
  = (AwaitConnect p port (length (plainTransports w)),
     emit (Task tid) (CreatePlainTransport (length (plainTransports w)))
       (with_plainTransports
          (plainTransports w
           ++ [{| remotePort := None; transportClosed := false |}]) w)).
Proof. intros H. cbn. by rewrite H. Qed.

Lemma resume_connect_ok cfg tid e p port t w :
  rejects e = false → canConsume e = true →
  resume_start cfg tid e (AwaitConnect p port t) w
  = (AwaitConsume p port t, connected tid port t w).
Proof. intros H1 H2. cbn. by rewrite H1, H2. Qed.

Lemma resume_connect_refused cfg tid e p port t w :
  rejects e = false → canConsume e = false →
  resume_start cfg tid e (AwaitConnect p port t) w
  = match transport_close (Task tid) e t (connected tid port t w) with
    | (Normal, w') => (AwaitCloseTransport, w')
    | (Thrown, w') => caught tid w'
    end.
Proof. intros H1 H2. cbn. by rewrite H1, H2. Qed.

Lemma resume_consume_ok cfg tid e p port t w :
  rejects e = false → writeThrows e = false → spawnThrows e = false →
  resume_start cfg tid e (AwaitConsume p port t) w
  = let sdp := sdp_path cfg (date e) p in
    let out := ogg_path cfg (date e) p in
    let w1 :=
      emit (Task tid) (Consume t (length (consumers w)) (producerId p))
        (with_consumers
           (consumers w ++
              [{| onTransport := t; ofProducer := producerId p;
                  consumerPaused := true; consumerClosed := false |}]) w) in
    let w2 :=
      emit (Task tid) (WriteFile sdp)
        (with_files
           (<[sdp := Text (buildOpusSdp localIp port (payloadType e)
                             (ssrc e))]> (files w1)) w1) in
    let w3 :=
      emit (Task tid) (SetTimeout SETTLE_MS)
        (spawn (Task tid) (recorder_args sdp out) (OnRecorderExit out sdp)
           w2) in
    (AwaitTimer p (now w + SETTLE_MS)
       {| ffmpeg := length (children w); consumer := length (consumers w);
          transport := t; file := out; sdpFile := sdp |}, w3).
Proof.
  intros Hrej Hwrite Hspawn. unfold resume_start.
  rewrite Hrej, Hwrite, Hspawn. reflexivity.
Qed.

Lemma resume_timer_due cfg tid e p (due : nat) r w :
  (due ≤ now w)%nat →
  resume_start cfg tid e (AwaitTimer p due r) w
  = (AwaitResume p r, emit (Task tid) (ResumeConsumer (consumer r)) w).
Proof.
  intros H. unfold resume_start.
  destruct (Nat.ltb_spec (now w) due); [lia|done].
Qed.

Lemma resume_resumed_ok cfg tid e p r w :
  rejects e = false →
  resume_start cfg tid e (AwaitResume p r) w
  = let pid := producerId p in
    let w1 := with_consumers (alter resumeC (consumer r) (consumers w)) w in
    let w2 :=
      emit (Task tid) (RegistrySet pid)
        (with_recordings (<[pid := r]> (recordings w1)) w1) in
    let w3 :=
      emit (Task tid) (AddListener pid transportclose Cleanup)
        (with_listeners (listeners w2 ++ [(pid, transportclose, Cleanup)])
           w2) in
    (Returned,
     emit (Task tid) (AddListener pid producerclose Cleanup)
       (with_listeners (listeners w3 ++ [(pid, producerclose, Cleanup)]) w3)).
Proof. intros H. unfold resume_start. rewrite H. reflexivity. Qed.

Ltac settle_with lem :=
  rewrite run_cons;
  erewrite step_settle by (read_world; reflexivity);
  rewrite lem by (read_world; first [done | lia]);
  read_world.

(** ** The capability check *)

(** C5 (as the code has it). When [router.canConsume] says no, the plain
    transport that was created and connected before the check is closed
    and the function returns: no consumer is created, no file is written,
    no process is spawned, no listener is added and the registry is left
    as it was. *)
Theorem C5_check_fails_after_transport cfg p e w :
  rejects e = false → canConsume e = false →
  let tid := length (pending w) in
  let w' := run cfg (Start p :: settles 4 tid e) w in
  pending w' = pending w ++ [Returned]
  ∧ consumers w' = consumers w
  ∧ files w' = files w
  ∧ children w' = children w
  ∧ recordings w' = recordings w
  ∧ listeners w' = listeners w
  ∧ (transportCloseThrows e = false →
     plainTransports w'
     = plainTransports w
       ++ [{| remotePort := Some (freePort e); transportClosed := true |}]).
Proof.
  intros Hrej Hcan. cbn zeta. unfold settles. cbn [replicate].
  rewrite run_cons, step_start.
  settle_with resume_port_ok.
  settle_with resume_create_ok.
  settle_with resume_connect_refused.
  unfold transport_close, connected, throw, perform, caught.
  destruct (transportCloseThrows e) eqn:Hthrow; read_world.
  - rewrite run_cons.
    erewrite step_settle by (read_world; reflexivity).
    cbn [resume_start run]. read_world. by repeat split.
  - rewrite run_cons.
    erewrite step_settle by (read_world; reflexivity).
    cbn [resume_start run]. read_world. repeat split; try done.
    intros _. by rewrite !alter_last.
Qed.

(** ** Starting twice *)

(** C1 (as the code has it). startRecordingForProducer never reads the
    registry.  Whatever the registry holds, an invocation whose requests
    all succeed creates one more plain transport, one more consumer, one
    more recorder process, writes the descriptor, adds its two Cleanup
    listeners, and sets the registry entry of the producer to the new
    session, replacing the entry that was there. *)
Theorem C1_start_allocates_every_time cfg p e w :
  rejects e = false → canConsume e = true →
  writeThrows e = false → spawnThrows e = false →
  let tid := length (pending w) in
  let w' := run cfg (Start p :: settle_all tid e) w in
  let sdp := sdp_path cfg (date e) p in
  let out := ogg_path cfg (date e) p in
  recordings w'
  = <[producerId p :=
        {| ffmpeg := length (children w); consumer := length (consumers w);
           transport := length (plainTransports w);
           file := out; sdpFile := sdp |}]> (recordings w)
  ∧ plainTransports w'
    = plainTransports w
      ++ [{| remotePort := Some (freePort e); transportClosed := false |}]
  ∧ consumers w'
    = consumers w
      ++ [{| onTransport := length (plainTransports w);
             ofProducer := producerId p;
             consumerPaused := false; consumerClosed := false |}]
  ∧ children w'
    = children w
      ++ [{| argv := recorder_args sdp out; onExit := OnRecorderExit out sdp;
             killed := false; exited := None |}]
  ∧ files w'
    = <[sdp := Text (buildOpusSdp localIp (freePort e) (payloadType e)
                       (ssrc e))]> (files w)
  ∧ listeners w'
    = listeners w ++ [(producerId p, transportclose, Cleanup);
                      (producerId p, producerclose, Cleanup)]
  ∧ pending w' = pending w ++ [Returned].
Proof.
  intros Hrej Hcan Hwrite Hspawn. cbn zeta.
  unfold settle_all, settles. cbn [replicate app].
  rewrite run_cons, step_start.
  settle_with resume_port_ok.
  settle_with resume_create_ok.
  settle_with resume_connect_ok. unfold connected.
  settle_with resume_consume_ok. cbn zeta. read_world.
  rewrite run_cons. cbn [step]. read_world.
  settle_with resume_timer_due.
  settle_with resume_resumed_ok. cbn zeta. cbn [run consumer]. read_world.
  rewrite !alter_last, <- app_assoc.
  repeat split; reflexivity.
Qed.

(** ** The exit listeners *)

Lemma deliver_exited ch : exited (deliver ch) = exited ch.
Proof. unfold deliver. by destruct (exited ch) eqn:H. Qed.

Lemma unlink_removes who path w :
  files (snd (try_catch (unlinkSync who path) w)) = delete path (files w).
Proof.
  unfold try_catch, unlinkSync. cbn.
  destruct (files w !! path) eqn:H; cbn; [done|]. by rewrite delete_id.
Qed.

(** What removing a file leaves alone. *)
Lemma unlink_frame who path w :
  let w' := snd (try_catch (unlinkSync who path) w) in
  recordings w' = recordings w ∧ children w' = children w
  ∧ consumers w' = consumers w ∧ plainTransports w' = plainTransports w
  ∧ listeners w' = listeners w ∧ pending w' = pending w
  ∧ producers w' = producers w ∧ now w' = now w.
Proof.
  unfold try_catch, unlinkSync. cbn. by destruct (files w !! path).
Qed.

Lemma recorder_exited_recordings cfg who e out sdp code signal w :
  recordings (recorder_exited cfg who e out sdp code signal w) = recordings w.
Proof.
  unfold recorder_exited, convertOggToMp3, throw, perform.
  destruct (POST_CONVERT_MP3 cfg && _); [destruct (spawnThrows e)|].
  - by destruct (unlink_frame who sdp (emit who LogError w)) as [-> _].
  - done.
  - by destruct (unlink_frame who sdp w) as [-> _].
Qed.

Lemma transcoder_exited_recordings cfg who ogg mp3 sdp code w :
  recordings (transcoder_exited cfg who ogg mp3 sdp code w) = recordings w.
Proof.
  unfold transcoder_exited.
  destruct (bool_decide _ && _).
  - destruct (unlink_frame who sdp (snd (try_catch (unlinkSync who ogg) w)))
      as [-> _].
    by destruct (unlink_frame who ogg w) as [-> _].
  - by destruct (unlink_frame who sdp w) as [-> _].
Qed.

Lemma child_exit_recordings cfg proc code signal e w :
  recordings (step cfg (ChildExit proc code signal e) w) = recordings w.
Proof.
  unfold step. destruct (children w !! proc) as [ch|]; [|done].
  destruct (exited ch); [done|]. destruct (onExit ch).
  - by rewrite recorder_exited_recordings.
  - by rewrite transcoder_exited_recordings.
Qed.

(** ** Removal from the registry *)

(** C3 (as the code has it). A session leaves the registry in
    stopRecordingForProducer itself: after close was called on its
    consumer and on its plain transport and, unless a signal had been
    delivered before, SIGINT was sent to its recorder.  The recorder's
    exit is not waited for (its exit status is what it was before the
    stop), and no exit listener changes the registry. *)
Theorem C3_removed_by_stop cfg who e pid rec w :
  recordings w !! pid = Some rec →
  let w' := snd (stopRecordingForProducer who e pid w) in
  recordings w' = delete pid (recordings w)
  ∧ exited <$> children w' !! ffmpeg rec = exited <$> children w !! ffmpeg rec
  ∧ (consumerCloseThrows e = false → transportCloseThrows e = false →
     killThrows e = false →
     consumers w' = alter closeC (consumer rec) (consumers w)
     ∧ plainTransports w' = alter closeT (transport rec) (plainTransports w)
     ∧ children w'
       = (if child_killed w (ffmpeg rec) then children w
          else alter deliver (ffmpeg rec) (children w))
     ∧ trace w'
       = trace w
         ++ (logged who w
               <$> [CloseConsumer (consumer rec);
                    CloseTransport (transport rec)]
                   ++ (if child_killed w (ffmpeg rec) then []
                       else [Kill (ffmpeg rec) "SIGINT"])
                   ++ [RegistryDelete pid]))
  ∧ (∀ proc code signal e',
       recordings (step cfg (ChildExit proc code signal e') w)
       = recordings w).
Proof.
  intros Hrec. cbn zeta. split; [|split; [|split]].
  - by destruct (stop_frame who e pid w) as [-> _].
  - unfold stopRecordingForProducer. rewrite Hrec.
    unfold and_then, try_catch, perform, consumer_close, transport_close,
      child_kill, throw, child_killed.
    destruct (consumerCloseThrows e), (transportCloseThrows e); cbn;
      destruct (from_option killed false (children w !! ffmpeg rec)); cbn;
      try done; destruct (killThrows e); cbn; try done;
      rewrite list_lookup_alter_eq; destruct (children w !! ffmpeg rec);
      cbn; by rewrite ?deliver_exited.
  - intros Hc Ht Hk. unfold stopRecordingForProducer. rewrite Hrec.
    unfold and_then, try_catch, perform, consumer_close, transport_close,
      child_kill, throw, child_killed, logged.
    rewrite Hc, Ht, Hk. cbn.
    destruct (from_option killed false (children w !! ffmpeg rec)); cbn;
      rewrite <- ?app_assoc; done.
  - intros. apply child_exit_recordings.
Qed.

(** ** Children keep their listener *)

Lemma child_status_deliver ch : child_status (deliver ch) = child_status ch.
Proof.
  unfold child_status, deliver.
  destruct (exited ch) eqn:H; cbn; by rewrite ?H.
Qed.

Lemma alter_deliver_status i (l : list Child) proc :
  child_status <$> alter deliver i l !! proc = child_status <$> l !! proc.
Proof.
  rewrite list_lookup_alter. case_decide; [subst|done].
  destruct (l !! proc); cbn; by rewrite ?child_status_deliver.
Qed.

Lemma stop_child_status who e pid w proc :
  child_status <$> children (snd (stopRecordingForProducer who e pid w)) !! proc
  = child_status <$> children w !! proc.
Proof.
  unfold stopRecordingForProducer.
  destruct (recordings w !! pid) as [rec|]; [|done].
  unfold and_then, try_catch, perform, consumer_close, transport_close,
    child_kill, throw, child_killed.
  destruct (consumerCloseThrows e), (transportCloseThrows e); cbn;
    destruct (from_option killed false (children w !! ffmpeg rec)); cbn;
    try done; destruct (killThrows e); cbn; by rewrite ?alter_deliver_status.
Qed.

Lemma dispatch_cons e pid s pid' s' l regs w :
  dispatch e pid s ((pid', s', l) :: regs) w
  = dispatch e pid s regs
      (if bool_decide (pid' = pid) && bool_decide (s' = s)
       then run_listener e pid l w else w).
Proof. done. Qed.

Lemma dispatch_child_status e pid s regs w proc :
  child_status <$> children (dispatch e pid s regs w) !! proc
  = child_status <$> children w !! proc.
Proof.
  revert w. induction regs as [|[[pid' s'] l] regs IH]; intros w; [done|].
  rewrite dispatch_cons, IH.
  destruct (bool_decide (pid' = pid) && bool_decide (s' = s)); [|done].
  destruct l; cbn; [done|]. apply stop_child_status.
Qed.

Lemma resume_start_children cfg tid e k w proc ch :
  children w !! proc = Some ch →
  children (snd (resume_start cfg tid e k w)) !! proc = Some ch.
Proof.
  intros H. destruct k; cbn; unfold caught, transport_close, throw, perform;
    repeat (match goal with
            | |- context [if ?b then _ else _] => destruct b; cbn
            end); try done; by apply lookup_app_l_Some.
Qed.

Lemma recorder_exited_children cfg who e out sdp code signal w proc ch :
  children w !! proc = Some ch →
  children (recorder_exited cfg who e out sdp code signal w) !! proc = Some ch.
Proof.
  intros H. unfold recorder_exited, convertOggToMp3, throw, perform.
  destruct (POST_CONVERT_MP3 cfg && _); [destruct (spawnThrows e)|].
  - by destruct (unlink_frame who sdp (emit who LogError w)) as (_ & -> & _).
  - cbn. by apply lookup_app_l_Some.
  - by destruct (unlink_frame who sdp w) as (_ & -> & _).
Qed.

Lemma transcoder_exited_children cfg who ogg mp3 sdp code w :
  children (transcoder_exited cfg who ogg mp3 sdp code w) = children w.
Proof.
  unfold transcoder_exited.
  destruct (bool_decide _ && _).
  - destruct (unlink_frame who sdp (snd (try_catch (unlinkSync who ogg) w)))
      as (_ & -> & _).
    by destruct (unlink_frame who ogg w) as (_ & -> & _).
  - by destruct (unlink_frame who sdp w) as (_ & -> & _).
Qed.

(** No event but its own exit changes the command line, the exit
    listener or the exit status of a child. *)
Lemma step_keeps_child cfg ev w proc ch :
  not_exit_of proc ev →
  children w !! proc = Some ch →
  ∃ ch', children (step cfg ev w) !! proc = Some ch'
         ∧ child_status ch' = child_status ch.
Proof.
  intros Hev Hch.
  assert (Hsame : ∀ w', child_status <$> children w' !! proc
                        = child_status <$> children w !! proc →
                  ∃ ch', children w' !! proc = Some ch'
                         ∧ child_status ch' = child_status ch).
  { intros w'. rewrite Hch. cbn.
    destruct (children w' !! proc) as [ch'|]; [|done].
    intros H. exists ch'. split; [done|]. cbn in H. congruence. }
  destruct ev as [p|p|tid e|pid e|pid s e|proc' code signal e|path size|ms].
  - exists ch. by split.
  - exists ch. by split.
  - cbn. destruct (pending w !! tid) as [k|]; [|eauto].
    pose proof (resume_start_children cfg tid e k w proc ch Hch) as H.
    destruct (resume_start cfg tid e k w) as [k' w']. cbn in *. eauto.
  - cbn. destruct pid; [eauto|]. apply Hsame, stop_child_status.
  - apply Hsame. apply dispatch_child_status.
  - cbn in Hev. unfold step.
    destruct (children w !! proc') as [ch0|]; [|eauto].
    destruct (exited ch0); [eauto|].
    set (w0 := with_children _ w).
    assert (H0 : children w0 !! proc = Some ch).
    { subst w0. cbn. by rewrite list_lookup_alter_ne. }
    destruct (onExit ch0).
    + exists ch. split; [|done]. by apply recorder_exited_children.
    + exists ch. split; [|done]. by rewrite transcoder_exited_children.
  - exists ch. by split.
  - exists ch. by split.
Qed.

Lemma run_keeps_child cfg evs w proc ch :
  Forall (not_exit_of proc) evs →
  children w !! proc = Some ch →
  ∃ ch', children (run cfg evs w) !! proc = Some ch'
         ∧ child_status ch' = child_status ch.
Proof.
  intros Hevs. revert w ch.
  induction Hevs as [|ev evs Hev _ IH]; intros w ch Hch; [by exists ch|].
  destruct (step_keeps_child cfg ev w proc ch Hev Hch) as (ch1 & H1 & Hs1).
  destruct (IH _ _ H1) as (ch2 & H2 & Hs2).
  exists ch2. split; [done|]. congruence.
Qed.

(** ** What the exit listeners do to the files *)

Lemma recorder_exit_step cfg proc ch out sdp code signal e w :
  children w !! proc = Some ch → exited ch = None →
  onExit ch = OnRecorderExit out sdp →
  step cfg (ChildExit proc code signal e) w
  = recorder_exited cfg Handler e out sdp code signal
      (with_children (alter (exit_with code signal) proc (children w)) w).
Proof. intros H1 H2 H3. unfold step. by rewrite H1, H2, H3. Qed.

Lemma transcoder_exit_step cfg proc ch ogg mp3 sdp code signal e w :
  children w !! proc = Some ch → exited ch = None →
  onExit ch = OnTranscoderExit ogg mp3 sdp →
  step cfg (ChildExit proc code signal e) w
  = transcoder_exited cfg Handler ogg mp3 sdp code
      (with_children (alter (exit_with code signal) proc (children w)) w).
Proof. intros H1 H2 H3. unfold step. by rewrite H1, H2, H3. Qed.

(** The listener goes on to the conversion and the spawn succeeds. *)
Lemma recorder_exited_converts cfg who e out sdp code signal w :
  converts cfg e code signal out w = true →
  recorder_exited cfg who e out sdp code signal w
  = spawn who (mp3_args out (RECORD_BITRATE cfg) (replace_ogg_ext out))
      (OnTranscoderExit out (replace_ogg_ext out) sdp) w.
Proof.
  unfold converts, recorder_exited, convertOggToMp3.
  rewrite !andb_true_iff, negb_true_iff. intros [[-> ->] ->]. done.
Qed.

(** The listener skips the conversion, or the spawn throws. *)
Lemma recorder_exited_no_conversion cfg who e out sdp code signal w :
  converts cfg e code signal out w = false →
  files (recorder_exited cfg who e out sdp code signal w)
  = delete sdp (files w)
  ∧ children (recorder_exited cfg who e out sdp code signal w) = children w.
Proof.
  unfold converts, recorder_exited, convertOggToMp3, throw, perform.
  destruct (POST_CONVERT_MP3 cfg && _).
  - destruct (spawnThrows e); [|done]. intros _. lazy beta iota.
    rewrite unlink_removes.
    by destruct (unlink_frame who sdp (emit who LogError w)) as (_ & -> & _).
  - intros _. rewrite unlink_removes.
    by destruct (unlink_frame who sdp w) as (_ & -> & _).
Qed.

Lemma transcoder_exited_files cfg who ogg mp3 sdp code w :
  files (transcoder_exited cfg who ogg mp3 sdp code w)
  = delete sdp
      (if bool_decide (code = Some 0%Z) && negb (KEEP_OGG cfg)
       then delete ogg (files w) else files w).
Proof.
  unfold transcoder_exited. rewrite unlink_removes.
  destruct (bool_decide _ && _); [|done]. by rewrite unlink_removes.
Qed.

(** The recorder exits and the conversion starts: the transcoder is the
    new child, and the files are as they were. *)
Lemma recorder_exit_converts cfg proc ch out sdp code signal e w :
  children w !! proc = Some ch → exited ch = None →
  onExit ch = OnRecorderExit out sdp →
  converts cfg e code signal out w = true →
  let w1 := step cfg (ChildExit proc code signal e) w in
  children w1 !! length (children w) = Some (transcoder cfg out sdp)
  ∧ files w1 = files w.
Proof.
  intros H1 H2 H3 Hc. cbn zeta.
  rewrite (recorder_exit_step _ _ _ _ _ _ _ _ _ H1 H2 H3).
  rewrite recorder_exited_converts by done.
  cbn [children files spawn emit with_trace with_children].
  split; [|done].
  rewrite <- (length_alter (exit_with code signal) (children w) proc).
  apply list_lookup_middle. done.
Qed.

(** The transcoder, still running after any events but its own exit,
    exits: what is left of the files. *)
Lemma transcoder_exit_files cfg tp out sdp evs code signal e w :
  children w !! tp = Some (transcoder cfg out sdp) →
  Forall (not_exit_of tp) evs →
  let w2 := run cfg evs w in
  files (step cfg (ChildExit tp code signal e) w2)
  = delete sdp
      (if bool_decide (code = Some 0%Z) && negb (KEEP_OGG cfg)
       then delete out (files w2) else files w2).
Proof.
  intros Htc Hevs. cbn zeta.
  destruct (run_keeps_child cfg evs w tp _ Hevs Htc) as (tc & Hlook & Hst).
  unfold child_status, transcoder in Hst. cbn in Hst.
  injection Hst as Hargv Hexit Hexited.
  rewrite (transcoder_exit_step _ _ _ _ _ _ _ _ _ _ Hlook Hexited Hexit).
  by rewrite transcoder_exited_files.
Qed.

(** ** The descriptor is always removed *)


(** ** Post-conversion *)

(** C7 (as the code has it). With post-conversion enabled, a usable exit
    of the recorder and a raw file above the threshold, the exit listener
    spawns the transcoder on the raw file with the configured bitrate and
    the name of the raw file with [.mp3] for [.ogg] as output, and leaves
    the raw file in place.  When the transcoder exits, the raw file is
    removed if the exit code is 0 and KEEP_OGG is off, and is kept
    otherwise. *)
Theorem C7_conversion cfg proc ch out sdp code signal e
    evs code' signal' e' w :
  children w !! proc = Some ch → exited ch = None →
  onExit ch = OnRecorderExit out sdp →
  out ≠ sdp →
  POST_CONVERT_MP3 cfg = true →
  recorder_ok code signal (has_data w out) = true →
  has_data w out = true →
  spawnThrows e = false →
  let w1 := step cfg (ChildExit proc code signal e) w in
  let tp := length (children w) in
  children w1 !! tp = Some (transcoder cfg out sdp)
  ∧ argv (transcoder cfg out sdp)
    = [ "-hide_banner"; "-loglevel"; "warning"; "-i"; out; "-vn";
        "-c:a"; "libmp3lame"; "-b:a"; RECORD_BITRATE cfg;
        "-ar"; "44100"; "-ac"; "2"; replace_ogg_ext out ]
  ∧ files w1 = files w
  ∧ (Forall (not_exit_of tp) evs →
     let w2 := run cfg evs w1 in
     files (step cfg (ChildExit tp code' signal' e') w2) !! out
     = if bool_decide (code' = Some 0%Z) && negb (KEEP_OGG cfg)
       then None else files w2 !! out).
Proof.
  intros H1 H2 H3 Hne Hpost Hok Hdata Hspawn. cbn zeta.
  assert (Hc : converts cfg e code signal out w = true).
  { unfold converts. by rewrite Hpost, Hok, Hspawn. }
  destruct (recorder_exit_converts cfg proc ch out sdp code signal e w
              H1 H2 H3 Hc) as [Htc Hfiles].
  split; [done|]. split; [done|]. split; [done|].
  intros Hevs.
  rewrite (transcoder_exit_files cfg _ out sdp evs code' signal' e' _
             Htc Hevs).
  rewrite lookup_delete_ne by done.
  destruct (bool_decide _ && _); [|done]. apply lookup_delete_eq.
Qed.

(** ** An interrupted recorder with a small file *)

(** C2 (as the code has it). When the recorder is ended by SIGINT and
    the raw file is not above the threshold, the exit is still classified
    usable, because of the signal.  With post-conversion off the listener
    spawns nothing, keeps the raw file and removes the descriptor.  With
    post-conversion on it spawns the transcoder; when that exits the
    descriptor is removed, and the raw file is removed only if the
    transcoder's exit code is 0 and KEEP_OGG is off. *)
Theorem C2_sigint_small_file cfg proc ch out sdp f code e
    evs code' signal' e' w :
  children w !! proc = Some ch → exited ch = None →
  onExit ch = OnRecorderExit out sdp →
  out ≠ sdp →
  files w !! out = Some f → (file_size f ≤ 8192)%Z →
  let w1 := step cfg (ChildExit proc code (Some "SIGINT") e) w in
  let tp := length (children w) in
  has_data w out = false
  ∧ recorder_ok code (Some "SIGINT") (has_data w out) = true
  ∧ (POST_CONVERT_MP3 cfg = false →
     length (children w1) = length (children w)
     ∧ files w1 !! out = Some f ∧ files w1 !! sdp = None)
  ∧ (POST_CONVERT_MP3 cfg = true → spawnThrows e = false →
     children w1 !! tp = Some (transcoder cfg out sdp)
     ∧ files w1 !! out = Some f
     ∧ (Forall (not_exit_of tp) evs →
        let w2 := run cfg evs w1 in
        let w3 := step cfg (ChildExit tp code' signal' e') w2 in
        files w3 !! sdp = None
        ∧ files w3 !! out
          = if bool_decide (code' = Some 0%Z) && negb (KEEP_OGG cfg)
            then None else files w2 !! out)).
Proof.
  intros H1 H2 H3 Hne Hf Hsize. cbn zeta.
  assert (Hdata : has_data w out = false).
  { unfold has_data. rewrite Hf. apply Z.ltb_ge. lia. }
  assert (Hok : recorder_ok code (Some "SIGINT") (has_data w out) = true).
  { apply recorder_ok_spec. auto. }
  split; [done|]. split; [done|]. split.
  - intros Hpost.
    rewrite (recorder_exit_step _ _ _ _ _ _ _ _ _ H1 H2 H3).
    destruct (recorder_exited_no_conversion cfg Handler e out sdp code
                (Some "SIGINT")
                (with_children
                   (alter (exit_with code (Some "SIGINT")) proc (children w))
                   w)) as [-> ->].
    { unfold converts. by rewrite Hpost. }
    cbn [children files with_children].
    rewrite length_alter, lookup_delete_ne, lookup_delete_eq by done.
    done.
  - intros Hpost Hspawn.
    assert (Hc : converts cfg e code (Some "SIGINT") out w = true).
    { unfold converts. by rewrite Hpost, Hok, Hspawn. }
    destruct (recorder_exit_converts cfg proc ch out sdp code (Some "SIGINT")
                e w H1 H2 H3 Hc) as [Htc Hfiles].
    split; [done|]. split; [by rewrite Hfiles|].
    intros Hevs.
    rewrite (transcoder_exit_files cfg _ out sdp evs code' signal' e' _
               Htc Hevs).
    split; [apply lookup_delete_eq|].
    rewrite lookup_delete_ne by done.
    destruct (bool_decide _ && _); [|done]. apply lookup_delete_eq.
Qed.

(** ** Descriptor, spawn, settling delay, resume *)

Lemma spawned_and_settled_app tr l tid i t :
  spawned_and_settled tr tid i t → spawned_and_settled (tr ++ l) tid i t.
Proof.
  intros (j & k & t0 & t1 & sdp & out & proc & Hjk & Hj & Hk & Ht).
  exists j, k, t0, t1, sdp, out, proc.
  split; [done|]. split; [by apply lookup_app_l_Some|].
  split; [by apply lookup_app_l_Some|done].
Qed.

Lemma spawned_and_settled_later tr tid i i' t t' :
  (i ≤ i')%nat → (t ≤ t')%nat →
  spawned_and_settled tr tid i t → spawned_and_settled tr tid i' t'.
Proof.
  intros Hi Ht (j & k & t0 & t1 & sdp & out & proc & Hjk & Hj & Hk & Ht1).
  exists j, k, t0, t1, sdp, out, proc.
  split; [lia|]. split; [done|]. split; [done|lia].
Qed.

Lemma task_inv_app tr l tid k :
  task_inv tr tid k → task_inv (tr ++ l) tid k.
Proof.
  destruct k; try done. cbn. intros H.
  apply spawned_and_settled_app.
  eapply spawned_and_settled_later; [| |exact H]; [|lia].
  rewrite length_app. lia.
Qed.

(** An entry of an appended part that passes a test on every entry of
    that part. *)
Lemma lookup_app_new (test : Entry → bool) (tr l : list Entry) i en :
  forallb (negb ∘ test) l = true →
  (tr ++ l) !! i = Some en → test en = true →
  tr !! i = Some en.
Proof.
  intros Hl Hi Hen.
  destruct (decide (i < length tr)%nat) as [Hlt|Hge].
  - by rewrite lookup_app_l in Hi.
  - rewrite lookup_app_r in Hi by lia.
    rewrite forallb_forall in Hl.
    apply list_elem_of_lookup_2, list_elem_of_In, Hl in Hi.
    cbn in Hi. by rewrite Hen in Hi.
Qed.

Lemma settled_app_quiet tr l :
  no_resume l = true →
  settled_before_resume tr → settled_before_resume (tr ++ l).
Proof.
  intros Hl Htr i tid t c Hi.
  apply (lookup_app_new is_resume) in Hi; [|done..].
  by apply spawned_and_settled_app, Htr with c.
Qed.

Lemma written_app_quiet tr l :
  no_task_spawn l = true →
  written_before_spawn tr → written_before_spawn (tr ++ l).
Proof.
  intros Hl Htr k tid t proc args Hk.
  apply (lookup_app_new is_task_spawn) in Hk; [|done..].
  destruct (Htr _ _ _ _ _ Hk) as (j & t0 & sdp & out & Hjk & Hj & Hargs).
  exists j, t0, sdp, out.
  split; [done|]. split; [by apply lookup_app_l_Some|done].
Qed.

Lemma quiet_refl w : quiet w w.
Proof. split; [done|]. exists []. by rewrite app_nil_r. Qed.

Lemma quiet_trans w1 w2 w3 : quiet w1 w2 → quiet w2 w3 → quiet w1 w3.
Proof.
  intros [Hp1 (l1 & Ht1 & Hr1 & Hs1)] [Hp2 (l2 & Ht2 & Hr2 & Hs2)].
  split; [congruence|]. exists (l1 ++ l2).
  rewrite Ht2, Ht1, app_assoc. split; [done|].
  unfold no_resume, no_task_spawn in *. rewrite !forallb_app.
  by rewrite Hr1, Hr2, Hs1, Hs2.
Qed.

Lemma quiet_ordered w w' : quiet w w' → ordered w → ordered w'.
Proof.
  intros [Hp (l & Ht & Hr & Hs)] (Hw & Hs' & Hk). split; [|split].
  - rewrite Ht. by apply written_app_quiet.
  - rewrite Ht. by apply settled_app_quiet.
  - intros tid k. rewrite Hp, Ht. intros H. by apply task_inv_app, Hk.
Qed.

(** Evaluate the trace of a world and check the appended entries. *)
Ltac quiet_by_trace :=
  first
    [ apply quiet_refl
    | split; [done|]; eexists;
      split; [read_world; rewrite <- ?app_assoc; reflexivity|by split] ].

Lemma stop_quiet who e pid w :
  quiet w (snd (stopRecordingForProducer who e pid w)).
Proof.
  unfold stopRecordingForProducer.
  destruct (recordings w !! pid) as [rec|]; [|apply quiet_refl].
  unfold and_then, try_catch, perform, consumer_close, transport_close,
    child_kill, throw, child_killed.
  split.
  - destruct (consumerCloseThrows e), (transportCloseThrows e); cbn;
      destruct (from_option killed false (children w !! ffmpeg rec)); cbn;
      try done; by destruct (killThrows e).
  - destruct (consumerCloseThrows e), (transportCloseThrows e); cbn;
      destruct (from_option killed false (children w !! ffmpeg rec)); cbn;
      try destruct (killThrows e); cbn; rewrite <- ?app_assoc;
      eexists; (split; [reflexivity|by split]).
Qed.

Lemma dispatch_quiet e pid s regs w : quiet w (dispatch e pid s regs w).
Proof.
  revert w. induction regs as [|[[pid' s'] l] regs IH]; intros w.
  { apply quiet_refl. }
  rewrite dispatch_cons. eapply quiet_trans; [|apply IH].
  destruct (bool_decide (pid' = pid) && bool_decide (s' = s));
    [|apply quiet_refl].
  destruct l; cbn; [|apply stop_quiet].
  split; [done|]. exists []. by rewrite app_nil_r.
Qed.

Lemma unlink_quiet who path w :
  quiet w (snd (try_catch (unlinkSync who path) w)).
Proof.
  unfold try_catch, unlinkSync. cbn [fst snd].
  destruct (files w !! path); cbn [fst snd]; quiet_by_trace.
Qed.

(** The exit listeners run as event handlers: the transcoder they spawn
    is not a spawn by startRecordingForProducer. *)
Lemma recorder_exited_quiet cfg e out sdp code signal w :
  quiet w (recorder_exited cfg Handler e out sdp code signal w).
Proof.
  unfold recorder_exited, convertOggToMp3, throw, perform.
  destruct (POST_CONVERT_MP3 cfg && _); [destruct (spawnThrows e)|].
  - eapply quiet_trans; [|apply unlink_quiet]. quiet_by_trace.
  - quiet_by_trace.
  - apply unlink_quiet.
Qed.

Lemma transcoder_exited_quiet cfg who ogg mp3 sdp code w :
  quiet w (transcoder_exited cfg who ogg mp3 sdp code w).
Proof.
  unfold transcoder_exited.
  destruct (bool_decide _ && _).
  - eapply quiet_trans; apply unlink_quiet.
  - apply unlink_quiet.
Qed.

Lemma quiet_resume_case tid w w' k' :
  quiet w w' →
  written_before_spawn (trace w) → settled_before_resume (trace w) →
  match k' with AwaitTimer _ _ _ => False | _ => True end →
  keeps_order tid w (k', w').
Proof.
  intros [Hp (l & Ht & Hr & Hs)] Hw Hs' Hk.
  split; [|split; [|split; [|split]]]; cbn [fst snd].
  - rewrite Ht. by apply written_app_quiet.
  - rewrite Ht. by apply settled_app_quiet.
  - by destruct k'.
  - done.
  - by exists l.
Qed.

(** The segment from the consumer to the timer: the descriptor is
    written, then the recorder spawned, both now. *)
Lemma write_then_spawn tr tid t (a b : Action) sdp out proc :
  (∀ p args, a ≠ Spawn p args) → (∀ p args, b ≠ Spawn p args) →
  written_before_spawn tr →
  written_before_spawn
    (tr ++ [ {| at_ms := t; by_whom := Task tid; act := a |};
             {| at_ms := t; by_whom := Task tid; act := WriteFile sdp |};
             {| at_ms := t; by_whom := Task tid;
                act := Spawn proc (recorder_args sdp out) |};
             {| at_ms := t; by_whom := Task tid; act := b |} ]).
Proof.
  intros Ha Hb Htr k tid' t' proc' args Hk.
  destruct (decide (k < length tr)%nat) as [Hlt|Hge].
  - rewrite lookup_app_l in Hk by done.
    destruct (Htr _ _ _ _ _ Hk) as (j & t0 & sdp' & out' & Hjk & Hj & Hargs).
    exists j, t0, sdp', out'.
    split; [done|]. split; [by apply lookup_app_l_Some|done].
  - rewrite lookup_app_r in Hk by lia.
    destruct (k - length tr)%nat as [|[|[|[|n]]]] eqn:Hn; cbn in Hk;
      try discriminate Hk.
    + injection Hk as _ _ Hk. by destruct (Ha proc' args).
    + injection Hk as <- <- <- <-.
      exists (length tr + 1)%nat, t, sdp, out.
      split; [lia|]. split; [|done].
      rewrite lookup_app_r by lia.
      by replace (length tr + 1 - length tr)%nat with 1%nat by lia.
    + injection Hk as _ _ Hk. by destruct (Hb proc' args).
Qed.

(** One segment of startRecordingForProducer keeps the order. *)
Lemma resume_start_ordered cfg tid e k w :
  written_before_spawn (trace w) → settled_before_resume (trace w) →
  task_inv (trace w) tid k →
  keeps_order tid w (resume_start cfg tid e k w).
Proof.
  intros Hw Hs Hk.
  destruct k as [p|p port|p port t| |p port t|p due r|p r|].
  - (* the port is known *)
    unfold resume_start, caught. destruct (rejects e);
      (apply quiet_resume_case; [quiet_by_trace|done..]).
  - (* the transport is created *)
    unfold resume_start, caught. destruct (rejects e);
      (apply quiet_resume_case; [quiet_by_trace|done..]).
  - (* the transport is connected, the check is made *)
    unfold resume_start, caught, transport_close, throw, perform.
    destruct (rejects e); [|destruct (canConsume e);
                             [|destruct (transportCloseThrows e)]];
      cbn [negb];
      (apply quiet_resume_case; [quiet_by_trace|done..]).
  - apply quiet_resume_case; [apply quiet_refl|done..].
  - (* the consumer is created, descriptor and recorder follow *)
    unfold resume_start, caught.
    destruct (rejects e); [|destruct (writeThrows e);
                             [|destruct (spawnThrows e)]];
      try (apply quiet_resume_case; [quiet_by_trace|done..]).
    unfold keeps_order. read_world. rewrite <- !app_assoc. cbn [app].
    split; [|split; [|split; [|split]]].
    + by apply write_then_spawn.
    + by apply settled_app_quiet.
    + cbn [task_inv].
      exists (length (trace w) + 1)%nat, (length (trace w) + 2)%nat,
        (now w), (now w), (sdp_path cfg (date e) p),
        (ogg_path cfg (date e) p), (length (children w)).
      rewrite length_app. cbn [length].
      split; [lia|]. rewrite !lookup_app_r by lia.
      replace (length (trace w) + 1 - length (trace w))%nat with 1%nat by lia.
      replace (length (trace w) + 2 - length (trace w))%nat with 2%nat by lia.
      split; [done|]. split; [done|lia].
    + done.
    + by eexists.
  - (* the timer *)
    unfold resume_start, keeps_order.
    destruct (Nat.ltb_spec (now w) due) as [Hlt|Hge]; read_world.
    + split; [done|]. split; [done|]. split; [done|]. split; [done|].
      exists []. by rewrite app_nil_r.
    + split; [by apply written_app_quiet|].
      split; [|split; [done|split; [done|by eexists]]].
      intros i tid' t c Hi.
      destruct (decide (i < length (trace w))%nat) as [Hlt|Hnlt].
      * rewrite lookup_app_l in Hi by done.
        by apply spawned_and_settled_app, Hs with c.
      * pose proof (lookup_lt_Some _ _ _ Hi) as Hlen.
        rewrite length_app in Hlen. cbn in Hlen.
        assert (i = length (trace w)) as -> by lia.
        rewrite list_lookup_middle in Hi by done.
        injection Hi as <- <- <-.
        apply spawned_and_settled_app.
        eapply spawned_and_settled_later; [| |exact Hk]; lia.
  - (* the consumer is resumed, the session is registered *)
    unfold resume_start, caught. destruct (rejects e);
      (apply quiet_resume_case; [quiet_by_trace|done..]).
  - apply quiet_resume_case; [apply quiet_refl|done..].
Qed.

Lemma spawn_task_ordered p w : ordered w → ordered (spawn_task p w).
Proof.
  intros (Hw & Hs & Hk). split; [|split].
  - cbn. by apply written_app_quiet.
  - cbn. by apply settled_app_quiet.
  - intros tid k. cbn. intros Hl. apply task_inv_app.
    apply lookup_app_Some in Hl as [Hl|[_ Hl]]; [by apply Hk|].
    apply list_lookup_singleton_Some in Hl as [_ <-]. done.
Qed.

Lemma step_ordered cfg ev w : ordered w → ordered (step cfg ev w).
Proof.
  intros Hw.
  destruct ev as [p|p|tid e|pid e|pid s e|proc code signal e|path size|ms].
  - (* Produce *)
    exact (spawn_task_ordered p
             (with_producers (<[producerId p := p]> (producers w)) w) Hw).
  - (* Start *)
    by apply spawn_task_ordered.
  - (* Settle *)
    unfold step. destruct (pending w !! tid) as [k|] eqn:Hlook; [|done].
    destruct Hw as (Hw & Hs & Hk).
    pose proof (resume_start_ordered cfg tid e k w Hw Hs (Hk _ _ Hlook)) as H.
    destruct (resume_start cfg tid e k w) as [k' w'].
    destruct H as (Hw' & Hs' & Hk' & Hp & l & Hl). cbn [fst snd] in *.
    split; [done|]. split; [done|].
    intros tid' k0. cbn. rewrite Hp. intros Hl0.
    destruct (decide (tid = tid')) as [<-|Hne].
    + rewrite list_lookup_insert_eq in Hl0 by by eapply lookup_lt_Some.
      by injection Hl0 as <-.
    + rewrite list_lookup_insert_ne in Hl0 by done.
      rewrite Hl. by apply task_inv_app, Hk.
  - (* StopRequest *)
    cbn. destruct pid; [done|]. eapply quiet_ordered; [apply stop_quiet|done].
  - (* ProducerSignal *)
    eapply quiet_ordered; [apply dispatch_quiet|done].
  - (* ChildExit *)
    unfold step. destruct (children w !! proc) as [ch|]; [|done].
    destruct (exited ch); [done|].
    destruct (onExit ch);
      (eapply quiet_ordered;
       [apply recorder_exited_quiet || apply transcoder_exited_quiet|done]).
  - done.
  - done.
Qed.

Lemma run_ordered cfg evs w : ordered w → ordered (run cfg evs w).
Proof.
  revert w. induction evs as [|ev evs IH]; intros w Hw; [done|].
  cbn. by apply IH, step_ordered.
Qed.

Lemma boot_ordered : ordered boot.
Proof.
  split; [|split].
  - intros k ? ? ? ? Hk. by destruct k.
  - intros i ? ? ? Hi. by destruct i.
  - intros tid k Hk. by destruct tid.
Qed.

(** C8. In every run of the server from its start, whatever the
    environment answers: a process spawned by startRecordingForProducer is
    the recorder, started on a descriptor the same invocation wrote
    before; and each call of [consumer.resume()] comes after that write
    and that spawn, no earlier than [SETTLE_MS] = 150 ms after the spawn.
    An invocation whose requests all succeed makes exactly these steps in
    this order, the resume [SETTLE_MS] after the spawn and the
    registration after the resume. *)
Theorem C8_write_spawn_settle_resume cfg evs p e w :
  written_before_spawn (trace (run cfg evs boot))
  ∧ settled_before_resume (trace (run cfg evs boot))
  ∧ SETTLE_MS = 150%nat
  ∧ (rejects e = false → canConsume e = true →
     writeThrows e = false → spawnThrows e = false →
     let tid := length (pending w) in
     let sdp := sdp_path cfg (date e) p in
     let out := ogg_path cfg (date e) p in
     let t := length (plainTransports w) in
     let c := length (consumers w) in
     let at_spawn a :=
       {| at_ms := now w; by_whom := Task tid; act := a |} in
     let at_resume a :=
       {| at_ms := now w + SETTLE_MS; by_whom := Task tid; act := a |} in
     trace (run cfg (Start p :: settle_all tid e) w)
     = trace w
       ++ [ at_spawn ProbePort;
            at_spawn (CreatePlainTransport t);
            at_spawn (ConnectTransport t (freePort e));
            at_spawn (Consume t c (producerId p));
            at_spawn (WriteFile sdp);
            at_spawn (Spawn (length (children w)) (recorder_args sdp out));
            at_spawn (SetTimeout SETTLE_MS);
            at_resume (ResumeConsumer c);
            at_resume (RegistrySet (producerId p));
            at_resume (AddListener (producerId p) transportclose Cleanup);
            at_resume (AddListener (producerId p) producerclose Cleanup) ]).
Proof.
  pose proof (run_ordered cfg evs boot boot_ordered) as (Hw & Hs & _).
  split; [done|]. split; [done|]. split; [done|].
  intros Hrej Hcan Hwrite Hspawn. cbn zeta.
  unfold settle_all, settles. cbn [replicate app].
  rewrite run_cons, step_start.
  settle_with resume_port_ok.
  settle_with resume_create_ok.
  settle_with resume_connect_ok. unfold connected.
  settle_with resume_consume_ok. cbn zeta. read_world.
  rewrite run_cons. cbn [step]. read_world.
  settle_with resume_timer_due.
  settle_with resume_resumed_ok. cbn zeta. cbn [run consumer]. read_world.
  rewrite <- !app_assoc. reflexivity.
Qed.

(** ** Between the spawn and the registration *)

Lemma same_sessions_refl w : same_sessions w w.
Proof. by repeat split. Qed.

Lemma same_sessions_trans w1 w2 w3 :
  same_sessions w1 w2 → same_sessions w2 w3 → same_sessions w1 w3.
Proof.
  unfold same_sessions.
  intros (-> & -> & -> & -> & -> & -> & -> & -> & ?)
         (-> & -> & -> & -> & -> & -> & -> & -> & ?).
  repeat split; try done. lia.
Qed.

Lemma same_but_producers_sessions w w' :
  same_but_producers w' w → same_sessions w w'.
Proof.
  intros H. rewrite (same_but_producers_inv _ _ H). by repeat split.
Qed.

(** With no session registered for [pid], a stop request or a close
    signal for [pid] leaves every session as it is. *)
Lemma window_step cfg pid ev w :
  recordings w !! pid = None → window_event pid ev →
  same_sessions w (step cfg ev w).
Proof.
  intros Hw Hev. destruct ev; try done; cbn in Hev; subst.
  - cbn. destruct pid; [apply same_sessions_refl|].
    rewrite stop_absent by done. apply same_sessions_refl.
  - apply same_but_producers_sessions. cbn. by apply dispatch_stopped.
  - repeat split; try done. cbn. lia.
Qed.

Lemma window_run cfg pid evs w :
  recordings w !! pid = None → Forall (window_event pid) evs →
  same_sessions w (run cfg evs w).
Proof.
  intros Hw Hevs. revert w Hw.
  induction Hevs as [|ev evs Hev _ IH]; intros w Hw.
  { apply same_sessions_refl. }
  pose proof (window_step cfg pid ev w Hw Hev) as Hstep.
  eapply same_sessions_trans; [exact Hstep|].
  apply IH. destruct Hstep as (-> & _). done.
Qed.

Lemma same_sessions_in_flight p r w0 w w' :
  same_sessions w w' → in_flight p r w0 w → in_flight p r w0 w'.
Proof.
  unfold same_sessions, in_flight, recordingFile.
  intros (-> & -> & -> & -> & _ & -> & _). done.
Qed.

(** C10. A session starts for a producer that has none registered.  From
    the spawn of the recorder until [consumer.resume()] has settled, that
    is while the invocation waits for its timer and then for the resume,
    the session is not in the registry, is not listed by GET /producers
    and has no Cleanup listener of its own; stop requests and close
    signals for the producer that arrive meanwhile change no session, no
    listener and no file, and add nothing to the trace: the transport
    stays open, the consumer paused and not closed, the recorder running
    with no signal sent. *)
Theorem C10_not_registered_while_starting cfg p e evs1 evs2 w :
  rejects e = false → canConsume e = true →
  writeThrows e = false → spawnThrows e = false →
  recordings w !! producerId p = None →
  Forall (window_event (producerId p)) evs1 →
  Forall (window_event (producerId p)) evs2 →
  let tid := length (pending w) in
  let r := {| ffmpeg := length (children w);
              consumer := length (consumers w);
              transport := length (plainTransports w);
              file := ogg_path cfg (date e) p;
              sdpFile := sdp_path cfg (date e) p |} in
  let w1 := run cfg (Start p :: settles 4 tid e) w in
  let w2 := run cfg evs1 w1 in
  let w3 := run cfg [Tick SETTLE_MS; Settle tid e] w2 in
  let w4 := run cfg evs2 w3 in
  pending w1 = pending w ++ [AwaitTimer p (now w + SETTLE_MS) r]
  ∧ in_flight p r w w1
  ∧ same_sessions w1 w2 ∧ in_flight p r w w2
  ∧ pending w3 = pending w ++ [AwaitResume p r]
  ∧ in_flight p r w w3
  ∧ same_sessions w3 w4 ∧ in_flight p r w w4.
Proof.
  intros Hrej Hcan Hwrite Hspawn Hnone Hevs1 Hevs2. cbn zeta.
  set (tid := length (pending w)).
  set (r := {| ffmpeg := length (children w); consumer := _ |}).
  set (w1 := run cfg (Start p :: settles 4 tid e) w).
  (* the world when the recorder has been spawned *)
  assert (H1 : pending w1 = pending w ++ [AwaitTimer p (now w + SETTLE_MS) r]
               ∧ in_flight p r w w1 ∧ now w1 = now w).
  { subst w1 tid. unfold settles. cbn [replicate].
    rewrite run_cons, step_start.
    settle_with resume_port_ok.
    settle_with resume_create_ok.
    settle_with resume_connect_ok. unfold connected.
    settle_with resume_consume_ok. cbn zeta. cbn [run]. read_world.
    split; [done|]. split; [|done].
    unfold in_flight, recordingFile. read_world. rewrite Hnone.
    rewrite alter_last. subst r. cbn [transport consumer ffmpeg file sdpFile].
    rewrite !list_lookup_middle by done. done. }
  destruct H1 as (Hp1 & Hfl1 & Hnow1).
  pose proof Hfl1 as (Hrec1 & _).
  pose proof (window_run cfg _ evs1 w1 Hrec1 Hevs1) as Hs12.
  set (w2 := run cfg evs1 w1) in *.
  pose proof (same_sessions_in_flight _ _ _ _ _ Hs12 Hfl1) as Hfl2.
  (* the timer fires *)
  set (w3 := run cfg [Tick SETTLE_MS; Settle tid e] w2).
  assert (H3 : pending w3 = pending w ++ [AwaitResume p r]
               ∧ in_flight p r w w3).
  { destruct Hs12 as (Hr & Ht & Hc & Hch & Hf & Hl & Hp & Htr & Hnow).
    subst w3 tid. rewrite run_cons. cbn [step]. rewrite run_cons.
    erewrite step_settle by (read_world; rewrite Hp, Hp1; reflexivity).
    rewrite resume_timer_due by (read_world; lia).
    cbn [run]. read_world. split; [done|].
    destruct Hfl2 as (? & ? & ? & ? & ? & ? & ?).
    unfold in_flight, recordingFile in *. read_world. done. }
  destruct H3 as (Hp3 & Hfl3).
  pose proof Hfl3 as (Hrec3 & _).
  pose proof (window_run cfg _ evs2 w3 Hrec3 Hevs2) as Hs34.
  pose proof (same_sessions_in_flight _ _ _ _ _ Hs34 Hfl3) as Hfl4.
  done.
Qed.

(** ** File names of a session *)

Lemma append_cons x (a b : string) : String x a +:+ b = String x (a +:+ b).
Proof. done. Qed.

Lemma append_assoc (a b c : string) : (a +:+ b) +:+ c = a +:+ (b +:+ c).
Proof.
  induction a as [|x a IH]; [done|]. by rewrite !append_cons, IH.
Qed.

Lemma length_append (a b : string) :
  String.length (a +:+ b) = (String.length a + String.length b)%nat.
Proof.
  induction a as [|x a IH]; [done|]. rewrite append_cons. cbn. by rewrite IH.
Qed.

(** The descriptor and the raw file of a session have different names. *)
Lemma ogg_sdp_distinct cfg d p : ogg_path cfg d p ≠ sdp_path cfg d p.
Proof.
  unfold ogg_path, sdp_path, path_join. intros H.
  apply (inj (String.append _)) in H. rewrite !append_cons in H.
  injection H as H. do 2 apply (inj (String.append _)) in H. discriminate H.
Qed.

Lemma is_dot_ogg_length s : is_dot_ogg s = true → String.length s = 4%nat.
Proof. by destruct s as [|a [|b [|c [|d [|x s]]]]]. Qed.



(** * Further properties of the code *)

(** ** Objects are never dropped *)

Lemma grows_refl w : grows w w.
Proof. split; [done|]. split; eauto. Qed.

Lemma grows_trans w1 w2 w3 : grows w1 w2 → grows w2 w3 → grows w1 w3.
Proof.
  intros (Ht1 & Hc1 & Hp1) (Ht2 & Hc2 & Hp2). split; [lia|]. split.
  - intros i c Hi. destruct (Hc1 _ _ Hi) as (c' & Hi' & ? & ?).
    destruct (Hc2 _ _ Hi') as (c'' & Hi'' & ? & ?).
    exists c''. split; [done|]. split; congruence.
  - intros i ch Hi. destruct (Hp1 _ _ Hi) as (c' & Hi' & ? & ?).
    destruct (Hp2 _ _ Hi') as (c'' & Hi'' & ? & ?).
    exists c''. split; [done|]. split; congruence.
Qed.

(** The stores of [w'] are those of [w] with one object altered in a way
    that keeps what it is attached to, or with new objects appended. *)
Lemma grows_stores w w' :
  (length (plainTransports w) ≤ length (plainTransports w'))%nat →
  (consumers w' = consumers w
   ∨ (∃ i, consumers w' = alter closeC i (consumers w))
   ∨ (∃ i, consumers w' = alter resumeC i (consumers w))
   ∨ (∃ l, consumers w' = consumers w ++ l)) →
  (children w' = children w
   ∨ (∃ i, children w' = alter deliver i (children w))
   ∨ (∃ i c s, children w' = alter (exit_with c s) i (children w))
   ∨ (∃ l, children w' = children w ++ l)) →
  grows w w'.
Proof.
  intros Ht Hc Hp. split; [done|]. split.
  - intros i c Hi.
    destruct Hc as [->|[[j ->]|[[j ->]|[l ->]]]].
    + eauto.
    + rewrite list_lookup_alter. case_decide; subst; rewrite Hi; cbn; eauto.
    + rewrite list_lookup_alter. case_decide; subst; rewrite Hi; cbn; eauto.
    + exists c. split; [by apply lookup_app_l_Some|done].
  - intros i ch Hi.
    destruct Hp as [->|[[j ->]|[(j & c & s & ->)|[l ->]]]].
    + eauto.
    + rewrite list_lookup_alter. case_decide; subst; rewrite Hi; cbn;
        [|eauto]. eexists. split; [done|]. unfold deliver.
      by destruct (exited ch).
    + rewrite list_lookup_alter. case_decide; subst; rewrite Hi; cbn; eauto.
    + exists ch. split; [by apply lookup_app_l_Some|done].
Qed.

Lemma session_ok_grows cfg w w' pid r :
  grows w w' → session_ok cfg w pid r → session_ok cfg w' pid r.
Proof.
  intros (Ht & Hc & Hp) (Hn & Htr & (c & Hci & Hct & Hcp) & (ch & Hchi & Hrec)).
  split; [done|]. split; [lia|]. split.
  - destruct (Hc _ _ Hci) as (c' & ? & ? & ?). exists c'.
    split; [done|]. split; congruence.
  - destruct (Hp _ _ Hchi) as (ch' & ? & ? & ?). exists ch'.
    split; [done|]. destruct Hrec. split; congruence.
Qed.

(** ** Counting signals *)

Lemma kills_app proc l1 l2 :
  kills proc (l1 ++ l2) = (kills proc l1 + kills proc l2)%nat.
Proof. unfold kills. by rewrite List.filter_app, length_app. Qed.

Lemma kills_none proc l :
  Forall (λ en, match act en with Kill _ _ => False | _ => True end) l →
  kills proc l = 0%nat.
Proof.
  induction 1 as [|en l Hen _ IH]; [done|].
  unfold kills in *. cbn. unfold is_kill_of at 1.
  by destruct (act en).
Qed.

(** ** Everything a stop does *)

Lemma stop_effect who e pid rec w :
  recordings w !! pid = Some rec →
  let w' := snd (stopRecordingForProducer who e pid w) in
  ∃ bc bt bk : bool,
    consumers w'
    = (if bc then alter closeC (consumer rec) (consumers w) else consumers w)
    ∧ plainTransports w'
      = (if bt then alter closeT (transport rec) (plainTransports w)
         else plainTransports w)
    ∧ children w'
      = (if bk then alter deliver (ffmpeg rec) (children w) else children w)
    ∧ trace w'
      = trace w
        ++ (logged who w
              <$> (if bc then [CloseConsumer (consumer rec)] else [])
                  ++ (if bt then [CloseTransport (transport rec)] else [])
                  ++ (if bk then [Kill (ffmpeg rec) "SIGINT"] else [])
                  ++ [RegistryDelete pid]).
Proof.
  intros Hrec. cbn zeta. unfold stopRecordingForProducer. rewrite Hrec.
  unfold and_then, try_catch, perform, consumer_close, transport_close,
    child_kill, throw, child_killed, logged.
  exists (negb (consumerCloseThrows e)), (negb (transportCloseThrows e)),
    (negb (from_option killed false (children w !! ffmpeg rec))
     && negb (killThrows e)).
  destruct (consumerCloseThrows e), (transportCloseThrows e); cbn;
    destruct (from_option killed false (children w !! ffmpeg rec)); cbn;
    try destruct (killThrows e); cbn; rewrite <- ?app_assoc; done.
Qed.

Lemma stop_grows who e pid w :
  grows w (snd (stopRecordingForProducer who e pid w)).
Proof.
  destruct (recordings w !! pid) as [rec|] eqn:Hrec.
  - destruct (stop_effect who e pid rec w Hrec)
      as (bc & bt & bk & Hc & Ht & Hp & _).
    apply grows_stores.
    + rewrite Ht. destruct bt; by rewrite ?length_alter.
    + rewrite Hc. destruct bc; eauto.
    + rewrite Hp. destruct bk; eauto.
  - rewrite stop_absent by done. apply grows_refl.
Qed.

(** The signals a stop sends: at most one, to the recorder of the
    session. *)
Lemma stop_kills who e pid w proc :
  ∃ l, trace (snd (stopRecordingForProducer who e pid w)) = trace w ++ l
       ∧ Forall (λ en, match act en with
                       | Kill proc' sig =>
                           sig = "SIGINT"
                           ∧ ffmpeg <$> recordings w !! pid = Some proc'
                       | Spawn _ _ | WriteFile _ | Unlink _ => False
                       | _ => True
                       end) l
       ∧ (kills proc l ≤ 1)%nat
       ∧ (ffmpeg <$> recordings w !! pid ≠ Some proc → kills proc l = 0%nat).
Proof.
  destruct (recordings w !! pid) as [rec|] eqn:Hrec.
  - destruct (stop_effect who e pid rec w Hrec)
      as (bc & bt & bk & _ & _ & _ & Htr).
    eexists. split; [exact Htr|].
    unfold kills, is_kill_of, logged.
    split.
    { destruct bc, bt, bk; cbn; repeat (constructor; cbn; try done). }
    destruct bc, bt, bk; cbn;
      destruct (Nat.eqb_spec (ffmpeg rec) proc); cbn;
      (split; [lia|]); intros H; try done; by subst.
  - rewrite stop_absent by done. exists []. rewrite app_nil_r.
    split; [done|]. split; [constructor|]. split; [cbn; lia|done].
Qed.

(** ** Close signals, once more *)

(** A dispatch amounts to one stop or to nothing, up to [producers]. *)
Lemma dispatch_either e pid s regs w :
  same_but_producers (dispatch e pid s regs w)
                     (snd (stopRecordingForProducer Handler e pid w))
  ∨ same_but_producers (dispatch e pid s regs w) w.
Proof.
  revert w. induction regs as [|[[pid' s'] l] regs IH]; intros w.
  { by right. }
  rewrite dispatch_cons.
  destruct (bool_decide (pid' = pid) && bool_decide (s' = s)) eqn:Hm;
    [|apply IH].
  destruct l.
  - cbn [run_listener].
    destruct (IH (with_producers (delete pid (producers w)) w)) as [H|H].
    + left. eapply same_but_producers_trans; [exact H|].
      apply stop_same_but_producers, same_but_producers_set.
    + right. eapply same_but_producers_trans; [exact H|].
      apply same_but_producers_set.
  - left. cbn [run_listener].
    eapply same_but_producers_trans;
      [apply dispatch_stopped, stop_recordings|done].
Qed.

Lemma same_but_producers_grows w1 w2 :
  same_but_producers w1 w2 → grows w2 w1.
Proof.
  intros H. rewrite (same_but_producers_inv _ _ H).
  apply grows_stores; cbn; [done|by left..].
Qed.

(** What a dispatch does to [producers]. *)
Lemma dispatch_producers e pid s regs w :
  (∀ pid' p, producers (dispatch e pid s regs w) !! pid' = Some p →
     producers w !! pid' = Some p)
  ∧ (∀ pid', pid' ≠ pid →
       producers (dispatch e pid s regs w) !! pid' = producers w !! pid')
  ∧ ((pid, s, DeleteProducer) ∈ regs →
     producers (dispatch e pid s regs w) !! pid = None).
Proof.
  revert w. induction regs as [|[[pid' s'] l] regs IH]; intros w.
  { split; [done|]. split; [done|]. by intros ?%elem_of_nil. }
  rewrite dispatch_cons.
  destruct (bool_decide (pid' = pid) && bool_decide (s' = s)) eqn:Hm.
  - apply andb_true_iff in Hm as [H1 H2].
    apply bool_decide_eq_true in H1, H2. subst pid' s'.
    destruct (IH (run_listener e pid l w)) as (IH1 & IH2 & IH3).
    assert (Hsub : ∀ pid' p, producers (run_listener e pid l w) !! pid'
                             = Some p → producers w !! pid' = Some p).
    { destruct l; cbn.
      - intros pid' p. rewrite lookup_delete_Some. tauto.
      - intros pid' p. by destruct (stop_frame Handler e pid w)
          as (_ & _ & -> & _). }
    assert (Hne : ∀ pid', pid' ≠ pid →
              producers (run_listener e pid l w) !! pid'
              = producers w !! pid').
    { destruct l; cbn.
      - intros pid' ?. by rewrite lookup_delete_ne.
      - intros pid' ?. by destruct (stop_frame Handler e pid w)
          as (_ & _ & -> & _). }
    split; [eauto|]. split; [intros; rewrite IH2 by done; eauto|].
    intros Hin. apply elem_of_cons in Hin as [Heq|Hin]; [|eauto].
    injection Heq as <-. cbn [run_listener].
    destruct (producers (dispatch e pid s regs _) !! pid) as [p|] eqn:Hp;
      [|done].
    apply IH1 in Hp. cbn in Hp. by rewrite lookup_delete_eq in Hp.
  - destruct (IH w) as (IH1 & IH2 & IH3).
    split; [done|]. split; [done|].
    intros Hin. apply elem_of_cons in Hin as [Heq|Hin]; [|eauto].
    injection Heq as <- <- <-.
    by rewrite !bool_decide_eq_true_2 in Hm.
Qed.

Lemma dispatch_listeners e pid s regs w :
  listeners (dispatch e pid s regs w) = listeners w.
Proof.
  revert w. induction regs as [|[[pid' s'] l] regs IH]; intros w; [done|].
  rewrite dispatch_cons, IH.
  destruct (bool_decide (pid' = pid) && bool_decide (s' = s)); [|done].
  destruct l; cbn; [done|].
  by destruct (stop_frame Handler e pid w) as (_ & _ & _ & _ & -> & _).
Qed.

(** ** What a segment of startRecordingForProducer does *)

Ltac branches :=
  unfold resume_start, caught, transport_close, throw, perform;
  repeat (match goal with
          | |- context [if ?b then _ else _] => destruct b eqn:?
          end); read_world.

Ltac segment k := destruct k; branches.

Lemma resume_start_grows cfg tid e k w :
  grows w (snd (resume_start cfg tid e k w)).
Proof.
  segment k; apply grows_stores; read_world;
    rewrite ?length_app, ?length_alter; eauto 6 with lia.
Qed.

Lemma resume_start_producers cfg tid e k w :
  producers (snd (resume_start cfg tid e k w)) = producers w.
Proof. segment k; done. Qed.

Lemma session_paths_intro cfg d p :
  session_paths cfg (sdp_path cfg d p) (ogg_path cfg d p).
Proof. by exists d, p. Qed.

(** A segment writes a descriptor, spawns a recorder, and sends no
    signal and removes no file. *)
Lemma resume_start_trace cfg tid e k w :
  ∃ l, trace (snd (resume_start cfg tid e k w)) = trace w ++ l
       ∧ Forall (λ en, action_ok cfg (act en)
                       ∧ match act en with
                         | Kill _ _ | Unlink _ => False
                         | _ => True
                         end) l.
Proof.
  segment k;
    (eexists; split;
     [rewrite <- ?app_assoc; first [reflexivity | symmetry; apply app_nil_r]|]);
    repeat (constructor; cbn; try done);
    eexists _, _; (split; [apply session_paths_intro|]); eauto.
Qed.

Lemma resume_start_children_ok cfg tid e k w :
  children (snd (resume_start cfg tid e k w)) = children w
  ∨ ∃ ch, children (snd (resume_start cfg tid e k w)) = children w ++ [ch]
          ∧ child_ok cfg ch.
Proof.
  segment k; try (by left). right. eexists. split; [done|].
  eexists _, _. split; [apply session_paths_intro|]. left. by split.
Qed.

(** How the handles of an invocation change in one segment: they are
    kept or dropped; or the plain transport is created; or the consumer
    and the recorder are created; or the session goes to the registry. *)
Lemma resume_start_outcome cfg tid e k w :
  (∀ t, task_transport k = Some t → (t < length (plainTransports w))%nat) →
  let k' := fst (resume_start cfg tid e k w) in
  let w' := snd (resume_start cfg tid e k w) in
  (recordings w' = recordings w ∧ listeners w' = listeners w
   ∧ (task_transport k' = None ∨ task_transport k' = task_transport k)
   ∧ (task_session k' = None ∨ task_session k' = task_session k))
  ∨ (recordings w' = recordings w ∧ listeners w' = listeners w
     ∧ task_transport k = None
     ∧ task_transport k' = Some (length (plainTransports w))
     ∧ task_session k' = None
     ∧ (length (plainTransports w) < length (plainTransports w'))%nat)
  ∨ (recordings w' = recordings w ∧ listeners w' = listeners w
     ∧ task_session k = None
     ∧ ∃ p r, task_session k' = Some (producerId p, r)
         ∧ task_transport k = Some (transport r)
         ∧ task_transport k' = Some (transport r)
         ∧ consumer r = length (consumers w)
         ∧ ffmpeg r = length (children w)
         ∧ session_ok cfg w' (producerId p) r)
  ∨ (∃ p r, task_session k = Some (producerId p, r)
       ∧ task_transport k = Some (transport r)
       ∧ k' = Returned
       ∧ recordings w' = <[producerId p := r]> (recordings w)
       ∧ listeners w'
         = listeners w ++ [(producerId p, transportclose, Cleanup);
                           (producerId p, producerclose, Cleanup)]).
Proof.
  intros Hb. cbn zeta.
  destruct k as [p|p port|p port t|
                 |p port t|p due r|p r|].
  - left. branches; cbn; repeat split; auto.
  - branches; cbn;
      [left; repeat split; auto|].
    right. left. rewrite length_app. cbn. repeat split; auto. lia.
  - left. branches; cbn; repeat split; auto.
  - left. cbn. repeat split; auto.
  - specialize (Hb t eq_refl).
    branches; cbn; [left; repeat split; auto..|].
    right. right. left. do 3 (split; [done|]).
    eexists p, _. cbn. do 5 (split; [done|]).
    split; [by exists (date e), p|]. read_world.
    split; [done|]. split.
    + eexists. split; [apply list_lookup_middle; done|done].
    + eexists. split; [apply list_lookup_middle; done|done].
  - left. branches; cbn; repeat split; auto.
  - branches; cbn; [left; repeat split; auto|].
    right. right. right. exists p, r. rewrite <- app_assoc.
    repeat split; auto.
  - left. cbn. repeat split; auto.
Qed.

(** ** What the exit of a child does *)

Lemma unlink_trace who path w :
  trace (snd (try_catch (unlinkSync who path) w)) = trace w
  ∨ trace (snd (try_catch (unlinkSync who path) w))
    = trace w ++ [logged who w (Unlink path)].
Proof.
  unfold try_catch, unlinkSync. cbn.
  destruct (files w !! path); cbn; auto.
Qed.

Lemma child_ok_same cfg ch ch' :
  argv ch' = argv ch → onExit ch' = onExit ch →
  child_ok cfg ch → child_ok cfg ch'.
Proof.
  intros Ha Ho (sdp & out & Hp & H). exists sdp, out. split; [done|].
  unfold is_recorder, is_transcoder in *. rewrite Ha, Ho. done.
Qed.

Lemma children_ok_alter cfg (f : Child → Child) i (l : list Child) :
  (∀ ch, argv (f ch) = argv ch ∧ onExit (f ch) = onExit ch) →
  Forall (child_ok cfg) l → Forall (child_ok cfg) (alter f i l).
Proof.
  intros Hf Hl. apply Forall_lookup. intros j ch.
  rewrite list_lookup_alter. case_decide.
  - subst. destruct (l !! j) as [ch0|] eqn:Hj; [|done]. intros [= <-].
    destruct (Hf ch0). eapply child_ok_same; [done..|].
    by eapply Forall_lookup_1.
  - intros Hj. by eapply Forall_lookup_1.
Qed.

Lemma child_exit_effect cfg proc code signal e w :
  Forall (child_ok cfg) (children w) →
  let w' := step cfg (ChildExit proc code signal e) w in
  recordings w' = recordings w ∧ pending w' = pending w
  ∧ listeners w' = listeners w ∧ producers w' = producers w
  ∧ grows w w' ∧ Forall (child_ok cfg) (children w')
  ∧ ∃ l, trace w' = trace w ++ l
         ∧ Forall (λ en, action_ok cfg (act en)
                         ∧ match act en with
                           | Spawn _ _ | LogError | Unlink _ => True
                           | _ => False
                           end) l.
Proof.
  intros Hok. cbn zeta. unfold step.
  assert (Hsame : recordings w = recordings w ∧ pending w = pending w
    ∧ listeners w = listeners w ∧ producers w = producers w
    ∧ grows w w ∧ Forall (child_ok cfg) (children w)
    ∧ ∃ l, trace w = trace w ++ l
         ∧ Forall (λ en, action_ok cfg (act en)
                         ∧ match act en with
                           | Spawn _ _ | LogError | Unlink _ => True
                           | _ => False
                           end) l).
  { split_and!; try done; [apply grows_refl|].
    exists []. by rewrite app_nil_r. }
  destruct (children w !! proc) as [ch|] eqn:Hch; [|done].
  destruct (exited ch) eqn:Hex; [done|]. clear Hsame.
  pose proof (Forall_lookup_1 _ _ _ _ Hok Hch) as (sdp & out & Hp & Hkind).
  set (w0 := with_children _ w).
  assert (Hok0 : Forall (child_ok cfg) (children w0)).
  { subst w0. cbn. by apply children_ok_alter. }
  assert (Hg0 : grows w w0).
  { apply grows_stores; subst w0; cbn; eauto 8. }
  destruct (onExit ch) as [out' sdp'|ogg mp3 sdp'] eqn:Hon.
  - assert (sdp' = sdp ∧ out' = out) as [-> ->].
    { destruct Hkind as [[_ H]|[_ [_ H]]]; rewrite Hon in H; by inversion H. }
    unfold recorder_exited, convertOggToMp3, throw, perform.
    destruct (POST_CONVERT_MP3 cfg && _) eqn:Hpost;
      [destruct (spawnThrows e)|].
    + destruct (unlink_frame Handler sdp (emit Handler LogError w0))
        as (-> & Hc & Hco & Ht & -> & -> & -> & _).
      split_and!; try done.
      * eapply grows_trans; [exact Hg0|].
        apply grows_stores; rewrite ?Ht, ?Hco, ?Hc; cbn; auto.
      * by rewrite Hc.
      * destruct (unlink_trace Handler sdp (emit Handler LogError w0))
          as [->| ->]; cbn; (eexists; split;
           [rewrite <- ?app_assoc; reflexivity|]);
          repeat (constructor; cbn; try done); eauto 8.
    + read_world. split_and!; try done.
      * eapply grows_trans; [exact Hg0|].
        apply grows_stores; cbn; eauto 8.
      * apply Forall_app. split; [done|]. constructor; [|done].
        apply andb_true_iff in Hpost as [Hpost _].
        exists sdp, out. split; [done|]. right. by split.
      * eexists. split; [reflexivity|].
        apply andb_true_iff in Hpost as [Hpost _].
        repeat (constructor; cbn; try done); eauto 8.
    + destruct (unlink_frame Handler sdp w0)
        as (-> & Hc & Hco & Ht & -> & -> & -> & _).
      split_and!; try done.
      * eapply grows_trans; [exact Hg0|].
        apply grows_stores; rewrite ?Ht, ?Hco, ?Hc; cbn; auto.
      * by rewrite Hc.
      * destruct (unlink_trace Handler sdp w0) as [->| ->]; cbn;
          (eexists; split;
           [rewrite <- ?app_assoc; first [reflexivity
                                         |symmetry; apply app_nil_r]|]);
          repeat (constructor; cbn; try done); eauto 8.
  - assert (Hpost : POST_CONVERT_MP3 cfg = true ∧ sdp' = sdp ∧ ogg = out).
    { destruct Hkind as [[_ H]|[? [_ H]]]; rewrite Hon in H; by inversion H. }
    destruct Hpost as (Hpost & -> & ->).
    unfold transcoder_exited.
    set (w1 := if bool_decide (code = Some 0%Z) && negb (KEEP_OGG cfg)
               then snd (try_catch (unlinkSync Handler out) w0) else w0).
    assert (H1 : recordings w1 = recordings w0 ∧ children w1 = children w0
      ∧ consumers w1 = consumers w0 ∧ plainTransports w1 = plainTransports w0
      ∧ listeners w1 = listeners w0 ∧ pending w1 = pending w0
      ∧ producers w1 = producers w0
      ∧ ∃ l, trace w1 = trace w0 ++ l
           ∧ Forall (λ en, action_ok cfg (act en)
                           ∧ match act en with
                             | Spawn _ _ | LogError | Unlink _ => True
                             | _ => False
                             end) l).
    { subst w1. destruct (bool_decide _ && negb (KEEP_OGG cfg)) eqn:Hk.
      - destruct (unlink_frame Handler out w0)
          as (-> & -> & -> & -> & -> & -> & -> & _).
        split_and!; try done.
        apply andb_true_iff in Hk as [_ Hk]. apply negb_true_iff in Hk.
        destruct (unlink_trace Handler out w0) as [->| ->];
          (eexists; split;
           [first [reflexivity|symmetry; apply app_nil_r]|]);
          repeat (constructor; cbn; try done); eauto 8.
      - split_and!; try done. exists []. by rewrite app_nil_r. }
    destruct H1 as (Hr1 & Hc1 & Hco1 & Ht1 & Hl1 & Hp1 & Hpr1 & l1 & Htr1 & Hl1ok).
    destruct (unlink_frame Handler sdp w1)
      as (-> & Hc & Hco & Ht & -> & -> & -> & _).
    rewrite Hr1, Hl1, Hp1, Hpr1. split_and!; try done.
    + eapply grows_trans; [exact Hg0|].
      apply grows_stores; rewrite ?Ht, ?Hco, ?Hc, ?Ht1, ?Hco1, ?Hc1; auto.
    + by rewrite Hc, Hc1.
    + destruct (unlink_trace Handler sdp w1) as [->| ->]; rewrite Htr1.
      * by exists l1.
      * exists (l1 ++ [logged Handler w1 (Unlink sdp)]).
        rewrite <- app_assoc. split; [done|].
        apply Forall_app. split; [done|].
        repeat (constructor; cbn; try done); eauto 8.
Qed.

(** ** Handing handles over *)

(** Handles stay exclusive when every owner keeps or drops what it holds,
    except that [o2] may take a handle that did not exist before, or the
    handle [o1] gives up. *)
Lemma exclusive_transfer (held held' : Owner → option nat) (n : nat) o1 o2 :
  exclusive held → (∀ o h, held o = Some h → (h < n)%nat) →
  (∀ o h, held' o = Some h →
     held o = Some h
     ∨ (o = o2 ∧ (n ≤ h)%nat)
     ∨ (o = o2 ∧ held o1 = Some h ∧ held' o1 = None)) →
  exclusive held'.
Proof.
  intros Hex Hb Hh oa ob h Hne Ha Hb'.
  assert (Hmoved : ∀ o, held' o = Some h → held o = Some h →
                        held o1 = Some h → held' o1 = None → False).
  { intros o Ho' Ho H1 H1'. apply (Hex o o1 h); [|done..].
    intros ->. congruence. }
  destruct (Hh _ _ Ha) as [Ha1|[[-> Ha1]|(-> & Ha1 & Ha2)]],
           (Hh _ _ Hb') as [Hb1|[[-> Hb1]|(-> & Hb1 & Hb2)]]; try done.
  - eauto.
  - apply Hb in Ha1. lia.
  - eauto.
  - apply Hb in Hb1. lia.
  - eauto.
Qed.

Lemma held_session_claimed w o r :
  held_session w o = Some r ↔ ∃ pid, claimed_session w o = Some (pid, r).
Proof.
  unfold held_session. destruct (claimed_session w o) as [[pid r']|]; cbn.
  - split; [intros [= ->]; eauto|]. by intros (? & [= _ ->]).
  - split; [done|]. by intros (? & [=]).
Qed.

Lemma held_consumer_claimed w o c :
  held_consumer w o = Some c
  ↔ ∃ pid r, claimed_session w o = Some (pid, r) ∧ consumer r = c.
Proof.
  unfold held_consumer, held_session.
  destruct (claimed_session w o) as [[pid r']|]; cbn.
  - split; [intros [= <-]; eauto|]. by intros (? & ? & [= _ <-] & <-).
  - split; [done|]. by intros (? & ? & [=] & _).
Qed.

Lemma held_child_claimed w o c :
  held_child w o = Some c
  ↔ ∃ pid r, claimed_session w o = Some (pid, r) ∧ ffmpeg r = c.
Proof.
  unfold held_child, held_session.
  destruct (claimed_session w o) as [[pid r']|]; cbn.
  - split; [intros [= <-]; eauto|]. by intros (? & ? & [= _ <-] & <-).
  - split; [done|]. by intros (? & ? & [=] & _).
Qed.

Lemma kills_pos proc l :
  kills proc l ≠ 0%nat → ∃ en sig, en ∈ l ∧ act en = Kill proc sig.
Proof.
  induction l as [|en l IH]; [done|].
  unfold kills in *. cbn. unfold is_kill_of at 1.
  destruct (act en) as [| | | | | | | | | |proc' sig| | | | |] eqn:Hact;
    try (intros H; destruct (IH H) as (en' & sig' & ? & ?);
         exists en', sig'; split; [by right|done]).
  destruct (Nat.eqb_spec proc' proc) as [->|].
  - intros _. exists en, sig. split; [by left|done].
  - intros H; destruct (IH H) as (en' & sig' & ? & ?).
    exists en', sig'. split; [by right|done].
Qed.

Lemma grows_children_length w w' :
  grows w w' → (length (children w) ≤ length (children w'))%nat.
Proof.
  intros (_ & _ & Hp).
  destruct (Nat.eq_dec (length (children w)) 0) as [->|Hne]; [lia|].
  destruct (lookup_lt_is_Some_2 (children w) (length (children w) - 1))
    as [ch Hch]; [lia|].
  destruct (Hp _ _ Hch) as (ch' & H & _). apply lookup_lt_Some in H. lia.
Qed.

Lemma consistent_transfer cfg w w' l :
  consistent cfg w →
  grows w w' →
  Forall (child_ok cfg) (children w') →
  trace w' = trace w ++ l →
  Forall (λ en, action_ok cfg (act en)) l →
  Forall (λ en, match act en with
                | Kill proc _ =>
                    (∃ o, held_child w o = Some proc)
                    ∧ ∀ o, held_child w' o ≠ Some proc
                | _ => True
                end) l →
  (∀ proc, (kills proc l ≤ 1)%nat) →
  listening w' →
  handover cfg w w' →
  consistent cfg w'.
Proof.
  intros Hw Hg Hch Htr Hact Hkill Hk1 Hlis (o1 & o2 & Hs & Ht).
  assert (Hsok : ∀ o pid r, claimed_session w' o = Some (pid, r) →
                            session_ok cfg w' pid r).
  { intros o pid r H.
    destruct (Hs _ _ _ H) as [H0|[(_ & _ & _ & H0)|(_ & H0 & _)]]; [|done|];
      eapply session_ok_grows; try exact Hg; by eapply (sessions_ok _ _ Hw). }
  assert (Hcb : ∀ o c, held_consumer w o = Some c →
                       (c < length (consumers w))%nat).
  { intros o c (pid & r & H & <-)%held_consumer_claimed.
    destruct (sessions_ok _ _ Hw _ _ _ H) as (_ & _ & (c & Hc & _) & _).
    by apply lookup_lt_Some in Hc. }
  assert (Hpb : ∀ o c, held_child w o = Some c →
                       (c < length (children w))%nat).
  { intros o c (pid & r & H & <-)%held_child_claimed.
    destruct (sessions_ok _ _ Hw _ _ _ H) as (_ & _ & _ & (c & Hc & _)).
    by apply lookup_lt_Some in Hc. }
  assert (Hnone : ∀ o, claimed_session w' o = None →
                       held_consumer w' o = None ∧ held_child w' o = None).
  { intros o H. unfold held_consumer, held_child, held_session.
    by rewrite H. }
  assert (Hkl : ∀ proc, kills proc l ≠ 0%nat →
            (∃ o, held_child w o = Some proc)
            ∧ ∀ o, held_child w' o ≠ Some proc).
  { intros proc (en & sig & Hin & Hen)%kills_pos.
    rewrite Forall_forall in Hkill. specialize (Hkill _ Hin).
    by rewrite Hen in Hkill. }
  assert (Hheld0 : ∀ o proc, held_child w' o = Some proc →
                             kills proc (trace w) = 0%nat).
  { intros o proc (pid & r & H & <-)%held_child_claimed.
    destruct (Hs _ _ _ H) as [H0|[(_ & _ & H0 & _)|(_ & H0 & _)]].
    - eapply (held_not_signalled _ _ Hw o), held_child_claimed; eauto.
    - by apply (signalled_exists _ _ Hw).
    - eapply (held_not_signalled _ _ Hw o1), held_child_claimed; eauto. }
  split.
  - done.
  - rewrite Htr. apply Forall_app. split; [apply (trace_ok _ _ Hw)|done].
  - intros o t H.
    destruct (Ht _ _ H) as [H0|[(_ & _ & H0)|(_ & H0 & _)]]; [|done|];
      apply (transports_exist _ _ Hw) in H0; destruct Hg as [? _]; lia.
  - done.
  - eapply (exclusive_transfer _ _ (length (plainTransports w)) o1 o2);
      [apply (transports_exclusive _ _ Hw)|apply (transports_exist _ _ Hw)|].
    intros o t H. destruct (Ht _ _ H) as [H0|[(-> & H0 & _)|H0]]; auto.
  - eapply (exclusive_transfer _ _ (length (consumers w)) o1 o2);
      [apply (consumers_exclusive _ _ Hw)|apply Hcb|].
    intros o c (pid & r & H & <-)%held_consumer_claimed.
    destruct (Hs _ _ _ H) as [H0|[(-> & H0 & _)|(-> & H0 & H1)]].
    + left. apply held_consumer_claimed. eauto.
    + right. left. done.
    + right. right. split; [done|]. split; [|by apply Hnone].
      apply held_consumer_claimed. eauto.
  - eapply (exclusive_transfer _ _ (length (children w)) o1 o2);
      [apply (children_exclusive _ _ Hw)|apply Hpb|].
    intros o c (pid & r & H & <-)%held_child_claimed.
    destruct (Hs _ _ _ H) as [H0|[(-> & _ & H0 & _)|(-> & H0 & H1)]].
    + left. apply held_child_claimed. eauto.
    + right. left. done.
    + right. right. split; [done|]. split; [|by apply Hnone].
      apply held_child_claimed. eauto.
  - intros o proc H. rewrite Htr, kills_app, (Hheld0 _ _ H). cbn.
    destruct (decide (kills proc l = 0%nat)) as [|Hne]; [done|].
    destruct (Hkl _ Hne) as [_ Hno]. by destruct (Hno o).
  - intros proc. rewrite Htr, kills_app.
    destruct (decide (kills proc l = 0%nat)) as [->|Hne].
    + pose proof (signalled_once _ _ Hw proc). lia.
    + destruct (Hkl _ Hne) as [[o Ho] _].
      rewrite (held_not_signalled _ _ Hw _ _ Ho). apply Hk1.
  - intros proc Hlen. rewrite Htr, kills_app.
    pose proof (grows_children_length _ _ Hg).
    rewrite (signalled_exists _ _ Hw) by lia. cbn.
    destruct (decide (kills proc l = 0%nat)) as [|Hne]; [done|].
    destruct (Hkl _ Hne) as [[o Ho] _]. apply Hpb in Ho. lia.
  - rewrite Htr. apply Forall_app. split.
    + eapply Forall_impl; [apply (signalled_recorder _ _ Hw)|].
      intros en. cbn. destruct (act en); try done.
      intros (ch & sdp & out & Hc & Hr).
      destruct Hg as (_ & _ & Hp). destruct (Hp _ _ Hc) as (ch' & ? & ? & ?).
      exists ch', sdp, out. split; [done|]. destruct Hr.
      split; congruence.
    + eapply Forall_impl; [exact Hkill|].
      intros en. cbn. destruct (act en); try done.
      intros [(o & (pid & r & H & <-)%held_child_claimed) _].
      destruct (sessions_ok _ _ Hw _ _ _ H) as (_ & _ & _ & (ch & Hc & Hr)).
      destruct Hg as (_ & _ & Hp). destruct (Hp _ _ Hc) as (ch' & ? & ? & ?).
      exists ch', (sdpFile r), (file r). split; [done|]. destruct Hr.
      split; congruence.
  - done.
Qed.

(** *** Ways of handing over *)

Lemma handover_same cfg w w' :
  pending w' = pending w → recordings w' = recordings w →
  handover cfg w w'.
Proof.
  intros Hp Hr. exists (Starting 0), (Starting 0). split.
  - intros [pid|tid] pid' r; cbn; rewrite ?Hr, ?Hp; auto.
  - intros [pid|tid] t; cbn; rewrite ?Hr, ?Hp; auto.
Qed.

(** A new invocation holds nothing. *)
Lemma handover_start cfg p w w' :
  pending w' = pending w ++ [AwaitPort p] → recordings w' = recordings w →
  handover cfg w w'.
Proof.
  intros Hp Hr. exists (Starting 0), (Starting 0). split.
  - intros [pid|tid] pid' r; cbn; rewrite ?Hr, ?Hp; [auto|].
    destruct (decide (tid < length (pending w))%nat).
    + rewrite lookup_app_l by done. auto.
    + rewrite lookup_app_r by lia.
      destruct (tid - length (pending w))%nat as [|[|]]; done.
  - intros [pid|tid] t; cbn; rewrite ?Hr, ?Hp; [auto|].
    destruct (decide (tid < length (pending w))%nat).
    + rewrite lookup_app_l by done. auto.
    + rewrite lookup_app_r by lia.
      destruct (tid - length (pending w))%nat as [|[|]]; done.
Qed.

(** A stop releases what the registry entry held. *)
Lemma handover_release cfg pid w w' :
  pending w' = pending w → recordings w' = delete pid (recordings w) →
  handover cfg w w'.
Proof.
  intros Hp Hr. exists (Starting 0), (Starting 0). split.
  - intros [pid0|tid] pid' r; cbn; rewrite ?Hr, ?Hp; [|auto].
    destruct (decide (pid0 = pid)) as [->|Hne].
    + by rewrite lookup_delete_eq.
    + rewrite lookup_delete_ne by done. auto.
  - intros [pid0|tid] t; cbn; rewrite ?Hr, ?Hp; [|auto].
    destruct (decide (pid0 = pid)) as [->|Hne].
    + by rewrite lookup_delete_eq.
    + rewrite lookup_delete_ne by done. auto.
Qed.

Lemma stop_handover cfg who e pid w :
  handover cfg w (snd (stopRecordingForProducer who e pid w)).
Proof.
  destruct (stop_frame who e pid w) as (Hrec & _ & _ & _ & _ & Hpen).
  by apply (handover_release cfg pid).
Qed.

(** The handles of an invocation as its promise settles. *)
Lemma settle_handover cfg tid e w :
  consistent cfg w → handover cfg w (step cfg (Settle tid e) w).
Proof.
  intros Hw. cbn [step].
  destruct (pending w !! tid) as [k|] eqn:Hk; [|by apply handover_same].
  pose proof (resume_start_pending cfg tid e k w) as Hpen.
  assert (Hb : ∀ t, task_transport k = Some t →
                    (t < length (plainTransports w))%nat).
  { intros t Ht. apply (transports_exist _ _ Hw (Starting tid)).
    cbn. by rewrite Hk. }
  pose proof (resume_start_outcome cfg tid e k w Hb) as Hout.
  destruct (resume_start cfg tid e k w) as [k' w0]. cbn [fst snd] in *.
  set (w' := with_pending _ w0).
  assert (Htid : (tid < length (pending w))%nat) by by eapply lookup_lt_Some.
  assert (Hmine : pending w' !! tid = Some k').
  { cbn. rewrite Hpen. by apply list_lookup_insert_eq. }
  assert (Hothers : ∀ tid', tid' ≠ tid →
            pending w' !! tid' = pending w !! tid').
  { intros tid' Hne. cbn. rewrite Hpen. by apply list_lookup_insert_ne. }
  assert (Hcs : claimed_session w (Starting tid) = task_session k).
  { cbn. by rewrite Hk. }
  assert (Hct : held_transport w (Starting tid) = task_transport k).
  { cbn. by rewrite Hk. }
  assert (Hcs' : claimed_session w' (Starting tid) = task_session k').
  { cbn [claimed_session]. by rewrite Hmine. }
  assert (Hct' : held_transport w' (Starting tid) = task_transport k').
  { cbn [held_transport]. by rewrite Hmine. }
  assert (Hos : ∀ tid', tid' ≠ tid →
            claimed_session w' (Starting tid')
            = claimed_session w (Starting tid')).
  { intros tid' Hne. cbn [claimed_session]. by rewrite Hothers. }
  assert (Hot : ∀ tid', tid' ≠ tid →
            held_transport w' (Starting tid')
            = held_transport w (Starting tid')).
  { intros tid' Hne. cbn [held_transport]. by rewrite Hothers. }
  destruct Hout as [(Hrec & Hli & Ht & Hs)
                   |[(Hrec & Hli & Ht & Ht' & Hs & Hlen)
                    |[(Hrec & Hli & Hs & p & r & Hs' & Ht & Ht' & Hc & Hf & Hok)
                     |(p & r & Hs & Ht & -> & Hrec & Hli)]]].
  - (* kept or dropped *)
    exists (Starting 0), (Starting 0). split.
    + intros [pid|tid'] pid' r; [cbn; rewrite Hrec; auto|].
      destruct (decide (tid' = tid)) as [->|Hne]; [|rewrite Hos; auto].
      rewrite Hcs', Hcs. destruct Hs as [-> | ->]; [done|auto].
    + intros [pid|tid'] t; [cbn; rewrite Hrec; auto|].
      destruct (decide (tid' = tid)) as [->|Hne]; [|rewrite Hot; auto].
      rewrite Hct', Hct. destruct Ht as [-> | ->]; [done|auto].
  - (* the plain transport is created *)
    exists (Starting 0), (Starting tid). split.
    + intros [pid|tid'] pid' r; [cbn; rewrite Hrec; auto|].
      destruct (decide (tid' = tid)) as [->|Hne]; [|rewrite Hos; auto].
      by rewrite Hcs', Hs.
    + intros [pid|tid'] t; [cbn; rewrite Hrec; auto|].
      destruct (decide (tid' = tid)) as [->|Hne]; [|rewrite Hot; auto].
      rewrite Hct', Ht'. intros [= <-]. right. left. cbn. split; [done|lia].
  - (* the consumer and the recorder are created *)
    exists (Starting 0), (Starting tid). split.
    + intros [pid|tid'] pid' r'; [cbn; rewrite Hrec; auto|].
      destruct (decide (tid' = tid)) as [->|Hne]; [|rewrite Hos; auto].
      rewrite Hcs', Hs'. intros [= <- <-]. right. left.
      split; [done|]. split; [lia|]. split; [lia|]. done.
    + intros [pid|tid'] t; [cbn; rewrite Hrec; auto|].
      destruct (decide (tid' = tid)) as [->|Hne]; [|rewrite Hot; auto].
      rewrite Hct', Hct, Ht', Ht. auto.
  - (* the session is registered *)
    exists (Starting tid), (Registered (producerId p)). split.
    + intros [pid|tid'] pid' r'.
      * intros H. cbn [claimed_session] in H.
        change (recordings w') with (recordings w0) in H. rewrite Hrec in H.
        destruct (decide (pid = producerId p)) as [->|Hne].
        -- rewrite lookup_insert_eq in H. cbn in H. injection H as <- <-.
           right. right. split; [done|]. by rewrite Hcs, Hcs'.
        -- rewrite lookup_insert_ne in H by done. by left.
      * destruct (decide (tid' = tid)) as [->|Hne]; [|rewrite Hos; auto].
        by rewrite Hcs'.
    + intros [pid|tid'] t.
      * intros H. cbn [held_transport] in H.
        change (recordings w') with (recordings w0) in H. rewrite Hrec in H.
        destruct (decide (pid = producerId p)) as [->|Hne].
        -- rewrite lookup_insert_eq in H. cbn in H. injection H as <-.
           right. right. split; [done|]. by rewrite Hct, Hct'.
        -- rewrite lookup_insert_ne in H by done. by left.
      * destruct (decide (tid' = tid)) as [->|Hne]; [|rewrite Hot; auto].
        by rewrite Hct'.
Qed.

Lemma step_handover cfg ev w :
  consistent cfg w → handover cfg w (step cfg ev w).
Proof.
  intros Hw.
  destruct ev as [p|p|tid e|pid e|pid s e|proc code signal e|path size|ms].
  - by apply (handover_start cfg p).
  - by apply (handover_start cfg p).
  - by apply settle_handover.
  - cbn [step]. destruct pid; [by apply handover_same|].
    apply stop_handover.
  - cbn [step]. unfold emit_signal.
    destruct (dispatch_either e pid s (listeners w) w) as [H|H];
      rewrite (same_but_producers_inv _ _ H).
    + destruct (stop_frame Handler e pid w) as (Hrec & _ & _ & _ & _ & Hpen).
      by apply (handover_release cfg pid).
    + by apply handover_same.
  - destruct (child_exit_effect cfg proc code signal e w
                (children_ok _ _ Hw)) as (Hrec & Hpen & _).
    by apply handover_same.
  - by apply handover_same.
  - by apply handover_same.
Qed.

(** ** Every step keeps the state consistent *)

Lemma Forall_no_kill (P : nat → Prop) cfg (l : list Entry) :
  Forall (λ en, action_ok cfg (act en)
                ∧ match act en with
                  | Kill _ _ | Unlink _ => False
                  | _ => True
                  end) l →
  Forall (λ en, action_ok cfg (act en)) l
  ∧ Forall (λ en, match act en with
                  | Kill proc _ => P proc
                  | _ => True
                  end) l
  ∧ ∀ proc, (kills proc l ≤ 1)%nat.
Proof.
  intros H. split; [|split].
  - eapply Forall_impl; [exact H|]. by intros en [? _].
  - eapply Forall_impl; [exact H|]. intros en [_ ?]. by destruct (act en).
  - intros proc. rewrite kills_none; [lia|].
    eapply Forall_impl; [exact H|]. intros en [_ ?]. by destruct (act en).
Qed.

Lemma Forall_no_kill' (P : nat → Prop) cfg (l : list Entry) :
  Forall (λ en, action_ok cfg (act en)
                ∧ match act en with
                  | Spawn _ _ | LogError | Unlink _ => True
                  | _ => False
                  end) l →
  Forall (λ en, action_ok cfg (act en)) l
  ∧ Forall (λ en, match act en with
                  | Kill proc _ => P proc
                  | _ => True
                  end) l
  ∧ ∀ proc, (kills proc l ≤ 1)%nat.
Proof.
  intros H. split; [|split].
  - eapply Forall_impl; [exact H|]. by intros en [? _].
  - eapply Forall_impl; [exact H|]. intros en [_ ?]. by destruct (act en).
  - intros proc. rewrite kills_none; [lia|].
    eapply Forall_impl; [exact H|]. intros en [_ ?]. by destruct (act en).
Qed.

(** Nothing the handles depend on changes. *)
Lemma consistent_frame cfg w w' :
  consistent cfg w →
  pending w' = pending w → recordings w' = recordings w →
  plainTransports w' = plainTransports w → consumers w' = consumers w →
  children w' = children w → trace w' = trace w →
  listening w' →
  consistent cfg w'.
Proof.
  intros Hw Hp Hr Ht Hc Hch Htr Hl.
  apply (consistent_transfer cfg w w' []); try done.
  - apply grows_stores; rewrite ?Ht, ?Hc, ?Hch; auto.
  - rewrite Hch. apply (children_ok _ _ Hw).
  - by rewrite Htr, app_nil_r.
  - intros proc. cbn. lia.
  - by apply handover_same.
Qed.

Lemma listening_frame w w' :
  listening w → producers w' = producers w → recordings w' = recordings w →
  listeners w' = listeners w → listening w'.
Proof. unfold listening. by intros H -> -> ->. Qed.

Lemma start_consistent cfg p en w w' :
  consistent cfg w →
  pending w' = pending w ++ [AwaitPort p] → recordings w' = recordings w →
  plainTransports w' = plainTransports w → consumers w' = consumers w →
  children w' = children w → trace w' = trace w ++ [en] →
  act en = ProbePort →
  listening w' →
  consistent cfg w'.
Proof.
  intros Hw Hp Hr Ht Hc Hch Htr Hen Hl.
  apply (consistent_transfer cfg w _ [en]); try done.
  - apply grows_stores; rewrite ?Ht, ?Hc, ?Hch; auto.
  - rewrite Hch. apply (children_ok _ _ Hw).
  - repeat constructor. by rewrite Hen.
  - repeat constructor. by rewrite Hen.
  - intros proc. unfold kills, is_kill_of. cbn. rewrite Hen. cbn. lia.
  - by apply (handover_start cfg p).
Qed.

Lemma spawn_task_frame p w :
  producers (spawn_task p w) = producers w
  ∧ recordings (spawn_task p w) = recordings w
  ∧ listeners (spawn_task p w) = listeners w.
Proof. done. Qed.

Lemma produce_listening cfg p w :
  listening w → listening (step cfg (Produce p) w).
Proof.
  intros [Hp Hr]. split.
  - intros pid p'. cbn. intros H.
    apply lookup_insert_Some in H as [[<- <-]|[Hne H]].
    + split; [done|]. intros s. apply elem_of_app. right.
      destruct s; [left|right; left].
    + destruct (Hp _ _ H) as [? Hin]. split; [done|].
      intros s. apply elem_of_app. left. apply Hin.
  - intros pid r. cbn. intros H s. apply elem_of_app. left.
    by apply (Hr _ r).
Qed.

Lemma stop_listening who e pid w :
  listening w → listening (snd (stopRecordingForProducer who e pid w)).
Proof.
  intros [Hp Hr].
  destruct (stop_frame who e pid w) as (Hrec & _ & Hprod & _ & Hlis & _).
  split.
  - intros pid' p. rewrite Hprod, Hlis. apply Hp.
  - intros pid' r. rewrite Hrec, Hlis, lookup_delete_Some.
    intros [_ H]. by apply (Hr _ r).
Qed.

Lemma dispatch_listening e pid s w :
  listening w → listening (emit_signal e pid s w).
Proof.
  intros Hw. unfold emit_signal.
  destruct (dispatch_producers e pid s (listeners w) w) as (Hsub & _ & _).
  assert (Hrec : ∀ pid' r,
            recordings (dispatch e pid s (listeners w) w) !! pid' = Some r →
            recordings w !! pid' = Some r).
  { intros pid' r.
    destruct (dispatch_either e pid s (listeners w) w) as [H|H];
      rewrite (same_but_producers_recordings _ _ H); [|done].
    destruct (stop_frame Handler e pid w) as (-> & _).
    rewrite lookup_delete_Some. tauto. }
  destruct Hw as [Hp Hr]. split.
  - intros pid' p H. rewrite dispatch_listeners. by apply Hp, Hsub.
  - intros pid' r H. rewrite dispatch_listeners. by apply (Hr _ r), Hrec.
Qed.

(** A stop releases the handles of the session. *)
Lemma stop_consistent cfg who e pid w :
  consistent cfg w →
  consistent cfg (snd (stopRecordingForProducer who e pid w)).
Proof.
  intros Hw. set (w' := snd (stopRecordingForProducer who e pid w)).
  destruct (stop_frame who e pid w)
    as (Hrec & _ & Hprod & _ & Hlis & Hpen). fold w' in Hrec, Hpen.
  destruct (stop_kills who e pid w 0) as (l & Htr & Hl & _).
  assert (Hclaim : ∀ o pid' r, claimed_session w' o = Some (pid', r) →
            claimed_session w o = Some (pid', r) ∧ o ≠ Registered pid).
  { intros [pid0|tid] pid' r; cbn; rewrite ?Hrec, ?Hpen; [|done].
    destruct (decide (pid0 = pid)) as [->|Hne].
    - by rewrite lookup_delete_eq.
    - rewrite lookup_delete_ne by done. intros H. split; congruence. }
  apply (consistent_transfer cfg w w' l); try done.
  - apply stop_grows.
  - pose proof (children_ok _ _ Hw) as Hch.
    destruct (recordings w !! pid) as [rec|] eqn:Hr.
    + destruct (stop_effect who e pid rec w Hr)
        as (bc & bt & bk & _ & _ & Hp & _).
      fold w' in Hp. rewrite Hp. destruct bk; [|done].
      apply children_ok_alter; [|done].
      intros ch. unfold deliver. by destruct (exited ch).
    + subst w'. by rewrite stop_absent.
  - eapply Forall_impl; [exact Hl|]. intros en. cbn.
    destruct (act en); try done. by intros [? _].
  - eapply Forall_impl; [exact Hl|]. intros en. cbn.
    destruct (act en) as [| | | | | | | | | |proc sig| | | | |]; try done.
    intros [_ Hproc]. split.
    + exists (Registered pid). unfold held_child, held_session. cbn.
      destruct (recordings w !! pid); [|done]. cbn in *. done.
    + intros o (pid' & r & H & Hf)%held_child_claimed.
      destruct (Hclaim _ _ _ H) as [H0 Hne].
      apply (children_exclusive _ _ Hw o (Registered pid) proc Hne).
      * apply held_child_claimed. eauto.
      * unfold held_child, held_session. cbn.
        destruct (recordings w !! pid); [|done]. cbn in *. done.
  - intros proc. by destruct (stop_kills who e pid w proc) as (l' & Htr' & _ & ? & _);
      rewrite Htr in Htr'; apply app_inv_head in Htr'; subst.
  - by apply stop_listening, (listeners_ok _ _ Hw).
  - apply stop_handover.
Qed.

Lemma settle_consistent cfg tid e w :
  consistent cfg w → consistent cfg (step cfg (Settle tid e) w).
Proof.
  intros Hw. pose proof (settle_handover cfg tid e w Hw) as Hho.
  cbn [step] in *.
  destruct (pending w !! tid) as [k|] eqn:Hk; [|done].
  pose proof (resume_start_pending cfg tid e k w) as Hpen.
  pose proof (resume_start_grows cfg tid e k w) as Hg.
  pose proof (resume_start_producers cfg tid e k w) as Hprod.
  pose proof (resume_start_children_ok cfg tid e k w) as Hch.
  destruct (resume_start_trace cfg tid e k w) as (l & Htr & Hl).
  assert (Hb : ∀ t, task_transport k = Some t →
                    (t < length (plainTransports w))%nat).
  { intros t Ht. apply (transports_exist _ _ Hw (Starting tid)).
    cbn. by rewrite Hk. }
  pose proof (resume_start_outcome cfg tid e k w Hb) as Hout.
  destruct (resume_start cfg tid e k w) as [k' w0]. cbn [fst snd] in *.
  set (w' := with_pending _ w0) in *.
  assert (Hg' : grows w w').
  { destruct Hg as (? & ? & ?). by split. }
  assert (Hch' : Forall (child_ok cfg) (children w')).
  { cbn. destruct Hch as [->|(ch & -> & Hok)]; [apply (children_ok _ _ Hw)|].
    apply Forall_app. split; [apply (children_ok _ _ Hw)|by constructor]. }
  destruct (Forall_no_kill
              (λ proc, (∃ o, held_child w o = Some proc)
                       ∧ ∀ o, held_child w' o ≠ Some proc) cfg l Hl)
    as (Hl1 & Hl2 & Hl3).
  apply (consistent_transfer cfg w w' l); try done.
  destruct (listeners_ok _ _ Hw) as [Hp Hr].
  assert (Hrec : recordings w0 = recordings w ∧ listeners w0 = listeners w
    ∨ ∃ p r, recordings w0 = <[producerId p := r]> (recordings w)
        ∧ listeners w0
          = listeners w ++ [(producerId p, transportclose, Cleanup);
                            (producerId p, producerclose, Cleanup)]).
  { destruct Hout as [(? & ? & _)|[(? & ? & _)|[(? & ? & _)
                     |(p & r & _ & _ & _ & ? & ?)]]]; eauto 6. }
  destruct Hrec as [[Hrec Hli]|(p & r & Hrec & Hli)].
  - apply (listening_frame w); done.
  - split.
    + intros pid p'. cbn. rewrite Hprod, Hli. intros H.
      destruct (Hp _ _ H) as [? Hin]. split; [done|].
      intros s. apply elem_of_app. left. apply Hin.
    + intros pid r'. cbn. rewrite Hrec, Hli. intros H s.
      apply lookup_insert_Some in H as [[<- <-]|[Hne H]].
      * apply elem_of_app. right. destruct s; [left|right; left].
      * apply elem_of_app. left. by apply (Hr _ r').
Qed.

Lemma step_consistent cfg ev w :
  consistent cfg w → consistent cfg (step cfg ev w).
Proof.
  intros Hw.
  destruct ev as [p|p|tid e|pid e|pid s e|proc code signal e|path size|ms].
  - eapply (start_consistent cfg p _ w); try done.
    by apply produce_listening, (listeners_ok _ _ Hw).
  - eapply (start_consistent cfg p _ w); try done.
    apply (listening_frame w); [apply (listeners_ok _ _ Hw)|done..].
  - by apply settle_consistent.
  - cbn [step]. destruct pid; [done|]. by apply stop_consistent.
  - cbn [step].
    pose proof (dispatch_listening e pid s w (listeners_ok _ _ Hw)) as Hl.
    unfold emit_signal in *.
    destruct (dispatch_either e pid s (listeners w) w) as [H|H];
      apply same_but_producers_inv in H; rewrite H in Hl |- *.
    + by apply (consistent_frame cfg
                  (snd (stopRecordingForProducer Handler e pid w)));
        [apply stop_consistent|..].
    + by apply (consistent_frame cfg w).
  - destruct (child_exit_effect cfg proc code signal e w
                (children_ok _ _ Hw))
      as (Hrec & Hpen & Hlis & Hprod & Hg & Hch & l & Htr & Hl).
    destruct (Forall_no_kill'
                (λ pr, (∃ o, held_child w o = Some pr)
                       ∧ ∀ o, held_child
                                (step cfg (ChildExit proc code signal e) w)
                                o ≠ Some pr) cfg l Hl)
      as (Hl1 & Hl2 & Hl3).
    apply (consistent_transfer cfg w _ l); try done.
    + apply (listening_frame w); [apply (listeners_ok _ _ Hw)|done..].
    + by apply handover_same.
  - apply (consistent_frame cfg w); try done;
    apply (listening_frame w); [apply (listeners_ok _ _ Hw)|done..].
  - apply (consistent_frame cfg w); try done;
    apply (listening_frame w); [apply (listeners_ok _ _ Hw)|done..].
Qed.

Lemma boot_consistent cfg : consistent cfg boot.
Proof.
  split; try done; try (by constructor); try (by intros [] ?);
    try (by intros [] ? ?); try (by intros [] [] ? ?).
Qed.

Lemma run_consistent_from cfg evs w :
  consistent cfg w → consistent cfg (run cfg evs w).
Proof.
  revert w. induction evs as [|ev evs IH]; intros w Hw; [done|].
  cbn. by apply IH, step_consistent.
Qed.

Lemma run_consistent cfg evs : consistent cfg (run cfg evs boot).
Proof. apply run_consistent_from, boot_consistent. Qed.

(** ** File names with different extensions *)

Lemma append_same_length (a b x y : string) :
  a +:+ x = b +:+ y → String.length x = String.length y → x = y.
Proof.
  revert b. induction a as [|c a IH]; intros [|c' b] H Hl.
  - done.
  - apply (f_equal String.length) in H. rewrite !length_append in H.
    cbn in H. lia.
  - apply (f_equal String.length) in H. rewrite !length_append in H.
    cbn in H. lia.
  - rewrite !append_cons in H. injection H as _ H. eauto.
Qed.

Lemma path_ext_distinct dir dir' a b (x y : string) :
  String.length x = String.length y → x ≠ y →
  path_join dir (a +:+ x) ≠ path_join dir' (b +:+ y).
Proof.
  unfold path_join. intros Hl Hne H. rewrite <- !append_assoc in H.
  by apply append_same_length in H.
Qed.

(** Descriptors, raw files and derived files never share a name, also
    across sessions. *)
Lemma session_files_distinct cfg d p d' p' :
  sdp_path cfg d p ≠ ogg_path cfg d' p'
  ∧ sdp_path cfg d p ≠ mp3_path cfg d' p'
  ∧ ogg_path cfg d p ≠ mp3_path cfg d' p'.
Proof. repeat split; by apply path_ext_distinct. Qed.

(** ** Properties of every reachable state *)









(** ** Stopping one session leaves the others alone *)

Lemma stop_untouched cfg who e pid w o r :
  consistent cfg w → o ≠ Registered pid → held_session w o = Some r →
  untouched r w (snd (stopRecordingForProducer who e pid w)).
Proof.
  intros Hw Hne Ho.
  destruct (recordings w !! pid) as [rec|] eqn:Hrec;
    [|by rewrite stop_absent].
  destruct (stop_effect who e pid rec w Hrec)
    as (bc & bt & bk & Hc & Ht & Hp & _).
  assert (Hmine : held_session w (Registered pid) = Some rec).
  { unfold held_session. cbn. by rewrite Hrec. }
  assert (Hot : held_transport w o = Some (transport r)).
  { apply held_session_claimed in Ho as [pid' Ho]. revert Ho.
    destruct o as [pid0|tid]; cbn.
    - destruct (recordings w !! pid0); cbn; [|done]. by intros [= _ ->].
    - destruct (pending w !! tid) as [[]|]; cbn; try done;
        by intros [= _ ->]. }
  split; [|split].
  - rewrite Ht. destruct bt; [|done]. apply list_lookup_alter_ne.
    intros Heq.
    apply (transports_exclusive _ _ Hw o (Registered pid) (transport r));
      [done..|]. cbn. rewrite Hrec. cbn. by rewrite Heq.
  - rewrite Hc. destruct bc; [|done]. apply list_lookup_alter_ne.
    intros Heq.
    apply (consumers_exclusive _ _ Hw o (Registered pid) (consumer r));
      [done|..]; unfold held_consumer; rewrite ?Ho, ?Hmine; cbn;
      by rewrite ?Heq.
  - rewrite Hp. destruct bk; [|done]. apply list_lookup_alter_ne.
    intros Heq.
    apply (children_exclusive _ _ Hw o (Registered pid) (ffmpeg r));
      [done|..]; unfold held_child; rewrite ?Ho, ?Hmine; cbn;
      by rewrite ?Heq.
Qed.

Lemma untouched_same_but_producers r w w1 w2 :
  same_but_producers w2 w1 → untouched r w w1 → untouched r w w2.
Proof. intros H. by rewrite (same_but_producers_inv _ _ H). Qed.

Lemma untouched_refl r w : untouched r w w.
Proof. done. Qed.

Lemma stops_untouched cfg ev pid w o r :
  consistent cfg w → stops pid ev →
  o ≠ Registered pid → held_session w o = Some r →
  untouched r w (step cfg ev w)
  ∧ held_session (step cfg ev w) o = Some r.
Proof.
  intros Hw Hev Hne Ho.
  assert (Hstop : ∀ who e,
    untouched r w (snd (stopRecordingForProducer who e pid w))
    ∧ held_session (snd (stopRecordingForProducer who e pid w)) o = Some r).
  { intros who e. split; [by eapply stop_untouched|].
    destruct (stop_frame who e pid w) as (Hrec & _ & _ & _ & _ & Hpen).
    revert Ho. unfold held_session. destruct o as [pid'|tid]; cbn.
    - rewrite Hrec, lookup_delete_ne; [done|]. by intros ->.
    - by rewrite Hpen. }
  destruct ev as [| | |pid' e|pid' s e| | |]; try done; cbn in Hev; subst.
  - cbn [step]. destruct pid; [done|]. apply Hstop.
  - cbn [step]. unfold emit_signal.
    destruct (dispatch_either e pid s (listeners w) w) as [H|H];
      rewrite (same_but_producers_inv _ _ H).
    + destruct (Hstop Handler e) as [H1 H2]. split; [done|].
      revert H2. unfold held_session. by destruct o.
    + split; [done|]. revert Ho. unfold held_session. by destruct o.
Qed.

(** X5. POST /stop-recording for a producer, or a close signal of that
    producer, leaves every session registered for another producer in the
    registry and every session that is still starting, for any producer,
    with its invocation; the plain transport, the consumer and the
    recorder of such a session are exactly as they were. *)
Theorem X5_stop_leaves_other_sessions cfg evs ev pid :
  let w := run cfg evs boot in
  stops pid ev →
  (∀ pid' r, pid' ≠ pid → recordings w !! pid' = Some r →
     recordings (step cfg ev w) !! pid' = Some r
     ∧ untouched r w (step cfg ev w))
  ∧ (∀ tid k pid' r, pending w !! tid = Some k →
       task_session k = Some (pid', r) →
       pending (step cfg ev w) !! tid = Some k
       ∧ untouched r w (step cfg ev w)).
Proof.
  cbn zeta. intros Hev. pose proof (run_consistent cfg evs) as Hw.
  set (w := run cfg evs boot) in *. split.
  - intros pid' r Hne Hr.
    destruct (stops_untouched cfg ev pid w (Registered pid') r Hw Hev)
      as [H1 H2]; [congruence|by unfold held_session; cbn; rewrite Hr|].
    split; [|done]. revert H2. unfold held_session. cbn.
    destruct (recordings (step cfg ev w) !! pid'); cbn;
      [by intros [= ->]|done].
  - intros tid k pid' r Hk Hs.
    destruct (stops_untouched cfg ev pid w (Starting tid) r Hw Hev)
      as [H1 H2]; [done|by unfold held_session; cbn; rewrite Hk; cbn;
                          rewrite Hs|].
    split; [|done].
    assert (pending (step cfg ev w) = pending w) as ->; [|done].
    destruct ev as [| | |pid0 e|pid0 s e| | |]; try done.
    + cbn [step]. destruct pid0; [done|].
      by destruct (stop_frame Handler e (String a pid0) w)
        as (_ & _ & _ & _ & _ & ->).
    + cbn [step]. unfold emit_signal.
      destruct (dispatch_either e pid0 s (listeners w) w) as [H|H];
        rewrite (same_but_producers_inv _ _ H); cbn; [|done].
      by destruct (stop_frame Handler e pid0 w) as (_ & _ & _ & _ & _ & ->).
Qed.

(** ** Signals *)

(** X6. The only signal the server sends is SIGINT; it sends it to recorders
    only, never to a transcoder, and to each process at most once. *)
Theorem X6_recorders_signalled_once cfg evs :
  let w := run cfg evs boot in
  Forall
    (λ en, match act en with
           | Kill proc sig =>
               sig = "SIGINT"
               ∧ ∃ ch d p,
                   children w !! proc = Some ch
                   ∧ argv ch
                     = recorder_args (sdp_path cfg d p) (ogg_path cfg d p)
                   ∧ onExit ch
                     = OnRecorderExit (ogg_path cfg d p) (sdp_path cfg d p)
           | _ => True
           end)
    (trace w)
  ∧ ∀ proc, (kills proc (trace w) ≤ 1)%nat.
Proof.
  cbn zeta. pose proof (run_consistent cfg evs) as Hw.
  split; [|apply (signalled_once _ _ Hw)].
  pose proof (children_ok _ _ Hw) as Hch.
  pose proof (trace_ok _ _ Hw) as Htr.
  pose proof (signalled_recorder _ _ Hw) as Hk.
  apply Forall_forall. intros en Hen.
  rewrite Forall_forall in Htr, Hk.
  specialize (Htr _ Hen). specialize (Hk _ Hen). cbn in Htr.
  destruct (act en); try done.
  split; [done|]. destruct Hk as (ch & sdp & out & Hc & Ha & Ho).
  pose proof (Forall_lookup_1 _ _ _ _ Hch Hc)
    as (sdp' & out' & (d & p & -> & ->) & Hkind).
  exists ch, d, p. split; [done|].
  destruct Hkind as [[]|(_ & _ & Ho')]; [done|]. congruence.
Qed.

(** ** Close signals in a reachable state *)

(** X7. When a producer emits ['transportclose'] or ['producerclose'], it
    leaves the [producers] map and its session, if one is registered, is
    stopped and leaves the registry; the other producers and their
    registry entries stay. *)
Theorem X7_close_signal_unlists_and_stops cfg evs pid s e :
  let w := run cfg evs boot in
  let w' := step cfg (ProducerSignal pid s e) w in
  producers w' !! pid = None
  ∧ recordings w' !! pid = None
  ∧ same_but_producers w' (snd (stopRecordingForProducer Handler e pid w))
  ∧ ∀ pid', pid' ≠ pid →
      producers w' !! pid' = producers w !! pid'
      ∧ recordings w' !! pid' = recordings w !! pid'.
Proof.
  cbn zeta. pose proof (run_consistent cfg evs) as Hw.
  set (w := run cfg evs boot) in *. cbn [step]. unfold emit_signal.
  destruct (listeners_ok _ _ Hw) as [Hp Hr].
  destruct (dispatch_producers e pid s (listeners w) w)
    as (Hsub & Hother & Hdel).
  assert (Hstop : same_but_producers (dispatch e pid s (listeners w) w)
                    (snd (stopRecordingForProducer Handler e pid w))).
  { destruct (recordings w !! pid) as [r|] eqn:Hrec.
    - apply dispatch_cleanup; [by apply (Hr _ r)|done].
    - rewrite stop_absent by done. by apply dispatch_stopped. }
  pose proof (same_but_producers_recordings _ _ Hstop) as Hrecs.
  destruct (stop_frame Handler e pid w) as (Hdelrec & _).
  split; [|split; [|split; [done|]]].
  - destruct (producers (dispatch _ _ _ _ _) !! pid) as [p|] eqn:Hpid;
      [|done].
    apply Hsub in Hpid. destruct (Hp _ _ Hpid) as [_ Hin].
    specialize (Hdel (Hin s)). by rewrite Hdel in *.
  - rewrite Hrecs. apply stop_recordings.
  - intros pid' Hne. split; [by apply Hother|].
    rewrite Hrecs, Hdelrec. by apply lookup_delete_ne.
Qed.

(** ** Files the server leaves alone *)

Lemma resume_start_files cfg tid e k w :
  files (snd (resume_start cfg tid e k w)) = files w
  ∨ ∃ p f, files (snd (resume_start cfg tid e k w))
           = <[sdp_path cfg (date e) p := f]> (files w).
Proof. segment k; eauto. Qed.

Lemma child_exit_files cfg proc code signal e w :
  Forall (child_ok cfg) (children w) →
  let w' := step cfg (ChildExit proc code signal e) w in
  files w' = files w
  ∨ ∃ sdp out, session_paths cfg sdp out
      ∧ (files w' = delete sdp (files w)
         ∨ (POST_CONVERT_MP3 cfg = true ∧ KEEP_OGG cfg = false
            ∧ files w' = delete sdp (delete out (files w)))).
Proof.
  intros Hok. cbn zeta. unfold step.
  destruct (children w !! proc) as [ch|] eqn:Hch; [|by left].
  destruct (exited ch) eqn:Hex; [by left|].
  pose proof (Forall_lookup_1 _ _ _ _ Hok Hch) as (sdp & out & Hp & Hkind).
  set (w0 := with_children _ w).
  destruct (onExit ch) as [out' sdp'|ogg mp3 sdp'] eqn:Hon.
  - assert (sdp' = sdp ∧ out' = out) as [-> ->].
    { destruct Hkind as [[_ H]|[_ [_ H]]]; rewrite Hon in H; by inversion H. }
    destruct (converts cfg e code signal out w0) eqn:Hc.
    + left. by rewrite recorder_exited_converts.
    + right. exists sdp, out. split; [done|]. left.
      by destruct (recorder_exited_no_conversion cfg Handler e out sdp code
                     signal w0 Hc) as [-> _].
  - assert (Hpost : POST_CONVERT_MP3 cfg = true ∧ sdp' = sdp ∧ ogg = out).
    { destruct Hkind as [[_ H]|[? [_ H]]]; rewrite Hon in H; by inversion H. }
    destruct Hpost as (Hpost & -> & ->).
    right. exists sdp, out. split; [done|].
    rewrite transcoder_exited_files.
    destruct (bool_decide _ && negb (KEEP_OGG cfg)) eqn:Hk; [|by left].
    right. apply andb_true_iff in Hk as [_ Hk]. apply negb_true_iff in Hk.
    done.
Qed.

(** What a step can do to the file at [path]. *)
Lemma step_files cfg ev w path :
  consistent cfg w →
  files (step cfg ev w) !! path = files w !! path
  ∨ (∃ size, ev = ExternalWrite path size)
  ∨ (∃ d p, path = sdp_path cfg d p)
  ∨ (POST_CONVERT_MP3 cfg = true ∧ KEEP_OGG cfg = false
     ∧ ∃ d p, path = ogg_path cfg d p).
Proof.
  intros Hw.
  destruct ev as [p|p|tid e|pid e|pid s e|proc code signal e|path' size|ms].
  - by left.
  - by left.
  - cbn [step]. destruct (pending w !! tid) as [k|]; [|by left].
    destruct (resume_start_files cfg tid e k w) as [H|(p & f & H)];
      destruct (resume_start cfg tid e k w) as [k' w']; cbn in *;
      rewrite H; [by left|].
    destruct (decide (path = sdp_path cfg (date e) p)) as [->|Hne];
      [eauto 6|]. left. by apply lookup_insert_ne.
  - left. cbn [step]. destruct pid; [done|].
    by destruct (stop_frame Handler e (String a pid) w)
      as (_ & _ & _ & -> & _).
  - left. cbn [step]. unfold emit_signal.
    destruct (dispatch_either e pid s (listeners w) w) as [H|H];
      rewrite (same_but_producers_inv _ _ H); cbn; [|done].
    by destruct (stop_frame Handler e pid w) as (_ & _ & _ & -> & _).
  - destruct (child_exit_files cfg proc code signal e w (children_ok _ _ Hw))
      as [->|(sdp & out & (d & p & -> & ->) & [->|(Hp & Hk & ->)])];
      [by left|..].
    + destruct (decide (path = sdp_path cfg d p)) as [->|Hne]; [eauto 6|].
      left. by apply lookup_delete_ne.
    + destruct (decide (path = sdp_path cfg d p)) as [->|Hne]; [eauto 6|].
      destruct (decide (path = ogg_path cfg d p)) as [->|Hne']; [eauto 10|].
      left. by rewrite !lookup_delete_ne.
  - cbn [step files with_files].
    destruct (decide (path = path')) as [->|Hne]; [eauto|].
    left. by apply lookup_insert_ne.
  - by left.
Qed.

Lemma files_safe cfg w evs path :
  consistent cfg w →
  (∀ d p, path ≠ sdp_path cfg d p) →
  (POST_CONVERT_MP3 cfg = true → KEEP_OGG cfg = false →
   ∀ d p, path ≠ ogg_path cfg d p) →
  Forall (λ ev, ∀ size, ev ≠ ExternalWrite path size) evs →
  files (run cfg evs w) !! path = files w !! path.
Proof.
  intros Hw Hsdp Hogg Hevs. revert w Hw.
  induction Hevs as [|ev evs Hev _ IH]; intros w Hw; [done|].
  cbn [run]. rewrite IH by by apply step_consistent.
  destruct (step_files cfg ev w path Hw)
    as [H|[[size ->]|[(d & p & ->)|(Hp & Hk & d & p & ->)]]].
  - done.
  - by destruct (Hev size).
  - by destruct (Hsdp d p).
  - by destruct (Hogg Hp Hk d p).
Qed.


(** ** Objects nobody holds any more *)

Lemma handover_transport_unheld cfg w w' t :
  handover cfg w w' → (t < length (plainTransports w))%nat →
  (∀ o, held_transport w o ≠ Some t) → ∀ o, held_transport w' o ≠ Some t.
Proof.
  intros (o1 & o2 & _ & Ht) Hlt Hun o Ho.
  destruct (Ht _ _ Ho) as [H|[(_ & H & _)|(_ & H & _)]];
    [by apply (Hun o)|lia|by apply (Hun o1)].
Qed.

Lemma handover_consumer_unheld cfg w w' c :
  handover cfg w w' → (c < length (consumers w))%nat →
  (∀ o, held_consumer w o ≠ Some c) → ∀ o, held_consumer w' o ≠ Some c.
Proof.
  intros (o1 & o2 & Hs & _) Hlt Hun o
    (pid & r & Ho & <-)%held_consumer_claimed.
  destruct (Hs _ _ _ Ho) as [H|[(_ & H & _)|(_ & H & _)]]; [|lia|].
  - apply (Hun o), held_consumer_claimed. eauto.
  - apply (Hun o1), held_consumer_claimed. eauto.
Qed.

Lemma handover_child_unheld cfg w w' proc :
  handover cfg w w' → (proc < length (children w))%nat →
  (∀ o, held_child w o ≠ Some proc) → ∀ o, held_child w' o ≠ Some proc.
Proof.
  intros (o1 & o2 & Hs & _) Hlt Hun o
    (pid & r & Ho & <-)%held_child_claimed.
  destruct (Hs _ _ _ Ho) as [H|[(_ & _ & H & _)|(_ & H & _)]]; [|lia|].
  - apply (Hun o), held_child_claimed. eauto.
  - apply (Hun o1), held_child_claimed. eauto.
Qed.

(** A segment of startRecordingForProducer touches the objects of its
    own invocation only. *)
Lemma resume_start_objects cfg tid e k w :
  (∀ t, (t < length (plainTransports w))%nat → task_transport k ≠ Some t →
     plainTransports (snd (resume_start cfg tid e k w)) !! t
     = plainTransports w !! t)
  ∧ (∀ c, (c < length (consumers w))%nat →
       consumer <$> (snd <$> task_session k) ≠ Some c →
       consumers (snd (resume_start cfg tid e k w)) !! c = consumers w !! c)
  ∧ (∀ proc, (proc < length (children w))%nat →
       children (snd (resume_start cfg tid e k w)) !! proc
       = children w !! proc).
Proof.
  split; [|split].
  - intros t Hlt Hne. segment k; try done; cbn in Hne;
      rewrite ?lookup_app_l by (rewrite ?length_alter; done);
      rewrite ?list_lookup_alter_ne by congruence; done.
  - intros c Hlt Hne. segment k; try done; cbn in Hne;
      rewrite ?lookup_app_l by done;
      rewrite ?list_lookup_alter_ne by congruence; done.
  - intros proc Hlt. segment k; try done;
      rewrite ?lookup_app_l by done; done.
Qed.

(** The exit of a child changes no transport and no consumer, and no
    [killed] flag. *)
Lemma child_exit_objects cfg proc code signal e w :
  let w' := step cfg (ChildExit proc code signal e) w in
  plainTransports w' = plainTransports w ∧ consumers w' = consumers w
  ∧ ∀ i, (i < length (children w))%nat →
         killed <$> children w' !! i = killed <$> children w !! i.
Proof.
  cbn zeta. unfold step.
  destruct (children w !! proc) as [ch|] eqn:Hch; [|done].
  destruct (exited ch) eqn:Hex; [done|].
  set (w0 := with_children _ w).
  assert (H0 : ∀ i, killed <$> children w0 !! i = killed <$> children w !! i).
  { intros i. subst w0. cbn. rewrite list_lookup_alter.
    case_decide; [subst|done]. by rewrite Hch. }
  assert (Hlen : length (children w0) = length (children w)).
  { subst w0. cbn. by rewrite length_alter. }
  destruct (onExit ch) as [out sdp|ogg mp3 sdp].
  - unfold recorder_exited, convertOggToMp3, throw, perform.
    destruct (POST_CONVERT_MP3 cfg && _); [destruct (spawnThrows e)|].
    + destruct (unlink_frame Handler sdp (emit Handler LogError w0))
        as (_ & -> & -> & -> & _). done.
    + read_world. split; [done|]. split; [done|]. intros i Hi.
      rewrite lookup_app_l by lia. apply H0.
    + destruct (unlink_frame Handler sdp w0) as (_ & -> & -> & -> & _). done.
  - unfold transcoder_exited.
    destruct (bool_decide _ && _).
    + destruct (unlink_frame Handler sdp
                  (snd (try_catch (unlinkSync Handler ogg) w0)))
        as (_ & -> & -> & -> & _).
      destruct (unlink_frame Handler ogg w0) as (_ & -> & -> & -> & _). done.
    + destruct (unlink_frame Handler sdp w0) as (_ & -> & -> & -> & _). done.
Qed.

Lemma kills_trace_app proc w w' l :
  trace w' = trace w ++ l → kills proc l = 0%nat →
  kills proc (trace w') = kills proc (trace w).
Proof. intros -> H. rewrite kills_app, H. lia. Qed.

(** A stop touches the objects of the registry entry only. *)
Lemma stop_objects cfg who e pid w :
  consistent cfg w →
  let w' := snd (stopRecordingForProducer who e pid w) in
  (∀ t, (∀ o, held_transport w o ≠ Some t) →
     plainTransports w' !! t = plainTransports w !! t)
  ∧ (∀ c, (∀ o, held_consumer w o ≠ Some c) →
       consumers w' !! c = consumers w !! c)
  ∧ (∀ proc, (∀ o, held_child w o ≠ Some proc) →
       children w' !! proc = children w !! proc
       ∧ kills proc (trace w') = kills proc (trace w)).
Proof.
  intros Hw. cbn zeta.
  destruct (recordings w !! pid) as [rec|] eqn:Hrec;
    [|by rewrite stop_absent].
  destruct (stop_effect who e pid rec w Hrec)
    as (bc & bt & bk & Hc & Ht & Hp & _).
  assert (Hmine : held_session w (Registered pid) = Some rec).
  { unfold held_session. cbn. by rewrite Hrec. }
  split; [|split].
  - intros t Hun. rewrite Ht. destruct bt; [|done].
    apply list_lookup_alter_ne. intros <-.
    apply (Hun (Registered pid)). cbn. by rewrite Hrec.
  - intros c Hun. rewrite Hc. destruct bc; [|done].
    apply list_lookup_alter_ne. intros <-.
    apply (Hun (Registered pid)). unfold held_consumer. by rewrite Hmine.
  - intros proc Hun.
    assert (Hne : ffmpeg rec ≠ proc).
    { intros <-. apply (Hun (Registered pid)). unfold held_child.
      by rewrite Hmine. }
    split.
    + rewrite Hp. destruct bk; [|done]. by apply list_lookup_alter_ne.
    + destruct (stop_kills who e pid w proc) as (l & Htr & _ & _ & H0).
      apply (kills_trace_app _ _ _ l); [done|]. apply H0.
      rewrite Hrec. cbn. congruence.
Qed.

(** An object that exists and that no owner holds is not touched by a
    step, and no owner takes it. *)
Lemma step_unheld cfg ev w :
  consistent cfg w →
  let w' := step cfg ev w in
  (∀ t, (t < length (plainTransports w))%nat →
     (∀ o, held_transport w o ≠ Some t) →
     plainTransports w' !! t = plainTransports w !! t)
  ∧ (∀ c, (c < length (consumers w))%nat →
       (∀ o, held_consumer w o ≠ Some c) →
       consumers w' !! c = consumers w !! c)
  ∧ (∀ proc, (proc < length (children w))%nat →
       (∀ o, held_child w o ≠ Some proc) →
       killed <$> children w' !! proc = killed <$> children w !! proc
       ∧ kills proc (trace w') = kills proc (trace w)).
Proof.
  intros Hw. cbn zeta.
  destruct ev as [p|p|tid e|pid e|pid s e|proc code signal e|path size|ms];
    try done.
  - split; [done|]. split; [done|]. intros proc _ _. split; [done|].
    cbn. unfold kills. rewrite List.filter_app, length_app. cbn. lia.
  - split; [done|]. split; [done|]. intros proc _ _. split; [done|].
    cbn. unfold kills. rewrite List.filter_app, length_app. cbn. lia.
  - cbn [step]. destruct (pending w !! tid) as [k|] eqn:Hk; [|done].
    destruct (resume_start_objects cfg tid e k w) as (Ht & Hc & Hp).
    destruct (resume_start_trace cfg tid e k w) as (l & Htr & Hl).
    destruct (resume_start cfg tid e k w) as [k' w0]. cbn [fst snd] in *.
    split; [|split].
    + intros t Hlt Hun. apply Ht; [done|].
      intros H. apply (Hun (Starting tid)). cbn. by rewrite Hk.
    + intros c Hlt Hun. apply Hc; [done|].
      intros H. apply (Hun (Starting tid)).
      unfold held_consumer, held_session. cbn. by rewrite Hk.
    + intros proc Hlt Hun. cbn. rewrite Hp by done. split; [done|].
      apply (kills_trace_app _ _ _ l); [done|]. apply kills_none.
      eapply Forall_impl; [exact Hl|]. intros en [_ ?]. by destruct (act en).
  - cbn [step]. destruct pid; [done|].
    destruct (stop_objects cfg Handler e (String a pid) w Hw)
      as (Ht & Hc & Hp).
    split; [eauto|]. split; [eauto|]. intros proc _ Hun.
    destruct (Hp _ Hun) as [-> ->]. done.
  - cbn [step]. unfold emit_signal.
    destruct (dispatch_either e pid s (listeners w) w) as [H|H];
      rewrite (same_but_producers_inv _ _ H); [|done].
    destruct (stop_objects cfg Handler e pid w Hw) as (Ht & Hc & Hp).
    split; [eauto|]. split; [eauto|]. intros proc _ Hun.
    destruct (Hp _ Hun) as [H1 H2]. read_world. by rewrite H1, H2.
  - destruct (child_exit_objects cfg proc code signal e w) as (-> & -> & Hk).
    destruct (child_exit_effect cfg proc code signal e w
                (children_ok _ _ Hw))
      as (_ & _ & _ & _ & _ & _ & l & Htr & Hl).
    split; [done|]. split; [done|]. intros i Hi _. split; [by apply Hk|].
    apply (kills_trace_app _ _ _ l); [done|]. apply kills_none.
    eapply Forall_impl; [exact Hl|]. intros en [_ ?]. by destruct (act en).
Qed.

Lemma run_unheld cfg evs w :
  consistent cfg w →
  let w' := run cfg evs w in
  (∀ t, (t < length (plainTransports w))%nat →
     (∀ o, held_transport w o ≠ Some t) →
     plainTransports w' !! t = plainTransports w !! t)
  ∧ (∀ c, (c < length (consumers w))%nat →
       (∀ o, held_consumer w o ≠ Some c) →
       consumers w' !! c = consumers w !! c)
  ∧ (∀ proc, (proc < length (children w))%nat →
       (∀ o, held_child w o ≠ Some proc) →
       killed <$> children w' !! proc = killed <$> children w !! proc
       ∧ kills proc (trace w') = kills proc (trace w)).
Proof.
  cbn zeta. revert w. induction evs as [|ev evs IH]; intros w Hw; [done|].
  cbn [run].
  destruct (step_unheld cfg ev w Hw) as (Ht & Hc & Hp).
  pose proof (step_handover cfg ev w Hw) as Hho.
  destruct (IH _ (step_consistent cfg ev w Hw)) as (IHt & IHc & IHp).
  split; [|split].
  - intros t Hlt Hun. rewrite <- (Ht t Hlt Hun). apply IHt.
    + apply lookup_lt_is_Some. rewrite (Ht t Hlt Hun).
      by apply lookup_lt_is_Some.
    + by eapply handover_transport_unheld.
  - intros c Hlt Hun. rewrite <- (Hc c Hlt Hun). apply IHc.
    + apply lookup_lt_is_Some. rewrite (Hc c Hlt Hun).
      by apply lookup_lt_is_Some.
    + by eapply handover_consumer_unheld.
  - intros proc Hlt Hun. destruct (Hp proc Hlt Hun) as [Hk Hn].
    rewrite <- Hk, <- Hn. apply IHp.
    + apply lookup_lt_is_Some, (proj1 (fmap_is_Some killed _)).
      rewrite Hk.
      by apply (proj2 (fmap_is_Some killed _)), lookup_lt_is_Some.
    + by eapply handover_child_unheld.
Qed.

(** X9. An object that neither a registry entry nor a running invocation of
    startRecordingForProducer holds is never touched again: such a plain
    transport or consumer stays as it is, such a process is never sent a
    signal. *)
Theorem X9_unheld_objects_stay_as_they_are cfg evs1 evs2 :
  let w := run cfg evs1 boot in
  let w' := run cfg evs2 w in
  (∀ t, (t < length (plainTransports w))%nat →
     (∀ o, held_transport w o ≠ Some t) →
     plainTransports w' !! t = plainTransports w !! t)
  ∧ (∀ c, (c < length (consumers w))%nat →
       (∀ o, held_consumer w o ≠ Some c) →
       consumers w' !! c = consumers w !! c)
  ∧ (∀ proc, (proc < length (children w))%nat →
       (∀ o, held_child w o ≠ Some proc) →
       killed <$> children w' !! proc = killed <$> children w !! proc
       ∧ kills proc (trace w') = kills proc (trace w)).
Proof. apply run_unheld, run_consistent. Qed.

(** *** When a request is rejected *)

Lemma resume_start_rejected cfg tid e k w :
  rejects e = true → awaits_request k = true →
  resume_start cfg tid e k w = caught tid w.
Proof. intros He Hk. destruct k; try done; cbn; by rewrite He. Qed.

Lemma settle_others cfg tid e w tid' :
  tid' ≠ tid →
  pending (step cfg (Settle tid e) w) !! tid' = pending w !! tid'.
Proof.
  intros Hne. cbn [step]. destruct (pending w !! tid) as [k|]; [|done].
  pose proof (resume_start_pending cfg tid e k w) as Hpen.
  destruct (resume_start cfg tid e k w) as [k' w0]. cbn in *.
  rewrite Hpen. by apply list_lookup_insert_ne.
Qed.

(** After the settlement that ends invocation [tid] without a
    registration, nobody holds what the invocation held. *)
Lemma returned_unheld cfg tid e k w :
  consistent cfg w →
  pending w !! tid = Some k →
  let w1 := step cfg (Settle tid e) w in
  pending w1 !! tid = Some Returned → recordings w1 = recordings w →
  (∀ t, task_transport k = Some t → ∀ o, held_transport w1 o ≠ Some t)
  ∧ (∀ pid r, task_session k = Some (pid, r) →
       (∀ o, held_consumer w1 o ≠ Some (consumer r))
       ∧ (∀ o, held_child w1 o ≠ Some (ffmpeg r))).
Proof.
  intros Hw Hk w1 Hret Hrec.
  assert (Hsame : ∀ o, o ≠ Starting tid →
            held_transport w1 o = held_transport w o
            ∧ held_session w1 o = held_session w o).
  { intros [pid|tid'] Hne;
      unfold held_session, claimed_session, held_transport.
    - by rewrite Hrec.
    - subst w1. rewrite settle_others by congruence. done. }
  assert (Hme : held_transport w1 (Starting tid) = None
                ∧ held_session w1 (Starting tid) = None).
  { unfold held_session, claimed_session, held_transport.
    by rewrite Hret. }
  split.
  - intros t Ht o Ho.
    destruct (decide (o = Starting tid)) as [->|Hne].
    + destruct Hme as [Hme _]. congruence.
    + destruct (Hsame o Hne) as [Hs _]. rewrite Hs in Ho.
      apply (transports_exclusive _ _ Hw o (Starting tid) t Hne Ho).
      cbn. by rewrite Hk.
  - intros pid r Hs.
    assert (Hmine : held_session w (Starting tid) = Some r).
    { unfold held_session. cbn. rewrite Hk. cbn. by rewrite Hs. }
    split; intros o Ho.
    + destruct (decide (o = Starting tid)) as [->|Hne].
      * destruct Hme as [_ Hme]. unfold held_consumer in Ho.
        by rewrite Hme in Ho.
      * destruct (Hsame o Hne) as [_ Hs']. unfold held_consumer in Ho.
        rewrite Hs' in Ho.
        apply (consumers_exclusive _ _ Hw o (Starting tid) _ Hne Ho).
        unfold held_consumer. by rewrite Hmine.
    + destruct (decide (o = Starting tid)) as [->|Hne].
      * destruct Hme as [_ Hme]. unfold held_child in Ho.
        by rewrite Hme in Ho.
      * destruct (Hsame o Hne) as [_ Hs']. unfold held_child in Ho.
        rewrite Hs' in Ho.
        apply (children_exclusive _ _ Hw o (Starting tid) _ Hne Ho).
        unfold held_child. by rewrite Hmine.
Qed.

(** X10. When a request that startRecordingForProducer awaits is rejected,
    the invocation logs the error and returns, and what it has created so
    far stays behind for good: whatever happens afterwards, the server
    neither closes the plain transport or the consumer nor sends a signal
    to the recorder, and the session is not registered by that
    invocation. *)
Theorem X10_rejected_start_is_never_cleaned_up cfg evs1 tid e k evs2 :
  let w := run cfg evs1 boot in
  let w1 := step cfg (Settle tid e) w in
  let w2 := run cfg evs2 w1 in
  pending w !! tid = Some k → awaits_request k = true → rejects e = true →
  pending w1 !! tid = Some Returned
  ∧ recordings w1 = recordings w
  ∧ (∀ t, task_transport k = Some t →
       plainTransports w2 !! t = plainTransports w !! t)
  ∧ (∀ pid r, task_session k = Some (pid, r) →
       consumers w2 !! consumer r = consumers w !! consumer r
       ∧ killed <$> children w2 !! ffmpeg r
         = killed <$> children w !! ffmpeg r
       ∧ kills (ffmpeg r) (trace w2) = 0%nat).
Proof.
  cbn zeta. intros Hk Hreq Hrej.
  pose proof (run_consistent cfg evs1) as Hw.
  set (w := run cfg evs1 boot) in *.
  assert (Hstep : step cfg (Settle tid e) w
                  = with_pending (<[tid := Returned]> (pending w))
                      (emit (Task tid) LogError w)).
  { cbn [step]. rewrite Hk, resume_start_rejected by done. done. }
  assert (Hret : pending (step cfg (Settle tid e) w) !! tid = Some Returned).
  { rewrite Hstep. cbn. apply list_lookup_insert_eq.
    by eapply lookup_lt_Some. }
  assert (Hrec : recordings (step cfg (Settle tid e) w) = recordings w).
  { by rewrite Hstep. }
  destruct (returned_unheld cfg tid e k w Hw Hk Hret Hrec) as [Hut Hus].
  destruct (run_unheld cfg evs2 _ (step_consistent cfg (Settle tid e) w Hw))
    as (Ht & Hc & Hp).
  split; [done|]. split; [done|]. split.
  - intros t Htk. rewrite Ht; [by rewrite Hstep| |by apply Hut].
    rewrite Hstep. cbn.
    apply (transports_exist _ _ Hw (Starting tid)). cbn. by rewrite Hk.
  - intros pid r Hs. destruct (Hus _ _ Hs) as [Huc Hup].
    destruct (sessions_ok _ _ Hw (Starting tid) pid r)
      as (_ & _ & (c & Hc0 & _) & (ch & Hch0 & _)).
    { cbn. by rewrite Hk. }
    apply lookup_lt_Some in Hc0, Hch0.
    rewrite Hc; [|by rewrite Hstep|done].
    destruct (Hp (ffmpeg r)) as [-> ->]; [by rewrite Hstep|done|].
    rewrite Hstep. read_world. split; [done|]. split; [done|].
    rewrite kills_app. cbn.
    rewrite (held_not_signalled _ _ Hw (Starting tid) (ffmpeg r)); [done|].
    unfold held_child, held_session. cbn. rewrite Hk. cbn. by rewrite Hs.
Qed.

(** *** When a second start replaces a registered session *)

(** X11. When startRecordingForProducer registers a session for a producer
    that has one in the registry already, the earlier session stays
    behind for good: whatever happens afterwards, the server neither
    closes its plain transport or its consumer nor sends a signal to its
    recorder. *)
Theorem X11_replaced_session_is_never_stopped cfg evs1 tid e p r r0 evs2 :
  let w := run cfg evs1 boot in
  let w1 := step cfg (Settle tid e) w in
  let w2 := run cfg evs2 w1 in
  pending w !! tid = Some (AwaitResume p r) → rejects e = false →
  recordings w !! producerId p = Some r0 →
  recordings w1 !! producerId p = Some r
  ∧ plainTransports w2 !! transport r0 = plainTransports w !! transport r0
  ∧ consumers w2 !! consumer r0 = consumers w !! consumer r0
  ∧ killed <$> children w2 !! ffmpeg r0 = killed <$> children w !! ffmpeg r0
  ∧ kills (ffmpeg r0) (trace w2) = 0%nat.
Proof.
  cbn zeta. intros Hk Hrej Hr0.
  pose proof (run_consistent cfg evs1) as Hw.
  set (w := run cfg evs1 boot) in *.
  set (pid := producerId p) in *.
  assert (Hmine : held_session w (Starting tid) = Some r).
  { unfold held_session. cbn. by rewrite Hk. }
  assert (Hold : held_session w (Registered pid) = Some r0).
  { unfold held_session. cbn. by rewrite Hr0. }
  destruct (sessions_ok _ _ Hw (Registered pid) pid r0)
    as (_ & Ht0 & (c & Hc0 & _) & (ch & Hch0 & _)).
  { cbn. by rewrite Hr0. }
  apply lookup_lt_Some in Hc0, Hch0.
  assert (Hnet : transport r ≠ transport r0).
  { intros Heq.
    apply (transports_exclusive _ _ Hw (Starting tid) (Registered pid)
             (transport r)); [done|..]; cbn; rewrite ?Hk, ?Hr0; cbn;
      congruence. }
  assert (Hnec : consumer r ≠ consumer r0).
  { intros Heq.
    apply (consumers_exclusive _ _ Hw (Starting tid) (Registered pid)
             (consumer r)); [done|..]; unfold held_consumer;
      rewrite ?Hmine, ?Hold; cbn; congruence. }
  assert (Hnep : ffmpeg r ≠ ffmpeg r0).
  { intros Heq.
    apply (children_exclusive _ _ Hw (Starting tid) (Registered pid)
             (ffmpeg r)); [done|..]; unfold held_child;
      rewrite ?Hmine, ?Hold; cbn; congruence. }
  set (w1 := step cfg (Settle tid e) w).
  assert (Hstep : w1
    = with_pending (<[tid := Returned]> (pending w))
        (snd (resume_start cfg tid e (AwaitResume p r) w))).
  { subst w1. cbn [step]. rewrite Hk.
    pose proof (resume_start_pending cfg tid e (AwaitResume p r) w) as Hp.
    rewrite resume_resumed_ok in * by done. cbn zeta in *.
    cbn [fst snd] in *. by rewrite Hp. }
  assert (Hrec1 : recordings w1 = <[pid := r]> (recordings w)).
  { rewrite Hstep, resume_resumed_ok by done. done. }
  assert (Hobj : plainTransports w1 = plainTransports w
                 ∧ consumers w1 !! consumer r0 = consumers w !! consumer r0
                 ∧ children w1 = children w
                 ∧ kills (ffmpeg r0) (trace w1) = kills (ffmpeg r0) (trace w)).
  { rewrite Hstep, resume_resumed_ok by done. cbn zeta. read_world.
    split; [done|]. split; [by apply list_lookup_alter_ne|].
    split; [done|]. rewrite <- !app_assoc, kills_app. cbn. lia. }
  destruct Hobj as (Ht1 & Hc1 & Hp1 & Hk1).
  assert (Hun : (∀ o, held_transport w1 o ≠ Some (transport r0))
                ∧ (∀ o, held_session w1 o = Some r0 → False)
                ∧ (∀ o r', held_session w1 o = Some r' →
                     consumer r' ≠ consumer r0 ∧ ffmpeg r' ≠ ffmpeg r0)).
  { assert (Hcases : ∀ o,
        (o = Registered pid ∧ held_transport w1 o = Some (transport r)
         ∧ held_session w1 o = Some r)
        ∨ (o = Starting tid ∧ held_transport w1 o = None
           ∧ held_session w1 o = None)
        ∨ (o ≠ Registered pid ∧ o ≠ Starting tid
           ∧ held_transport w1 o = held_transport w o
           ∧ held_session w1 o = held_session w o)).
    { intros [pid'|tid'];
        unfold held_session, claimed_session, held_transport.
      - rewrite Hrec1. destruct (decide (pid' = pid)) as [->|Hne].
        + left. by rewrite lookup_insert_eq.
        + right. right. rewrite lookup_insert_ne by done.
          repeat split; congruence.
      - destruct (decide (tid' = tid)) as [->|Hne].
        + right. left. rewrite Hstep. cbn.
          rewrite list_lookup_insert_eq by by eapply lookup_lt_Some. done.
        + right. right. subst w1. rewrite settle_others by done.
          repeat split; congruence. }
    split; [|split].
    - intros o Ho.
      destruct (Hcases o) as [(-> & H & _)|[(-> & H & _)|(H1 & H2 & H & _)]];
        rewrite H in Ho; [congruence|done|].
      apply (transports_exclusive _ _ Hw o (Registered pid) _ H1 Ho).
      cbn. by rewrite Hr0.
    - intros o Ho.
      destruct (Hcases o) as [(-> & _ & H)|[(-> & _ & H)|(H1 & H2 & _ & H)]];
        rewrite H in Ho; [congruence|done|].
      apply (children_exclusive _ _ Hw o (Registered pid) (ffmpeg r0) H1);
        unfold held_child; by rewrite ?Ho, ?Hold.
    - intros o r' Ho.
      destruct (Hcases o) as [(-> & _ & H)|[(-> & _ & H)|(H1 & H2 & _ & H)]];
        rewrite H in Ho; [by simplify_eq|done|].
      split; intros Heq.
      + apply (consumers_exclusive _ _ Hw o (Registered pid) (consumer r0) H1);
          unfold held_consumer; rewrite ?Ho, ?Hold; cbn; congruence.
      + apply (children_exclusive _ _ Hw o (Registered pid) (ffmpeg r0) H1);
          unfold held_child; rewrite ?Ho, ?Hold; cbn; congruence. }
  destruct Hun as (Hut & _ & Hus).
  destruct (run_unheld cfg evs2 w1 (step_consistent cfg (Settle tid e) w Hw))
    as (Ht & Hc & Hp).
  split; [by rewrite Hrec1, lookup_insert_eq|].
  rewrite Ht, Ht1 by (rewrite ?Ht1; done). split; [done|].
  rewrite Hc, Hc1; [split; [done|]| |].
  - destruct (Hp (ffmpeg r0)) as [-> ->].
    + by rewrite Hp1.
    + intros o Ho. unfold held_child in Ho.
      destruct (held_session w1 o) as [r'|] eqn:Hr'; [|done].
      cbn in Ho. destruct (Hus _ _ Hr') as [_ H]. congruence.
    + rewrite Hp1, Hk1. split; [done|].
      apply (held_not_signalled _ _ Hw (Registered pid)).
      unfold held_child. by rewrite Hold.
  - apply lookup_lt_is_Some. rewrite Hc1. by apply lookup_lt_is_Some.
  - intros o Ho. unfold held_consumer in Ho.
    destruct (held_session w1 o) as [r'|] eqn:Hr'; [|done].
    cbn in Ho. destruct (Hus _ _ Hr') as [H _]. congruence.
Qed.

(** ** One session for each producer *)

Lemma filter_length_none {A} (test : A → bool) (l : list A) :
  Forall (λ x, test x = false) l → length (List.filter test l) = 0%nat.
Proof.
  induction 1 as [|x l Hx _ IH]; [done|]. cbn. by rewrite Hx.
Qed.

Lemma filter_length_pos {A} (test : A → bool) (l : list A) :
  length (List.filter test l) ≠ 0%nat → ∃ x, x ∈ l ∧ test x = true.
Proof.
  induction l as [|x l IH]; [done|]. cbn.
  destruct (test x) eqn:Hx.
  - intros _. exists x. split; [left|done].
  - intros H. destruct (IH H) as (y & ? & ?). exists y. split; [by right|done].
Qed.

Lemma is_consume_for_act pid en :
  is_consume_for pid en = true ↔ ∃ t c, act en = Consume t c pid.
Proof.
  unfold is_consume_for. destruct (act en); try (split; [done|by intros (?&?&?)]).
  rewrite String.eqb_eq. split; [intros ->; eauto|]. by intros (? & ? & [= _ _ ->]).
Qed.

Lemma is_registration_of_act pid en :
  is_registration_of pid en = true ↔ act en = RegistrySet pid.
Proof.
  unfold is_registration_of. destruct (act en); try done.
  rewrite String.eqb_eq. split; [by intros ->|]. by intros [= ->].
Qed.

(** The consumers and registrations a segment of
    startRecordingForProducer records, and what becomes of the
    invocation. *)
Lemma resume_start_entries cfg tid e k w :
  let k' := fst (resume_start cfg tid e k w) in
  ∃ l, trace (snd (resume_start cfg tid e k w)) = trace w ++ l
    ∧ Forall
        (λ en, by_whom en = Task tid
               ∧ match act en with
                 | Consume _ _ pid =>
                     ∃ p, task_producer k = Some p ∧ producerId p = pid
                          ∧ past_consume k = false ∧ past_consume k' = true
                 | RegistrySet pid =>
                     ∃ p, task_producer k = Some p ∧ producerId p = pid
                          ∧ k' = Returned
                 | _ => True
                 end) l
    ∧ (∀ pid, (length (List.filter (is_consume_for pid) l) ≤ 1)%nat
              ∧ (length (List.filter (is_registration_of pid) l) ≤ 1)%nat)
    ∧ (past_consume k = true → past_consume k' = true)
    ∧ (k = Returned → k' = Returned)
    ∧ (∀ p, task_producer k' = Some p → task_producer k = Some p).
Proof.
  cbn zeta.
  segment k;
    (eexists; split;
     [rewrite <- ?app_assoc; first [reflexivity | symmetry; apply app_nil_r]|]);
    (split; [repeat (constructor; cbn; try done); eauto 8|]);
    (split; [intros pid; unfold is_consume_for, is_registration_of; cbn;
             repeat (match goal with
                     | |- context [String.eqb ?a ?b] =>
                         destruct (String.eqb a b)
                     end); cbn; lia|]);
    cbn; try done; repeat split; try done; congruence.
Qed.

Lemma started_for_more prods prods' w :
  started_for prods w → prods' = [] →
  started_for (prods ++ prods') w.
Proof. intros H ->. by rewrite app_nil_r. Qed.

(** A handler that records no consumer and no registration and leaves
    the invocations alone. *)
Lemma started_for_quiet prods w w' l :
  started_for prods w → pending w' = pending w → trace w' = trace w ++ l →
  Forall (λ en, match act en with
                | Consume _ _ _ | RegistrySet _ => False
                | _ => True
                end) l →
  started_for prods w'.
Proof.
  intros (H1 & H2 & H3 & H4) Hp Htr Hl. unfold started_for.
  rewrite Hp, Htr.
  split; [done|]. split; [done|]. split.
  - apply Forall_app. split; [done|].
    eapply Forall_impl; [exact Hl|]. intros en. cbn beta.
    destruct (act en); try done; by rewrite Hp.
  - intros pid. rewrite !List.filter_app, !length_app.
    rewrite (filter_length_none (is_consume_for pid) l),
            (filter_length_none (is_registration_of pid) l).
    + destruct (H4 pid). lia.
    + eapply Forall_impl; [exact Hl|]. intros en.
      unfold is_registration_of. by destruct (act en).
    + eapply Forall_impl; [exact Hl|]. intros en.
      unfold is_consume_for. by destruct (act en).
Qed.

Lemma stop_started_for prods who e pid w :
  started_for prods w →
  started_for prods (snd (stopRecordingForProducer who e pid w)).
Proof.
  intros Hw.
  destruct (stop_frame who e pid w) as (_ & _ & _ & _ & _ & Hpen).
  destruct (recordings w !! pid) as [rec|] eqn:Hrec;
    [|by rewrite stop_absent].
  destruct (stop_effect who e pid rec w Hrec)
    as (bc & bt & bk & _ & _ & _ & Htr).
  eapply started_for_quiet; [done..|].
  destruct bc, bt, bk; repeat (constructor; cbn; try done).
Qed.

Lemma started_for_same_but_producers prods w1 w2 :
  same_but_producers w2 w1 → started_for prods w1 → started_for prods w2.
Proof. intros H. by rewrite (same_but_producers_inv _ _ H). Qed.

Lemma settle_started_for cfg prods tid e w :
  NoDup (producerId <$> prods) →
  started_for prods w → started_for prods (step cfg (Settle tid e) w).
Proof.
  intros Hnd (H1 & H2 & H3 & H4). cbn [step].
  destruct (pending w !! tid) as [k|] eqn:Hk; [|done].
  pose proof (resume_start_pending cfg tid e k w) as Hpen.
  destruct (resume_start_entries cfg tid e k w)
    as (l & Htr & Hl & Hcount & Hpast & Hret & Hprod).
  destruct (resume_start cfg tid e k w) as [k' w0]. cbn [fst snd] in *.
  assert (Htid : (tid < length (pending w))%nat) by by eapply lookup_lt_Some.
  assert (Hmine : <[tid := k']> (pending w) !! tid = Some k').
  { by apply list_lookup_insert_eq. }
  assert (Hsame : ∀ tid' p p', prods !! tid = Some p → prods !! tid' = Some p' →
                    producerId p' = producerId p → tid' = tid).
  { intros tid' p p' Hp Hp' Hid.
    apply (NoDup_lookup (producerId <$> prods) tid' tid (producerId p));
      [done|..]; rewrite list_lookup_fmap; [rewrite Hp'|rewrite Hp]; cbn;
      congruence. }
  split; [|split; [|split]].
  - cbn. by rewrite Hpen, length_insert.
  - cbn. rewrite Hpen. intros tid' k0 p Hk0 Hp.
    destruct (decide (tid' = tid)) as [->|Hne].
    + rewrite Hmine in Hk0. injection Hk0 as <-. eauto.
    + rewrite list_lookup_insert_ne in Hk0 by done. eauto.
  - cbn. rewrite Hpen, Htr. apply Forall_app. split.
    + eapply Forall_impl; [exact H3|]. intros en. cbn.
      destruct (act en); try done.
      * intros (tid' & p & k0 & ? & ? & ? & Hk0 & Hp0).
        destruct (decide (tid' = tid)) as [->|Hne].
        -- exists tid, p, k'. rewrite Hmine.
           repeat split; try done. apply Hpast. congruence.
        -- exists tid', p, k0. rewrite list_lookup_insert_ne by done. done.
      * intros (tid' & p & ? & ? & ? & Hk0).
        destruct (decide (tid' = tid)) as [->|Hne].
        -- exists tid, p. rewrite Hmine. repeat split; try done.
           f_equal. apply Hret. congruence.
        -- exists tid', p. rewrite list_lookup_insert_ne by done. done.
    + eapply Forall_impl; [exact Hl|]. intros en [Hwho Hen].
      destruct (act en); try done.
      * destruct Hen as (p & Hp & ? & _ & ?).
        exists tid, p, k'. rewrite Hmine. repeat split; eauto.
      * destruct Hen as (p & Hp & ? & ->).
        exists tid, p. rewrite Hmine. repeat split; eauto.
  - cbn. rewrite Htr. intros pid. rewrite !List.filter_app, !length_app.
    destruct (H4 pid) as [Hc Hr]. destruct (Hcount pid) as [Hc' Hr'].
    rewrite Forall_forall in H3, Hl. split.
    + destruct (decide (length (List.filter (is_consume_for pid) l) = 0%nat))
        as [->|Hne]; [lia|].
      destruct (decide (length (List.filter (is_consume_for pid) (trace w))
                        = 0%nat)) as [->|Hne0]; [lia|].
      exfalso.
      apply filter_length_pos in Hne as (en & Hin & (t & c & Hen)%is_consume_for_act).
      apply filter_length_pos in Hne0
        as (en0 & Hin0 & (t0 & c0 & Hen0)%is_consume_for_act).
      specialize (Hl _ Hin). rewrite Hen in Hl.
      destruct Hl as (_ & p & Hp & Hid & Hnot & _).
      specialize (H3 _ Hin0). rewrite Hen0 in H3.
      destruct H3 as (tid' & p' & k0 & _ & Hp' & Hid' & Hk0 & Hpast0).
      assert (tid' = tid) as -> by (eapply Hsame; eauto; congruence).
      congruence.
    + destruct (decide (length (List.filter (is_registration_of pid) l)
                        = 0%nat)) as [->|Hne]; [lia|].
      destruct (decide (length (List.filter (is_registration_of pid)
                                  (trace w)) = 0%nat)) as [->|Hne0]; [lia|].
      exfalso.
      apply filter_length_pos in Hne as (en & Hin & Hen%is_registration_of_act).
      apply filter_length_pos in Hne0
        as (en0 & Hin0 & Hen0%is_registration_of_act).
      specialize (Hl _ Hin). rewrite Hen in Hl.
      destruct Hl as (_ & p & Hp & Hid & _).
      specialize (H3 _ Hin0). rewrite Hen0 in H3.
      destruct H3 as (tid' & p' & _ & Hp' & Hid' & Hk0).
      assert (tid' = tid) as -> by (eapply Hsame; eauto; congruence).
      rewrite Hk in Hk0. injection Hk0 as ->. done.
Qed.

Lemma step_started_for cfg ev w prods :
  consistent cfg w → started_for prods w →
  match ev with Start _ => False | _ => True end →
  NoDup (producerId <$> (prods ++ produced [ev])) →
  started_for (prods ++ produced [ev]) (step cfg ev w).
Proof.
  intros Hw Hs Hev Hnd.
  destruct ev as [p|p|tid e|pid e|pid s e|proc code signal e|path size|ms];
    try done; cbn [produced] in *; rewrite ?app_nil_r in *.
  - destruct Hs as (H1 & H2 & H3 & H4). split; [|split; [|split]].
    + cbn. rewrite !length_app. cbn. lia.
    + cbn. intros tid k p' Hk Hp.
      destruct (decide (tid < length (pending w))%nat).
      * rewrite lookup_app_l in Hk by done.
        apply lookup_app_l_Some. eauto.
      * rewrite lookup_app_r in Hk by lia.
        destruct (tid - length (pending w))%nat as [|[|]] eqn:Hd; try done.
        injection Hk as <-. injection Hp as <-.
        replace tid with (length prods) by lia.
        by apply list_lookup_middle.
    + cbn. apply Forall_app. split; [|by repeat constructor].
      eapply Forall_impl; [exact H3|]. intros en. cbn.
      destruct (act en); try done.
      * intros (tid & p' & k & ? & ? & ? & ? & ?). exists tid, p', k.
        repeat split; try done; by apply lookup_app_l_Some.
      * intros (tid & p' & ? & ? & ? & ?). exists tid, p'.
        repeat split; try done; by apply lookup_app_l_Some.
    + cbn. intros pid. rewrite !List.filter_app, !length_app. cbn.
      destruct (H4 pid). lia.
  - by apply settle_started_for.
  - cbn [step]. destruct pid; [done|]. by apply stop_started_for.
  - cbn [step]. unfold emit_signal.
    destruct (dispatch_either e pid s (listeners w) w) as [H|H];
      eapply started_for_same_but_producers; try exact H; [|done].
    by apply stop_started_for.
  - destruct (child_exit_effect cfg proc code signal e w (children_ok _ _ Hw))
      as (_ & Hpen & _ & _ & _ & _ & l & Htr & Hl).
    eapply started_for_quiet; [done..|].
    eapply Forall_impl; [exact Hl|]. intros en [_ ?]. by destruct (act en).
  - exact Hs.
  - exact Hs.
Qed.

Lemma produced_cons ev evs : produced (ev :: evs) = produced [ev] ++ produced evs.
Proof. by destruct ev. Qed.

Lemma run_started_for cfg evs w prods :
  consistent cfg w → started_for prods w →
  Forall (λ ev, match ev with Start _ => False | _ => True end) evs →
  NoDup (producerId <$> (prods ++ produced evs)) →
  started_for (prods ++ produced evs) (run cfg evs w).
Proof.
  intros Hw Hs Hevs. revert w prods Hw Hs.
  induction Hevs as [|ev evs Hev _ IH]; intros w prods Hw Hs Hnd.
  { cbn. by rewrite app_nil_r. }
  rewrite produced_cons, app_assoc in Hnd |- *. cbn [run].
  apply IH; [by apply step_consistent| |done].
  apply step_started_for; try done.
  rewrite fmap_app in Hnd. by apply NoDup_app in Hnd as [? _].
Qed.

(** X12. In a run as the HTTP API produces it, startRecordingForProducer
    creates at most one consumer for each producer and sets the registry
    entry of each producer at most once: a registered session is never
    replaced by a second one. *)
Theorem X12_one_session_per_producer cfg evs pid :
  api_run evs →
  (length (List.filter (is_consume_for pid) (trace (run cfg evs boot))) ≤ 1)%nat
  ∧ (length (List.filter (is_registration_of pid) (trace (run cfg evs boot)))
     ≤ 1)%nat.
Proof.
  intros [Hevs Hnd].
  destruct (run_started_for cfg evs boot [] (boot_consistent cfg))
    as (_ & _ & _ & H); try done.
  split; [done|]. split; [done|]. split; [constructor|].
  intros pid'. cbn. lia.
Qed.

(** ** Time stamps *)

Lemma below_100 (P : nat → bool) :
  forallb P (seq 0 100) = true → ∀ n, (n < 100)%nat → P n = true.
Proof.
  intros H n Hn. rewrite forallb_forall in H. apply H, in_seq. lia.
Qed.

(** [String(n).padStart(2, '0')] of a number below 100 is its two
    decimal digits. *)
Lemma pad_two_digits n : (n < 100)%nat → pad n = two_digits n.
Proof.
  intros Hn. apply String.eqb_eq.
  revert n Hn. apply (below_100 (λ n, String.eqb (pad n) (two_digits n))).
  vm_compute. reflexivity.
Qed.

Lemma digit_inj j k : (j < 10)%nat → (k < 10)%nat → digit j = digit k → j = k.
Proof.
  intros Hj Hk H. unfold digit in H.
  apply (f_equal nat_of_ascii) in H.
  rewrite !nat_ascii_embedding in H by lia. lia.
Qed.

Lemma two_digits_inj n m :
  (n < 100)%nat → (m < 100)%nat → two_digits n = two_digits m → n = m.
Proof.
  intros Hn Hm H. unfold two_digits in H.
  assert (H1 : digit (n / 10) = digit (m / 10)) by congruence.
  assert (H2 : digit (n mod 10) = digit (m mod 10)) by congruence.
  assert (Hdiv : ∀ k, (k < 100)%nat → (k / 10 < 10)%nat).
  { intros k Hk. apply Nat.Div0.div_lt_upper_bound. lia. }
  apply digit_inj in H1; [|by apply Hdiv..].
  apply digit_inj in H2; [|by apply Nat.mod_upper_bound..].
  rewrite (Nat.div_mod_eq n 10), (Nat.div_mod_eq m 10). lia.
Qed.

Lemma pad_inj n m : (n < 100)%nat → (m < 100)%nat → pad n = pad m → n = m.
Proof.
  intros Hn Hm. rewrite !pad_two_digits by done. by apply two_digits_inj.
Qed.

Lemma pad_length n : (n < 100)%nat → String.length (pad n) = 2%nat.
Proof. intros Hn. by rewrite pad_two_digits. Qed.

(** Cancelling on the left and on the right. *)
Lemma append_inv_prefix (a b x y : string) :
  a +:+ x = b +:+ y → String.length a = String.length b → a = b ∧ x = y.
Proof.
  revert b. induction a as [|c a IH]; intros [|c' b] H Hl; try done.
  rewrite !append_cons in H. injection H as -> H.
  destruct (IH b H) as [-> ->]; [by injection Hl|done].
Qed.

Lemma append_inv_suffix (a b x y : string) :
  a +:+ x = b +:+ y → String.length x = String.length y → a = b ∧ x = y.
Proof.
  intros H Hl. apply append_inv_prefix; [done|].
  apply (f_equal String.length) in H. rewrite !length_append in H. lia.
Qed.

Lemma is_date_below d :
  is_date d →
  (getMonth d + 1 < 100 ∧ getDate d < 100 ∧ getHours d < 100
   ∧ getMinutes d < 100 ∧ getSeconds d < 100)%nat.
Proof. unfold is_date. lia. Qed.

Lemma ts_inj d d' : is_date d → is_date d' → ts d = ts d' → d = d'.
Proof.
  intros (Hm & Hd & Hh & Hi & Hs)%is_date_below
         (Hm' & Hd' & Hh' & Hi' & Hs')%is_date_below H.
  unfold ts in H.
  apply append_inv_suffix in H as [Hy H];
    [|by rewrite !length_append, !pad_length].
  apply (inj pretty) in Hy.
  apply append_inv_prefix in H as [H1 H]; [|by rewrite !pad_length].
  apply append_inv_prefix in H as [H2 H]; [|by rewrite !pad_length].
  rewrite !append_cons in H. injection H as H.
  change (EmptyString +:+ ?x) with x in H.
  apply append_inv_prefix in H as [H3 H]; [|by rewrite !pad_length].
  apply append_inv_prefix in H as [H4 H5]; [|by rewrite !pad_length].
  apply pad_inj in H1, H2, H3, H4, H5; try done.
  destruct d, d'. cbn in *. f_equal; lia.
Qed.

(** Year 1000 to 9999 in four digits. *)
Lemma pretty_year_length y :
  (1000 ≤ Z.of_nat y < 10000)%Z → String.length (pretty y) = 4%nat.
Proof.
  intros Hy. unfold pretty, pretty_nat, pretty, pretty_N.
  case_decide; [lia|].
  assert (1000 ≤ N.of_nat y < 10000)%N as Hx by lia.
  generalize dependent (N.of_nat y). intros x _ Hx.
  rewrite pretty_N_go_step by lia.
  rewrite pretty_N_go_step by (apply N.div_str_pos; lia).
  rewrite pretty_N_go_step.
  2:{ apply N.div_str_pos. split; [lia|].
      apply N.div_le_lower_bound; lia. }
  rewrite pretty_N_go_step.
  2:{ apply N.div_str_pos. split; [lia|].
      apply N.div_le_lower_bound; [lia|].
      apply N.div_le_lower_bound; lia. }
  replace ((((x `div` 10) `div` 10) `div` 10) `div` 10)%N with 0%N.
  - by rewrite pretty_N_go_0.
  - symmetry. rewrite !N.Div0.div_div. apply N.div_small. lia.
Qed.

(** X13. ts() is the date in the form YYYYMMDD_HHMMSS: the month is counted
    from 1, every field but the year has two digits, the stamp of a date
    with a four-digit year has 15 characters, and different dates (to the
    second) have different stamps. *)
Theorem X13_ts_format d :
  is_date d →
  ts d = pretty (getFullYear d)
         +:+ two_digits (getMonth d + 1) +:+ two_digits (getDate d)
         +:+ "_" +:+ two_digits (getHours d) +:+ two_digits (getMinutes d)
         +:+ two_digits (getSeconds d)
  ∧ ((1000 ≤ Z.of_nat (getFullYear d) < 10000)%Z →
     String.length (ts d) = 15%nat)
  ∧ ∀ d', is_date d' → ts d = ts d' → d = d'.
Proof.
  intros Hd. split; [|split].
  - apply is_date_below in Hd as (Hm & Hd & Hh & Hi & Hs).
    unfold ts. by rewrite !pad_two_digits.
  - intros Hy. apply is_date_below in Hd as (Hm & Hd & Hh & Hi & Hs).
    unfold ts. rewrite !length_append, !pad_length, pretty_year_length by done.
    done.
  - intros d' Hd'. by apply ts_inj.
Qed.


(** ** The name of the derived file *)

Lemma lower_dot a : lower a = "."%char ↔ a = "."%char.
Proof.
  split; [|by intros ->]. unfold lower.
  destruct (Nat.leb 65 (nat_of_ascii a) && Nat.leb (nat_of_ascii a) 90)
    eqn:Hup; [|done].
  apply andb_true_iff in Hup as [H1%Nat.leb_le H2%Nat.leb_le].
  intros H. apply (f_equal nat_of_ascii) in H.
  rewrite nat_ascii_embedding in H by lia.
  change (nat_of_ascii "."%char) with 46%nat in H. lia.
Qed.

(** The pattern [\.ogg] with the flag [i] matches the four characters
    that are [.ogg] up to the case of the letters. *)
Lemma is_dot_ogg_spec ext : is_dot_ogg ext = true ↔ toLowerCase ext = ".ogg".
Proof.
  destruct ext as [|a [|b [|c [|d [|x ext]]]]]; try done. cbn.
  rewrite !andb_true_iff, !Ascii.eqb_eq. split.
  - intros [[[-> Hb] Hc] Hd]. by rewrite Hb, Hc, Hd.
  - intros H. injection H as Ha Hb Hc Hd.
    apply (proj1 (lower_dot a)) in Ha. done.
Qed.

(** X15. [oggFile.replace(/\.ogg$/i, '.mp3')] replaces a final [.ogg], in any
    letter case, by [.mp3], and leaves every other name as it is; an
    [.ogg] inside the name is not touched. *)
Theorem X15_replace_ogg_ext_spec s :
  (∀ stem ext, s = stem +:+ ext → toLowerCase ext = ".ogg" →
     replace_ogg_ext s = stem +:+ ".mp3")
  ∧ ((∀ stem ext, s = stem +:+ ext → toLowerCase ext ≠ ".ogg") →
     replace_ogg_ext s = s).
Proof.
  split.
  - intros stem ext -> Hext. apply is_dot_ogg_spec in Hext.
    induction stem as [|x stem IH].
    + change (EmptyString +:+ ?x) with x.
      destruct ext; cbn [replace_ogg_ext]; by rewrite Hext.
    + rewrite !append_cons. cbn [replace_ogg_ext].
      destruct (is_dot_ogg (String x (stem +:+ ext))) eqn:H.
      * apply is_dot_ogg_length in H, Hext. cbn in H.
        rewrite length_append in H. lia.
      * by rewrite IH.
  - induction s as [|c s IH]; intros Hno; [done|].
    cbn [replace_ogg_ext].
    destruct (is_dot_ogg (String c s)) eqn:H.
    + apply is_dot_ogg_spec in H. by destruct (Hno EmptyString (String c s)).
    + rewrite IH; [done|]. intros stem ext -> Hext.
      by apply (Hno (String c stem) ext).
Qed.

(** ** Configuration *)

(** The test accepts [1] and the word [true] in any letter case. *)
Lemma is_1_or_true_spec s :
  is_1_or_true s = true ↔ s = "1" ∨ toLowerCase s = "true".
Proof.
  destruct s as [|a [|b [|c [|d [|x s]]]]]; cbn;
    try (split; [done|by intros [|]]).
  - rewrite Ascii.eqb_eq. split; [intros ->; by left|].
    by intros [[= ->]|].
  - rewrite !andb_true_iff, !Ascii.eqb_eq. split.
    + intros [[[Ha Hb] Hc] Hd]. right. by rewrite Ha, Hb, Hc, Hd.
    + intros [|H]; [done|]. by injection H.
Qed.

Lemma or_default_spec v dflt :
  or_default v dflt
  = match v with
    | Some s => if decide (s = EmptyString) then dflt else s
    | None => dflt
    end.
Proof. by destruct v as [[|c s]|]. Qed.

(** X16. The conversion to MP3 is on exactly when POST_CONVERT_MP3 is [1] or
    [true] (in any letter case) or RECORD_FORMAT is [mp3] (in any letter
    case); the raw file is kept exactly when KEEP_OGG is unset, empty, [1]
    or [true] (in any letter case): every other value, such as [yes],
    turns the keeping off. *)
Theorem X16_configuration_flags env :
  (POST_CONVERT_MP3 (load_config env) = true
   ↔ (∃ v, env !! "POST_CONVERT_MP3" = Some v
        ∧ (v = "1" ∨ toLowerCase v = "true"))
     ∨ (∃ v, env !! "RECORD_FORMAT" = Some v ∧ toLowerCase v = "mp3"))
  ∧ (KEEP_OGG (load_config env) = true
     ↔ env !! "KEEP_OGG" = None ∨ env !! "KEEP_OGG" = Some EmptyString
       ∨ ∃ v, env !! "KEEP_OGG" = Some v
           ∧ (v = "1" ∨ toLowerCase v = "true")).
Proof.
  unfold load_config. cbn [POST_CONVERT_MP3 KEEP_OGG]. split.
  - rewrite orb_true_iff, is_1_or_true_spec, String.eqb_eq.
    rewrite !or_default_spec. split.
    + intros [H|H].
      * left. destruct (env !! "POST_CONVERT_MP3") as [v|]; [|by destruct H].
        case_decide; [subst; by destruct H|eauto].
      * right. destruct (env !! "RECORD_FORMAT") as [v|]; [|done].
        case_decide; [subst; done|eauto].
    + intros [(v & -> & H)|(v & -> & H)]; [left|right].
      * case_decide; [subst; by destruct H|done].
      * case_decide; [subst|done]. done.
  - rewrite is_1_or_true_spec, or_default_spec. split.
    + destruct (env !! "KEEP_OGG") as [v|]; [|eauto].
      case_decide; [subst; eauto|]. eauto.
    + intros [->|[->|(v & -> & H)]]; [by right|by right|].
      case_decide; [subst; by destruct H|done].
Qed.

(** X17. With KEEP_OGG unset the server never removes or overwrites the raw
    file of a session, whether the conversion is on or not; and with
    neither POST_CONVERT_MP3 nor RECORD_FORMAT set, every process it spawns
    is a recorder: no transcoder is ever started. *)
Theorem X17_default_environment_keeps_raw_files env evs1 evs2 d p :
  let cfg := load_config env in
  (env !! "KEEP_OGG" = None →
   Forall (λ ev, ∀ size, ev ≠ ExternalWrite (ogg_path cfg d p) size) evs2 →
   files (run cfg evs2 (run cfg evs1 boot)) !! ogg_path cfg d p
   = files (run cfg evs1 boot) !! ogg_path cfg d p)
  ∧ (env !! "POST_CONVERT_MP3" = None → env !! "RECORD_FORMAT" = None →
     Forall
       (λ ch, ∃ d p,
          argv ch = recorder_args (sdp_path cfg d p) (ogg_path cfg d p)
          ∧ onExit ch = OnRecorderExit (ogg_path cfg d p) (sdp_path cfg d p))
       (children (run cfg evs1 boot))).
Proof.
  cbn zeta. split.
  - intros Hkeep Hevs. apply files_safe; [apply run_consistent| | |done].
    + intros d' p' H. by destruct (session_files_distinct
                                    (load_config env) d' p' d p) as [? _].
    + intros _ Hk. unfold load_config in Hk. cbn in Hk.
      by rewrite Hkeep in Hk.
  - intros Hpost Hfmt.
    assert (Hoff : POST_CONVERT_MP3 (load_config env) = false).
    { unfold load_config. cbn. by rewrite Hpost, Hfmt. }
    eapply Forall_impl;
      [apply (children_ok _ _ (run_consistent (load_config env) evs1))|].
    intros ch (sdp & out & (d' & p' & -> & ->) & [H|[H _]]).
    + by exists d', p'.
    + congruence.
Qed.

(** ** The HTTP API *)





(** X20. POST /stop-recording is refused with 400 exactly when the body names
    no producer or an empty one.  Otherwise it is answered with 200
    whether or not a session was registered; afterwards no session is
    registered for the producer, and GET /producers lists the same
    producers as before, this one with no recording file and the others
    with the file they had. *)
Theorem X20_stop_recording_unregisters cfg req e s :
  let s' := fst (stop_recording cfg req e s) in
  let res := snd (stop_recording cfg req e s) in
  (status res = 400%nat
   ↔ req_producerId req = None ∨ req_producerId req = Some EmptyString)
  ∧ (status res = 400%nat → s' = s)
  ∧ ∀ pid, req_producerId req = Some pid → pid ≠ EmptyString →
      res = {| status := 200; body := OkBody |}
      ∧ recordings (world s') = delete pid (recordings (world s))
      ∧ producers (world s') = producers (world s)
      ∧ list_producers (world s')
        = (λ it : string * option string * option string,
             if decide (it.1.1 = pid) then (it.1, None) else it)
          <$> list_producers (world s).
Proof.
  cbn zeta. unfold stop_recording.
  destruct (req_producerId req) as [[|c pid0]|] eqn:Hreq; cbn.
  - split; [split; auto|]. split; [done|]. by intros pid [= <-].
  - split; [split; [done|by intros [|]]|]. split; [done|].
    intros pid [= <-] _.
    destruct (stop_frame Handler e (String c pid0) (world s))
      as (Hrec & _ & Hprod & _).
    split; [done|]. split; [done|]. split; [done|].
    unfold list_producers. rewrite Hprod, <- list_fmap_compose.
    apply list_fmap_ext. intros i [k p] _. cbn.
    unfold recordingFile. rewrite Hrec.
    case_decide as Hid.
    + by rewrite Hid, lookup_delete_eq.
    + by rewrite lookup_delete_ne.
  - split; [split; auto|]. split; [done|]. by intros pid [=].
Qed.

(** What a step of the server does to one entry of [transports]. *)
Lemma api_step_transports cfg a s id :
  transports (api_step cfg a s) !! id = transports s !! id
  ∨ (creates_transport id a ∧ is_Some (transports (api_step cfg a s) !! id))
  ∨ (ends_transport id a ∧ transports (api_step cfg a s) !! id = None).
Proof.
  destruct a as [r|id' st|ev]; [|destruct st|]; cbn; auto.
  - destruct r as [|req uuid [id'|msg]|req out|req [id'|msg]| |req e];
      cbn; auto.
    + destruct (decide (id' = id)) as [->|Hne].
      * right. left. by rewrite lookup_insert_eq.
      * left. by rewrite lookup_insert_ne.
    + destruct (produce_checks req s); auto.
    + destruct (produce_checks req s); auto.
    + unfold stop_recording. destruct (req_producerId req) as [[|]|]; auto.
  - destruct (decide (id' = id)) as [->|Hne].
    + right. right. by rewrite lookup_delete_eq.
    + left. by rewrite lookup_delete_ne.
  - destruct (decide (id' = id)) as [->|Hne].
    + right. right. by rewrite lookup_delete_eq.
    + left. by rewrite lookup_delete_ne.
Qed.

Lemma api_steps_cons cfg a evs s :
  api_steps cfg (a :: evs) s = api_steps cfg evs (api_step cfg a s).
Proof. done. Qed.

(** X21. A WebRTC transport is in [transports], and so accepted by POST
    /connect-transport and POST /produce, from its creation until it is
    reported closed or failed; from then on requests that name it are
    answered with 404, until a transport with that identifier is created
    again.  No other request and no step of the recording pipeline adds
    or removes a transport. *)
Theorem X21_transport_lifetime cfg evs s id :
  (is_Some (transports s !! id) →
   Forall (λ a, ¬ ends_transport id a) evs →
   is_Some (transports (api_steps cfg evs s) !! id))
  ∧ (transports s !! id = None →
     Forall (λ a, ¬ creates_transport id a) evs →
     ∀ req out,
       req_transportId req = Some id →
       transports (api_steps cfg evs s) !! id = None
       ∧ connect_transport req out (api_steps cfg evs s)
         = Some {| status := 404; body := ErrorBody "transport not found" |}
       ∧ produce_checks req (api_steps cfg evs s)
         = Some {| status := 404; body := ErrorBody "transport not found" |}).
Proof.
  split.
  - intros Hin Hevs. revert s Hin.
    induction Hevs as [|a evs Ha _ IH]; intros s Hin; [done|].
    rewrite api_steps_cons. apply IH.
    destruct (api_step_transports cfg a s id) as [->|[[_ ?]|[? _]]]; done.
  - intros Hout Hevs req out Hreq.
    assert (Hnone : transports (api_steps cfg evs s) !! id = None).
    { revert s Hout. induction Hevs as [|a evs Ha _ IH]; intros s Hout;
        [done|].
      rewrite api_steps_cons. apply IH.
      destruct (api_step_transports cfg a s id) as [->|[[? _]|[_ ?]]]; done. }
    split; [done|].
    unfold connect_transport, produce_checks, find_transport.
    by rewrite Hreq; cbn; rewrite Hnone.
Qed.


(** * The theorems at work on concrete scenarios *)

Import Scenario.

Ltac by_evaluation := vm_compute; first [reflexivity | eexists; reflexivity].

(** C1: a second start for P4, whose session is registered, allocates
    again. *)
Lemma C1_start_allocates_every_time_witness :
  let w := recording cfg P4 in
  is_Some (recordings w !! "P4")
  ∧ plainTransports
      (run cfg (Start P4 :: settle_all (length (pending w)) fine) w)
    = plainTransports w
      ++ [{| remotePort := Some (freePort fine); transportClosed := false |}].
Proof.
  split; [by_evaluation|].
  exact (proj1 (proj2 (C1_start_allocates_every_time cfg P4 fine
                         (recording cfg P4)
                         eq_refl eq_refl eq_refl eq_refl))).
Defined.

(** Scenario D, against C1 as the spec states it: two calls for P4,
    one after the other or with their steps alternating, leave two plain
    transports, two consumers and two recorders, and four Cleanup
    listeners. *)
Lemma C1_second_start_is_not_a_noop :
  let w1 := recording cfg P4 in
  let w2 := run cfg (Start P4 :: settle_all 1 fine) w1 in
  let w2' := run cfg two_starts boot in
  is_Some (recordings w1 !! "P4")
  ∧ (length (plainTransports w1), length (consumers w1),
     length (children w1)) = (1, 1, 1)%nat
  ∧ (length (plainTransports w2), length (consumers w2),
     length (children w2)) = (2, 2, 2)%nat
  ∧ (length (plainTransports w2'), length (consumers w2'),
     length (children w2'), length (listeners w2')) = (2, 2, 2, 4)%nat
  ∧ transportClosed <$> plainTransports w2' = [false; false]
  ∧ exited <$> children w2' = [None; None].
Proof. cbv zeta. repeat split; by_evaluation. Qed.

(** C2: the recorder of P3 is interrupted with a raw file of 2048
    bytes. *)
Lemma C2_sigint_small_file_witness :
  let w := step cfg (StopRequest "P3" fine) (captured cfg P3 2048) in
  let out := ogg_path cfg day P3 in
  children w !! 0%nat = Some (deliver (recorder_of cfg P3))
  ∧ files w !! out = Some (Blob 2048)
  ∧ has_data w out = false
  ∧ recorder_ok None (Some "SIGINT") (has_data w out) = true.
Proof.
  cbv zeta.
  assert (H1 : children (step cfg (StopRequest "P3" fine)
                           (captured cfg P3 2048)) !! 0%nat
               = Some (deliver (recorder_of cfg P3))) by by_evaluation.
  assert (H2 : files (step cfg (StopRequest "P3" fine) (captured cfg P3 2048))
               !! ogg_path cfg day P3 = Some (Blob 2048)) by by_evaluation.
  split; [exact H1|]. split; [exact H2|].
  pose proof (C2_sigint_small_file cfg 0%nat (deliver (recorder_of cfg P3))
                (ogg_path cfg day P3) (sdp_path cfg day P3) (Blob 2048)
                None fine [] None None fine _
                H1 eq_refl eq_refl (ogg_sdp_distinct cfg day P3) H2
                ltac:(cbn; lia)) as (Ha & Hb & _).
  exact (conj Ha Hb).
Defined.

(** Scenario C, against C2 as the spec states it: with post-conversion
    on, the exit by SIGINT with a 2048-byte file counts as usable and the
    transcoder is spawned. *)
Lemma C2_sigint_is_usable :
  let w := step cfg (StopRequest "P3" fine) (captured cfg P3 2048) in
  let out := ogg_path cfg day P3 in
  let w' := step cfg (ChildExit 0 None (Some "SIGINT") fine) w in
  POST_CONVERT_MP3 cfg = true
  ∧ file_size <$> files w !! out = Some 2048%Z
  ∧ killed <$> children w !! 0%nat = Some true
  ∧ recorder_ok None (Some "SIGINT") (has_data w out) = true
  ∧ children w' !! 1%nat = Some (transcoder cfg out (sdp_path cfg day P3)).
Proof. cbv zeta. repeat split; by_evaluation. Qed.

(** C3: the session of P1 is stopped. *)
Lemma C3_removed_by_stop_witness :
  let w := recording cfg P1 in
  recordings w !! "P1" = Some (session_of cfg P1)
  ∧ recordings (snd (stopRecordingForProducer Handler fine "P1" w))
    = delete "P1" (recordings w).
Proof.
  cbv zeta.
  assert (H1 : recordings (recording cfg P1) !! "P1"
               = Some (session_of cfg P1)) by by_evaluation.
  split; [exact H1|].
  exact (proj1 (C3_removed_by_stop cfg Handler fine "P1" (session_of cfg P1)
                  (recording cfg P1) H1)).
Defined.

(** Against C3 as the spec states it: after the stop request the session
    of P1 is out of the registry while its recorder, to which SIGINT was
    sent, has not exited. *)
Lemma C3_removed_before_exit :
  let w := recording cfg P1 in
  let w' := step cfg (StopRequest "P1" fine) w in
  recordings w !! "P1" = Some (session_of cfg P1)
  ∧ recordings w' !! "P1" = None
  ∧ killed <$> children w' !! ffmpeg (session_of cfg P1) = Some true
  ∧ exited <$> children w' !! ffmpeg (session_of cfg P1) = Some None.
Proof. cbv zeta. repeat split; by_evaluation. Qed.

(** C4: a recorder that exits with code 0. *)
Lemma C4_usable_exit_witness :
  recorder_ok (Some 0%Z) None (has_data boot "a.ogg") = true.
Proof.
  exact (proj1 (C4_usable_exit cfg Handler fine boot "a.ogg" "a.sdp"
                  (Some 0%Z) None (or_introl eq_refl))).
Defined.

(** C5: the router cannot consume P2. *)
Lemma C5_check_fails_after_transport_witness :
  let w' := run cfg (Start P2 :: settles 4 (length (pending boot)) refused)
              boot in
  canConsume refused = false
  ∧ pending w' = pending boot ++ [Returned]
  ∧ consumers w' = consumers boot.
Proof.
  cbv zeta. split; [reflexivity|].
  pose proof (C5_check_fails_after_transport cfg P2 refused boot
                eq_refl eq_refl) as (Ha & Hb & _).
  exact (conj Ha Hb).
Defined.

(** Scenario B, against C5 as the spec states it: a plain transport was
    created and connected before the check failed; it is closed
    afterwards. *)
Lemma C5_transport_was_created :
  let w' := run cfg (Start P2 :: settles 4 0 refused) boot in
  plainTransports w'
  = [{| remotePort := Some 4002; transportClosed := true |}]
  ∧ act <$> trace w'
    = [ProbePort; CreatePlainTransport 0; ConnectTransport 0 4002;
       CloseTransport 0]
  ∧ consumers w' = [] ∧ children w' = [] ∧ recordings w' = ∅.
Proof. cbv zeta. repeat split; by_evaluation. Qed.


(** C7: Scenario A up to the spawn of the transcoder. *)
Lemma C7_conversion_witness :
  let w := captured cfg P1 51200 in
  let out := ogg_path cfg day P1 in
  children w !! 0%nat = Some (recorder_of cfg P1)
  ∧ has_data w out = true
  ∧ children (step cfg (ChildExit 0 (Some 0%Z) None fine) w)
    !! length (children w)
    = Some (transcoder cfg out (sdp_path cfg day P1)).
Proof.
  cbv zeta.
  assert (H1 : children (captured cfg P1 51200) !! 0%nat
               = Some (recorder_of cfg P1)) by by_evaluation.
  assert (H2 : has_data (captured cfg P1 51200) (ogg_path cfg day P1)
               = true) by by_evaluation.
  assert (H3 : recorder_ok (Some 0%Z) None
                 (has_data (captured cfg P1 51200) (ogg_path cfg day P1))
               = true) by by_evaluation.
  split; [exact H1|]. split; [exact H2|].
  exact (proj1 (C7_conversion cfg 0%nat (recorder_of cfg P1)
                  (ogg_path cfg day P1) (sdp_path cfg day P1)
                  (Some 0%Z) None fine [] None None fine
                  (captured cfg P1 51200)
                  H1 eq_refl eq_refl (ogg_sdp_distinct cfg day P1)
                  eq_refl H3 H2 eq_refl)).
Defined.

(** Against C7 as the spec states it: post-conversion on, KEEP_OGG off,
    a usable exit and 51200 bytes captured, but the transcoder exits with
    code 1: the raw file is still there, and the descriptor is gone. *)
Lemma C7_raw_kept_when_transcoder_fails :
  let w := captured cfg P1 51200 in
  let out := ogg_path cfg day P1 in
  let w' := run cfg [ChildExit 0 (Some 0%Z) None fine;
                     ChildExit 1 (Some 1%Z) None fine] w in
  POST_CONVERT_MP3 cfg = true ∧ KEEP_OGG cfg = false
  ∧ recorder_ok (Some 0%Z) None (has_data w out) = true
  ∧ has_data w out = true
  ∧ files w' !! out = Some (Blob 51200)
  ∧ files w' !! sdp_path cfg day P1 = None
  ∧ exited <$> children w' = [Some (Some 0%Z, None); Some (Some 1%Z, None)].
Proof. cbv zeta. repeat split; by_evaluation. Qed.


(** C10: stop requests and a close signal for P1 while its session
    starts. *)
Lemma C10_not_registered_while_starting_witness :
  let evs := [StopRequest "P1" fine; ProducerSignal "P1" producerclose fine;
              Tick 20] in
  let w1 := run cfg (Start P1 :: settles 4 (length (pending boot)) fine)
              boot in
  recordings boot !! producerId P1 = None
  ∧ same_sessions w1 (run cfg evs w1).
Proof.
  cbv zeta. split; [reflexivity|].
  exact (proj1 (proj2 (proj2
           (C10_not_registered_while_starting cfg P1 fine
              [StopRequest "P1" fine; ProducerSignal "P1" producerclose fine;
               Tick 20] []
              boot eq_refl eq_refl eq_refl eq_refl eq_refl
              ltac:(repeat constructor) ltac:(constructor))))).
Defined.

(** Scenario A: the session of P1 captures 51200 bytes, the recorder
    exits with code 0, the transcoder writes the derived file and exits
    with code 0; post-conversion is on at 160k and KEEP_OGG is off.  The
    derived file is there, the raw file and the descriptor are gone. *)
Example scenario_A :
  let out := ogg_path cfg day P1 in
  let mp3 := replace_ogg_ext out in
  let w' := run cfg [ChildExit 0 (Some 0%Z) None fine;
                     ExternalWrite mp3 20480;
                     ChildExit 1 (Some 0%Z) None fine]
              (captured cfg P1 51200) in
  argv <$> children w' !! 1%nat
  = Some ["-hide_banner"; "-loglevel"; "warning"; "-i"; out; "-vn";
          "-c:a"; "libmp3lame"; "-b:a"; "160k"; "-ar"; "44100"; "-ac"; "2";
          mp3]
  ∧ files w' !! mp3 = Some (Blob 20480)
  ∧ files w' !! out = None
  ∧ files w' !! sdp_path cfg day P1 = None.
Proof. cbv zeta. repeat split; by_evaluation. Qed.

(** ** The further properties at work *)

Import Examples.

(** X5: sessions are recording for P1 and P2, and POST /stop-recording names
    P1: the session of P2 stays registered and untouched. *)
Lemma X5_stop_leaves_other_sessions_witness :
  let w := run cfg two_sessions boot in
  let w' := step cfg (StopRequest "P1" fine) w in
  recordings w !! "P2" = Some second_session
  ∧ recordings w' !! "P2" = Some second_session
  ∧ untouched second_session w w'.
Proof.
  cbv zeta.
  assert (H : recordings (run cfg two_sessions boot) !! "P2"
              = Some second_session) by by_evaluation.
  split; [exact H|].
  exact (proj1 (X5_stop_leaves_other_sessions cfg two_sessions
                  (StopRequest "P1" fine) "P1" eq_refl)
           "P2" second_session ltac:(discriminate) H).
Defined.


(** X10: the start for P1 has reached [consumer.resume()] and the resume is
    rejected: the transport, the consumer and the recorder stay as they
    are through a stop request and a close signal for P1. *)
Lemma X10_rejected_start_is_never_cleaned_up_witness :
  let w := run cfg resuming boot in
  let w1 := step cfg (Settle 0 rejecting) w in
  let w2 := run cfg [StopRequest "P1" fine;
                     ProducerSignal "P1" producerclose fine] w1 in
  pending w !! 0%nat = Some (AwaitResume P1 first_session)
  ∧ plainTransports w2 !! 0%nat = plainTransports w !! 0%nat
  ∧ consumers w2 !! consumer first_session
    = consumers w !! consumer first_session
  ∧ killed <$> children w2 !! ffmpeg first_session
    = killed <$> children w !! ffmpeg first_session
  ∧ kills (ffmpeg first_session) (trace w2) = 0%nat.
Proof.
  cbv zeta.
  assert (Hk : pending (run cfg resuming boot) !! 0%nat
               = Some (AwaitResume P1 first_session)) by by_evaluation.
  pose proof (X10_rejected_start_is_never_cleaned_up cfg resuming 0 rejecting
                (AwaitResume P1 first_session)
                [StopRequest "P1" fine;
                 ProducerSignal "P1" producerclose fine]
                Hk eq_refl eq_refl) as (_ & _ & Ht & Hs).
  split; [exact Hk|]. split; [exact (Ht 0%nat eq_refl)|].
  exact (Hs "P1" first_session eq_refl).
Defined.

(** X11: a session is registered for P4 and a second start for P4 registers
    its own: the first session stays as it is through the stop request
    that stops the second. *)
Lemma X11_replaced_session_is_never_stopped_witness :
  let w := run cfg second_resuming boot in
  let w1 := step cfg (Settle 1 fine) w in
  let w2 := run cfg [StopRequest "P4" fine] w1 in
  pending w !! 1%nat = Some (AwaitResume P4 second_session_P4)
  ∧ recordings w !! producerId P4 = Some (session_of cfg P4)
  ∧ recordings w1 !! producerId P4 = Some second_session_P4
  ∧ plainTransports w2 !! transport (session_of cfg P4)
    = plainTransports w !! transport (session_of cfg P4)
  ∧ consumers w2 !! consumer (session_of cfg P4)
    = consumers w !! consumer (session_of cfg P4)
  ∧ killed <$> children w2 !! ffmpeg (session_of cfg P4)
    = killed <$> children w !! ffmpeg (session_of cfg P4)
  ∧ kills (ffmpeg (session_of cfg P4)) (trace w2) = 0%nat.
Proof.
  cbv zeta.
  assert (Hk : pending (run cfg second_resuming boot) !! 1%nat
               = Some (AwaitResume P4 second_session_P4)) by by_evaluation.
  assert (Hr : recordings (run cfg second_resuming boot) !! producerId P4
               = Some (session_of cfg P4)) by by_evaluation.
  split; [exact Hk|]. split; [exact Hr|].
  exact (X11_replaced_session_is_never_stopped cfg second_resuming 1 fine P4
           second_session_P4 (session_of cfg P4) [StopRequest "P4" fine]
           Hk eq_refl Hr).
Defined.

Lemma day_is_date : is_date day.
Proof. unfold is_date. cbn. lia. Qed.


(** X13: the stamp of 5 January 2024, 13:07:09. *)
Lemma X13_ts_format_witness :
  is_date day ∧ String.length (ts day) = 15%nat.
Proof.
  split; [exact day_is_date|].
  exact (proj1 (proj2 (X13_ts_format day day_is_date)) ltac:(cbn; lia)).
Defined.


(** X12: two producers, each started once by POST /produce. *)
Lemma X12_one_session_per_producer_witness :
  api_run two_sessions
  ∧ (length (List.filter (is_consume_for "P1")
               (trace (run cfg two_sessions boot))) ≤ 1)%nat
  ∧ (length (List.filter (is_registration_of "P1")
               (trace (run cfg two_sessions boot))) ≤ 1)%nat.
Proof.
  assert (H : api_run two_sessions).
  { split; [repeat constructor|].
    apply (bool_decide_unpack _). by_evaluation. }
  split; [exact H|].
  exact (X12_one_session_per_producer cfg two_sessions "P1" H).
Defined.


(** X17: with the environment of the Dockerfile the conversion is off and
    raw files are kept; the raw file of P1 outlives the exit of its
    recorder and the stop of its session. *)
Lemma X17_default_environment_keeps_raw_files_witness :
  let c := load_config docker_env in
  let evs1 := Produce P1 :: settle_all 0 fine
              ++ [ExternalWrite (ogg_path c day P1) 51200] in
  let evs2 := [ChildExit 0 (Some 0%Z) None fine; StopRequest "P1" fine] in
  c = {| RECORD_DIR := "/recordings"; POST_CONVERT_MP3 := false;
         RECORD_BITRATE := "160k"; KEEP_OGG := true |}
  ∧ files (run c evs1 boot) !! ogg_path c day P1 = Some (Blob 51200)
  ∧ files (run c evs2 (run c evs1 boot)) !! ogg_path c day P1
    = files (run c evs1 boot) !! ogg_path c day P1.
Proof.
  cbv zeta. split; [by_evaluation|]. split; [by_evaluation|].
  apply (proj1 (X17_default_environment_keeps_raw_files docker_env
                  (Produce P1 :: settle_all 0 fine
                   ++ [ExternalWrite
                         (ogg_path (load_config docker_env) day P1) 51200])
                  [ChildExit 0 (Some 0%Z) None fine; StopRequest "P1" fine]
                  day P1)).
  - by_evaluation.
  - repeat constructor; intros size; discriminate.
Defined.


(** X21: transport T1 stays in [transports] through a listing, the close
    of another transport and a step of the pipeline, and is refused once
    it is reported closed. *)
Lemma X21_transport_lifetime_witness :
  let evs := [Http GetProducers; Dtls "T2" dtls_closed; Pipeline (Tick 5)] in
  is_Some (transports with_T1 !! "T1")
  ∧ is_Some (transports (api_steps cfg evs with_T1) !! "T1")
  ∧ produce_checks audio_on_T1
      (api_steps cfg evs (dtls_state_change "T1" dtls_closed with_T1))
    = Some {| status := 404; body := ErrorBody "transport not found" |}.
Proof.
  cbv zeta.
  assert (H1 : is_Some (transports with_T1 !! "T1")) by by_evaluation.
  split; [exact H1|]. split.
  - apply (proj1 (X21_transport_lifetime cfg
                    [Http GetProducers; Dtls "T2" dtls_closed;
                     Pipeline (Tick 5)] with_T1 "T1") H1).
    repeat apply Forall_cons_2; try apply Forall_nil_2; cbn;
      first [discriminate | intros []].
  - apply (proj2 (X21_transport_lifetime cfg
                    [Http GetProducers; Dtls "T2" dtls_closed;
                     Pipeline (Tick 5)]
                    (dtls_state_change "T1" dtls_closed with_T1) "T1")
             ltac:(by_evaluation)
             ltac:(repeat apply Forall_cons_2; try apply Forall_nil_2; cbn;
                   first [discriminate | intros []])
             audio_on_T1 (Resolved tt) eq_refl).
Defined.
